(** * GmailWrapper: a shallow embedding and its checked properties

    The development follows the layout of the package:

    - [Py]         : the fragment of Python the package relies on (exceptions
                     and their classes, truthiness, decoded JSON values,
                     argument binding at a call);
    - [Config]     : [gmailwrapper/config.py];
    - [Runtime]    : the mutable objects and the outside world (token file,
                     OAuth endpoints, HTTP transport) as an explicit state
                     with a trace of observable events;
    - [Auth]       : [gmailwrapper/auth.py];
    - [Client]     : [gmailwrapper/client.py];
    - [Resources]  : [gmailwrapper/resources/*.py];
    - [Base64], [Email] : the parts of the standard library that
                     [create_message] and [parse_message] call;
    - [Messages]   : the two pure helpers of [resources/messages.py];
    - [Api]        : [gmailwrapper/api.py], with [GmailHTTPClient.close].

    Definitions come first, the lemmas and theorems after them. *)

From Stdlib Require Import ZArith NArith String Ascii List Lia Bool DecimalString.
From stdpp Require Import base option gmap strings list.
Import ListNotations.

Set Warnings "-register-all".
Open Scope string_scope.
Open Scope Z_scope.

(* ===================================================================== *)
(** * Python fragment *)
(* ===================================================================== *)

Module Py.

(** Exception classes: the ones of [gmailwrapper/exceptions.py], the two
    httpx classes that [GmailHTTPClient.request] catches, and the builtin
    classes that the package raises or lets through.  Every class here
    derives from [Exception]; [BaseException]-only signals (keyboard
    interrupt, task cancellation) are outside the model. *)
Inductive exn_class : Type :=
| Exception
| ValueError | TypeError | AttributeError
| UnicodeDecodeError | BinasciiError | JSONDecodeError
| HTTPStatusError | HttpxRequestError
| GmailWrapperError
| GmailAuthError | GmailCredentialsError | GmailTokenError
| GmailAPIError | GmailRequestError | GmailResourceError
| RecursionError
| CollaboratorError.

(** The direct base class ([None] for the root). *)
Definition base_class (c : exn_class) : option exn_class :=
  match c with
  | Exception => None
  | ValueError | TypeError | AttributeError => Some Exception
  | UnicodeDecodeError | BinasciiError | JSONDecodeError => Some ValueError
  | HTTPStatusError | HttpxRequestError => Some Exception
  | GmailWrapperError => Some Exception
  | GmailAuthError => Some GmailWrapperError
  | GmailCredentialsError | GmailTokenError => Some GmailAuthError
  | GmailAPIError | GmailRequestError | GmailResourceError =>
      Some GmailWrapperError
  | RecursionError => Some Exception
  | CollaboratorError => Some Exception
  end.

Definition exn_class_eqb (a b : exn_class) : bool :=
  match a, b with
  | Exception, Exception | ValueError, ValueError | TypeError, TypeError
  | AttributeError, AttributeError
  | UnicodeDecodeError, UnicodeDecodeError | BinasciiError, BinasciiError
  | JSONDecodeError, JSONDecodeError
  | HTTPStatusError, HTTPStatusError | HttpxRequestError, HttpxRequestError
  | GmailWrapperError, GmailWrapperError | GmailAuthError, GmailAuthError
  | GmailCredentialsError, GmailCredentialsError
  | GmailTokenError, GmailTokenError | GmailAPIError, GmailAPIError
  | GmailRequestError, GmailRequestError
  | GmailResourceError, GmailResourceError
  | RecursionError, RecursionError
  | CollaboratorError, CollaboratorError => true
  | _, _ => false
  end.

(** [issubclass sub sup]; the hierarchy has depth at most three. *)
Fixpoint issubclass_fuel (fuel : nat) (sub sup : exn_class) : bool :=
  exn_class_eqb sub sup ||
  match fuel with
  | O => false
  | S fuel' =>
      match base_class sub with
      | Some b => issubclass_fuel fuel' b sup
      | None => false
      end
  end.

Definition issubclass : exn_class -> exn_class -> bool := issubclass_fuel 4.

(** A raised exception: its class, [str(e)], and the two extra attributes
    that [GmailAPIError.__init__] stores.  For the httpx classes
    [request_url] is [exc.request.url] and, for [HTTPStatusError],
    [status_code]/[response] are [exc.response.status_code] and
    [exc.response.text]. *)
Record exn : Type := mk_exn {
  cls : exn_class;
  message : string;
  status_code : option Z;
  response : option string;
  request_url : option string
}.

Definition new (c : exn_class) (msg : string) : exn :=
  mk_exn c msg None None None.

(** [GmailAPIError(message, status_code=..., response=...)]. *)
Definition new_GmailAPIError (msg : string) (status : Z) (body : string) : exn :=
  mk_exn GmailAPIError msg (Some status) (Some body) None.

Definition isinstance (e : exn) (c : exn_class) : bool := issubclass (cls e) c.

(** [str(e)]. *)
Definition str_exn (e : exn) : string := message e.

Inductive result (A : Type) : Type :=
| Ok (a : A)
| Raise (e : exn).
Arguments Ok {A} a.
Arguments Raise {A} e.

(** [str(n)] for an integer. *)
Definition str_int (z : Z) : string := NilZero.string_of_int (Z.to_int z).

(** Decoded JSON, as [response.json()] hands it to the package: objects are
    dictionaries keyed by strings.  Non-integral numbers do not occur in the
    modelled traffic. *)
Inductive Json : Type :=
| JNull
| JBool (b : bool)
| JNum (z : Z)
| JStr (s : string)
| JArr (l : list Json)
| JObj (m : gmap string Json).

(** Truthiness, as tested by [if x:] and [not x]. *)
Definition truthy_str (s : string) : bool :=
  match s with EmptyString => false | _ => true end.

Definition truthy_json (j : Json) : bool :=
  match j with
  | JNull => false
  | JBool b => b
  | JNum z => negb (z =? 0)
  | JStr s => truthy_str s
  | JArr l => match l with [] => false | _ => true end
  | JObj m => negb (bool_decide (m = ∅))
  end.

(** [dict.get(key, default)]. *)
Definition dict_get {V} (m : gmap string V) (key : string) (default : V) : V :=
  match m !! key with
  | Some v => v
  | None => default
  end.

(** [", ".join(l)] and friends. *)
Fixpoint join (sep : string) (l : list string) : string :=
  match l with
  | [] => ""
  | [x] => x
  | x :: rest => x ++ sep ++ join sep rest
  end.

(** ** Argument binding at a call

    [bind_arguments sig pos kw] follows the interpreter: positional
    arguments fill the parameters from the left, each keyword argument must
    name a parameter that is still unfilled, and parameters left over take
    their default ([None] in [sig] marks a parameter without default).
    [self] is already bound and not part of [sig]. *)
Section Binding.
Context {V : Type}.

Fixpoint bind_positional (fname : string) (sig : list (string * option V))
         (pos : list V) : result (list (string * V) * list (string * option V)) :=
  match pos, sig with
  | [], _ => Ok ([], sig)
  | _ :: _, [] =>
      Raise (new TypeError (fname ++ "() takes fewer positional arguments"))
  | v :: pos', (p, _) :: sig' =>
      match bind_positional fname sig' pos' with
      | Ok (bound, rest) => Ok ((p, v) :: bound, rest)
      | Raise e => Raise e
      end
  end.

Definition names {W} (l : list (string * W)) : list string := map fst l.

Fixpoint bind_keywords (fname : string) (filled : list string)
         (rest : list (string * option V)) (kw : list (string * V))
  : result (list (string * V)) :=
  match kw with
  | [] => Ok []
  | (k, v) :: kw' =>
      if bool_decide (k ∈ filled) then
        Raise (new TypeError
                 (fname ++ "() got multiple values for argument '" ++ k ++ "'"))
      else if bool_decide (k ∈ names rest) then
        match bind_keywords fname (k :: filled) rest kw' with
        | Ok bound => Ok ((k, v) :: bound)
        | Raise e => Raise e
        end
      else
        Raise (new TypeError
                 (fname ++ "() got an unexpected keyword argument '" ++ k ++ "'"))
  end.

Fixpoint bind_defaults (fname : string) (given : list (string * V))
         (rest : list (string * option V)) : result (list (string * V)) :=
  match rest with
  | [] => Ok []
  | (p, d) :: rest' =>
      match bind_defaults fname given rest' with
      | Raise e => Raise e
      | Ok bound =>
          if bool_decide (p ∈ names given) then Ok bound
          else match d with
               | Some v => Ok ((p, v) :: bound)
               | None =>
                   Raise (new TypeError
                            (fname ++ "() missing required argument '" ++ p ++ "'"))
               end
      end
  end.

Definition bind_arguments (fname : string) (sig : list (string * option V))
           (pos : list V) (kw : list (string * V)) : result (list (string * V)) :=
  match bind_positional fname sig pos with
  | Raise e => Raise e
  | Ok (bound_pos, rest) =>
      match bind_keywords fname (names bound_pos) rest kw with
      | Raise e => Raise e
      | Ok bound_kw =>
          match bind_defaults fname bound_kw rest with
          | Raise e => Raise e
          | Ok bound_def => Ok (bound_pos ++ bound_kw ++ bound_def)%list
          end
      end
  end.

Fixpoint lookup_arg (name : string) (bound : list (string * V)) : option V :=
  match bound with
  | [] => None
  | (k, v) :: rest => if bool_decide (k = name) then Some v else lookup_arg name rest
  end.
End Binding.

End Py.

Export Py.

(* ===================================================================== *)
(** * Configuration ([config.py], [consts.py]) *)
(* ===================================================================== *)

Module Config.

Record GmailConfig : Type := {
  BASE_URL : string;
  MESSAGES_ENDPOINT : string;
  DRAFTS_ENDPOINT : string;
  THREADS_ENDPOINT : string;
  SEND_ENDPOINT : string;
  TRASH_SUFFIX : string;
  UNTRASH_SUFFIX : string;
  FULL_FORMAT : string
}.

(** The dataclass defaults, i.e. [GmailConfig()]. *)
Definition default : GmailConfig := {|
  BASE_URL := "https://gmail.googleapis.com/gmail/v1/users/me";
  MESSAGES_ENDPOINT := "messages";
  DRAFTS_ENDPOINT := "drafts";
  THREADS_ENDPOINT := "threads";
  SEND_ENDPOINT := "messages/send";
  TRASH_SUFFIX := "trash";
  UNTRASH_SUFFIX := "untrash";
  FULL_FORMAT := "full"
|}.

End Config.


(* ===================================================================== *)
(** * Mutable objects and the outside world *)
(* ===================================================================== *)

Module Runtime.

(** [google.oauth2.credentials.Credentials], reduced to the attributes the
    package reads: [token], [refresh_token], and the [expiry] from which the
    library derives [expired] and [valid]. *)
Record Credentials : Type := {
  token : option string;
  refresh_token : option string;
  expiry : option Z
}.

(** The arguments of one call on the [httpx.AsyncClient]. *)
Record Request : Type := {
  req_method : string;
  req_url : string;
  req_headers : gmap string string;
  req_params : option (gmap string Json);
  req_json : option Json
}.

(** An [httpx.Response]: [response.request.url], [status_code], [text], and
    the value of [response.json()] ([None] when the body is not JSON). *)
Record Response : Type := {
  resp_url : string;
  resp_status : Z;
  resp_text : string;
  resp_json : option Json
}.

(** What a call on the client comes back with: a response, whatever its
    status; an [httpx.RequestError] (no response received) with its
    [exc.request.url] and [str(exc)]; or any other exception, raised by the
    client before anything is sent ([httpx.InvalidURL] for a URL it cannot
    parse, [TypeError] for data that cannot be serialised as JSON). *)
Inductive TransportOutcome : Type :=
| Responded (r : Response)
| TransportFailed (url : string) (msg : string)
| CallRaised (e : exn).

(** The [httpx.AsyncClient] built by [_get_client]. *)
Record AsyncClient : Type := {
  client_headers : gmap string string;
  client_proxies : option (gmap string string)
}.

(** Observable interactions with the outside world, in the order they
    happen. *)
Inductive Event : Type :=
| TokenFileExists                    (* os.path.exists(TOKEN_PATH) *)
| TokenFileRead                      (* Credentials.from_authorized_user_file *)
| TokenFileWrite (c : Credentials)   (* open(TOKEN_PATH, "w") and write *)
| CredentialsFileExists              (* os.path.exists(CREDENTIALS_PATH) *)
| OAuthRefresh (c : Credentials)     (* creds.refresh(Request()) *)
| OAuthFlow                          (* flow.run_local_server(...) *)
| ClientCreated (c : AsyncClient)    (* httpx.AsyncClient(...) *)
| HttpCall (r : Request)             (* client.get / post / put / delete *)
| ClientClosed (c : AsyncClient).    (* client.aclose() *)

(** The collaborators the package does not implement.  [transport] may
    answer differently depending on what has happened so far;
    [repr_container] is the text an f-string produces for a list or a
    dictionary.

    [token_file_write c] is what [open(TOKEN_PATH, "w")] followed by
    [token.write(c.to_json())] leaves behind: [None] when the file cannot be
    opened, and is therefore untouched; [Some r] when it was opened, and so
    truncated, [r] being what loading the file yields from then on.  That
    is a credential when the JSON text was written out and the loader
    accepts it; it is an error when the write broke off, or when the text
    lacks a field the loader requires ([to_json] leaves out the attributes
    that are [None]).

    [aclose c] is the exception [c.aclose()] raises, if any. *)
Record Env : Type := {
  TOKEN_PATH : string;
  CREDENTIALS_PATH : string;
  HTTP_PROXY : option string;
  now : Z;
  REFRESH_THRESHOLD : Z;
  credentials_file_exists : bool;
  oauth_refresh : Credentials -> result Credentials;
  oauth_flow : result Credentials;
  token_file_write : Credentials -> option (result Credentials);
  aclose : AsyncClient -> option exn;
  transport : list Event -> Request -> TransportOutcome;
  repr_container : Json -> string
}.

(** The state: the two attributes the objects mutate
    ([GmailAuthenticator._credentials], [GmailHTTPClient._client]), the token
    file ([None]: absent; otherwise what loading it yields), and the trace. *)
Record World : Type := {
  _credentials : option Credentials;
  _client : option AsyncClient;
  token_file : option (result Credentials);
  trace : list Event
}.

(** Computations: state passing, with an exception or a value as outcome.
    State changes made before an exception is raised persist. *)
Definition M (A : Type) : Type := World -> result A * World.

#[global] Instance M_ret : MRet M := fun A a w => (Ok a, w).

#[global] Instance M_bind : MBind M := fun A B f m w =>
  match m w with
  | (Ok a, w') => f a w'
  | (Raise e, w') => (Raise e, w')
  end.

Definition raise {A} (e : exn) : M A := fun w => (Raise e, w).

(** [try: body  except ...: handler]; the handler re-raises what its clauses
    do not match. *)
Definition try_except {A} (body : M A) (handler : exn -> M A) : M A := fun w =>
  match body w with
  | (Ok a, w') => (Ok a, w')
  | (Raise e, w') => handler e w'
  end.

Definition emit (ev : Event) : M unit := fun w =>
  (Ok tt, {| _credentials := _credentials w; _client := _client w;
             token_file := token_file w; trace := (trace w ++ [ev])%list |}).

Definition get_world : M World := fun w => (Ok w, w).

Definition set__credentials (c : option Credentials) : M unit := fun w =>
  (Ok tt, {| _credentials := c; _client := _client w;
             token_file := token_file w; trace := trace w |}).

Definition set__client (c : option AsyncClient) : M unit := fun w =>
  (Ok tt, {| _credentials := _credentials w; _client := c;
             token_file := token_file w; trace := trace w |}).

Definition set_token_file (f : option (result Credentials)) : M unit := fun w =>
  (Ok tt, {| _credentials := _credentials w; _client := _client w;
             token_file := f; trace := trace w |}).

(** The network calls of a trace. *)
Definition http_calls (t : list Event) : list Request :=
  omap (fun ev => match ev with HttpCall r => Some r | _ => None end) t.

(** The operations on the persisted token storage in a trace. *)
Definition is_token_storage_event (ev : Event) : bool :=
  match ev with
  | TokenFileExists | TokenFileRead | TokenFileWrite _ => true
  | _ => false
  end.

Definition token_storage_events (t : list Event) : list Event :=
  List.filter is_token_storage_event t.

End Runtime.

Export Runtime.

(* ===================================================================== *)
(** * Authenticator ([auth.py]) *)
(* ===================================================================== *)

Module Auth.
Section WithEnv.
Variable env : Env.

(** [Credentials.expired]: false without an expiry, otherwise whether the
    clock has reached the expiry minus the library's refresh threshold. *)
Definition expired (c : Credentials) : bool :=
  match expiry c with
  | None => false
  | Some t => t - REFRESH_THRESHOLD env <=? now env
  end.

(** [Credentials.valid]: a token is present and it has not expired. *)
Definition valid (c : Credentials) : bool :=
  match token c with
  | None => false
  | Some _ => negb (expired c)
  end.

Definition truthy_opt_str (s : option string) : bool :=
  match s with
  | None => false
  | Some s => truthy_str s
  end.

(** [f"{x}"] for an attribute that may be [None]. *)
Definition fmt_opt_str (s : option string) : string :=
  match s with
  | None => "None"
  | Some s => s
  end.

Definition os_path_exists_TOKEN_PATH : M bool :=
  emit TokenFileExists;;
  w ← get_world;
  mret (bool_decide (is_Some (token_file w))).

(** [Credentials.from_authorized_user_file(TOKEN_PATH, SCOPES)]. *)
Definition from_authorized_user_file : M Credentials :=
  emit TokenFileRead;;
  w ← get_world;
  match token_file w with
  | Some (Ok c) => mret c
  | Some (Raise e) => raise e
  | None => raise (new CollaboratorError ("No such file: " ++ TOKEN_PATH env))
  end.

(** [creds.refresh(Request())]: the object is updated in place, so the
    refreshed credentials stand for [creds] afterwards. *)
Definition refresh (creds : Credentials) : M Credentials :=
  emit (OAuthRefresh creds);;
  match oauth_refresh env creds with
  | Ok c => mret c
  | Raise e => raise e
  end.

Definition _get_new_credentials : M Credentials :=
  emit CredentialsFileExists;;
  if negb (credentials_file_exists env) then
    raise (new GmailCredentialsError
             ("Credentials file missing: " ++ CREDENTIALS_PATH env))
  else
    try_except
      (emit OAuthFlow;;
       match oauth_flow env with
       | Ok c => mret c
       | Raise e => raise e
       end)
      (fun e =>
         if isinstance e Exception then
           raise (new GmailCredentialsError ("OAuth flow failed: " ++ str_exn e))
         else raise e).

(** The write is attempted inside [try]; a failure is logged and dropped,
    whatever it has done to the file. *)
Definition _save_token (credentials : Credentials) : M unit :=
  emit (TokenFileWrite credentials);;
  match token_file_write env credentials with
  | Some remains => set_token_file (Some remains)
  | None => mret tt
  end.

(** Lines 41-56 of [get_credentials]: what runs when there is no valid
    cached credential. *)
Definition get_credentials_uncached : M Credentials :=
  token_exists ← os_path_exists_TOKEN_PATH;
  creds ← (if token_exists : bool
           then c ← from_authorized_user_file; mret (Some c)
           else mret None);
  creds ← (match creds with
           | Some c =>
               (* creds is truthy *)
               if valid c then mret c else
               c' ← (if expired c && truthy_opt_str (refresh_token c) then
                       try_except (refresh c)
                         (fun e =>
                            if isinstance e Exception then
                              raise (new GmailTokenError
                                       ("Failed to refresh token: " ++ str_exn e))
                            else raise e)
                     else _get_new_credentials);
               _save_token c';;
               mret c'
           | None =>
               c' ← _get_new_credentials;
               _save_token c';;
               mret c'
           end);
  set__credentials (Some creds);;
  mret creds.

Definition get_credentials : M Credentials :=
  w ← get_world;
  match _credentials w with
  | Some cached =>
      if valid cached then mret cached else get_credentials_uncached
  | None => get_credentials_uncached
  end.

Definition get_auth_headers : M (gmap string string) :=
  credentials ← get_credentials;
  mret (<["Authorization" := "Bearer " ++ fmt_opt_str (token credentials)]>
        (<["Content-Type" := "application/json"]> ∅)).

End WithEnv.
End Auth.

(* ===================================================================== *)
(** * HTTP client ([client.py]) *)
(* ===================================================================== *)

Module Client.
Section WithEnv.
Variable env : Env.
Variable base_url : string.

Definition fmt_opt_int (z : option Z) : string :=
  match z with
  | None => "None"
  | Some z => str_int z
  end.

Definition _get_client (proxy : bool) : M AsyncClient :=
  w ← get_world;
  match _client w with
  | None =>
      headers ← Auth.get_auth_headers env;
      let proxies :=
        if proxy then
          match HTTP_PROXY env with
          | Some proxy_url =>
              if truthy_str proxy_url then
                Some (<["http://" := proxy_url]> (<["https://" := proxy_url]> ∅))
              else None
          | None => None
          end
        else None in
      let client := {| client_headers := headers; client_proxies := proxies |} in
      emit (ClientCreated client);;
      set__client (Some client);;
      mret client
  | Some client => mret client
  end.

(** One call on the [httpx.AsyncClient]: the request goes out and the
    transport answers, or fails with [httpx.RequestError]; or the client
    raises something else. *)
Definition send (r : Request) : M Response :=
  w ← get_world;
  emit (HttpCall r);;
  match transport env (trace w) r with
  | Responded resp => mret resp
  | TransportFailed url msg =>
      raise (mk_exn HttpxRequestError msg None None (Some url))
  | CallRaised e => raise e
  end.

(** [response.raise_for_status()]: anything but a 2xx status raises
    [httpx.HTTPStatusError], which keeps the request and the response. *)
Definition raise_for_status (resp : Response) : M unit :=
  if (200 <=? resp_status resp) && (resp_status resp <=? 299) then mret tt
  else raise (mk_exn HTTPStatusError "HTTP status error"
                (Some (resp_status resp)) (Some (resp_text resp))
                (Some (resp_url resp))).

(** [response.json()]. *)
Definition response_json (resp : Response) : M Json :=
  match resp_json resp with
  | Some j => mret j
  | None => raise (new JSONDecodeError "Expecting value")
  end.

Definition update_headers (request_headers : gmap string string)
           (headers : option (gmap string string)) : gmap string string :=
  match headers with
  | Some h => if bool_decide (h = ∅) then request_headers else h ∪ request_headers
  | None => request_headers
  end.

Definition request (method endpoint : string)
           (params : option (gmap string Json)) (data : option Json)
           (headers : option (gmap string string)) : M Json :=
  client ← _get_client false;
  auth_headers ← Auth.get_auth_headers env;
  let request_headers := update_headers auth_headers headers in
  let url := base_url ++ "/" ++ endpoint in
  try_except
    (response ←
       (if String.eqb method "GET" then
          send {| req_method := "GET"; req_url := url;
                  req_headers := request_headers;
                  req_params := params; req_json := None |}
        else if String.eqb method "POST" then
          send {| req_method := "POST"; req_url := url;
                  req_headers := request_headers;
                  req_params := None; req_json := data |}
        else if String.eqb method "PUT" then
          send {| req_method := "PUT"; req_url := url;
                  req_headers := request_headers;
                  req_params := None; req_json := data |}
        else if String.eqb method "DELETE" then
          send {| req_method := "DELETE"; req_url := url;
                  req_headers := request_headers;
                  req_params := None; req_json := None |}
        else
          raise (new ValueError ("Unsupported HTTP method: " ++ method)));
     raise_for_status response;;
     response_json response)
    (fun exc =>
       if isinstance exc HTTPStatusError then
         let error_msg :=
           "HTTP error for " ++ Auth.fmt_opt_str (request_url exc) ++ " - "
           ++ fmt_opt_int (status_code exc) ++ " - "
           ++ Auth.fmt_opt_str (response exc) in
         raise (mk_exn GmailAPIError error_msg
                  (status_code exc) (response exc) None)
       else if isinstance exc HttpxRequestError then
         let error_msg :=
           "Request error for " ++ Auth.fmt_opt_str (request_url exc) ++ ": "
           ++ str_exn exc in
         raise (new GmailRequestError error_msg)
       else raise exc).

Definition get (endpoint : string) (params : option (gmap string Json))
           (headers : option (gmap string string)) : M Json :=
  request "GET" endpoint params None headers.

Definition post (endpoint : string) (data : Json)
           (headers : option (gmap string string)) : M Json :=
  request "POST" endpoint None (Some data) headers.

Definition put (endpoint : string) (data : Json)
           (headers : option (gmap string string)) : M Json :=
  request "PUT" endpoint None (Some data) headers.

Definition delete (endpoint : string)
           (headers : option (gmap string string)) : M unit :=
  request "DELETE" endpoint None None headers;;
  mret tt.

(** [close]: a client that exists is closed, then dropped; when [aclose]
    raises, the assignment that drops it is not reached. *)
Definition close : M unit :=
  w ← get_world;
  match _client w with
  | Some client =>
      emit (ClientClosed client);;
      match aclose env client with
      | Some e => raise e
      | None => set__client None
      end
  | None => mret tt
  end.

End WithEnv.
End Client.

(* ===================================================================== *)
(** * Resource handlers ([resources/base.py] and its subclasses) *)
(* ===================================================================== *)

Module Resources.

(** The class of [self]; it decides which [get_all] and [get_by_id] a call
    through [self] reaches. *)
Inductive ResourceClass : Type :=
| BaseGmailResource
| GmailMessages
| GmailDrafts
| GmailThreads.

(** Argument values at a dynamically dispatched call. *)
Inductive pyval : Type :=
| PyNone
| PyStr (s : string)
| PyBool (b : bool)
| PyParams (d : gmap string Json)
| PyHeaders (d : gmap string string).

(** [def get_all(self, endpoint, list_key, params=None, headers=None)]. *)
Definition base_get_all_signature : list (string * option pyval) :=
  [("endpoint", None); ("list_key", None);
   ("params", Some PyNone); ("headers", Some PyNone)].

(** [def get_all(self, params=None, headers=None, details=False)], the
    signature in all three subclasses. *)
Definition sub_get_all_signature : list (string * option pyval) :=
  [("params", Some PyNone); ("headers", Some PyNone);
   ("details", Some (PyBool false))].

Definition get_all_signature (self : ResourceClass) : list (string * option pyval) :=
  match self with
  | BaseGmailResource => base_get_all_signature
  | GmailMessages | GmailDrafts | GmailThreads => sub_get_all_signature
  end.

Section WithEnv.
Variable env : Env.
Variable config : Config.GmailConfig.
(** [self.client.base_url]. *)
Variable base_url : string.

Definition of_opt_params (p : option (gmap string Json)) : pyval :=
  match p with Some d => PyParams d | None => PyNone end.

Definition of_opt_headers (h : option (gmap string string)) : pyval :=
  match h with Some d => PyHeaders d | None => PyNone end.

(** Reading a bound argument back at the type the body uses it at. *)
Definition as_str (fname name : string) (bound : list (string * pyval)) : M string :=
  match lookup_arg name bound with
  | Some (PyStr s) => mret s
  | _ => raise (new TypeError (fname ++ "(): bad value for '" ++ name ++ "'"))
  end.

Definition as_opt_params (fname name : string) (bound : list (string * pyval))
  : M (option (gmap string Json)) :=
  match lookup_arg name bound with
  | Some PyNone => mret None
  | Some (PyParams d) => mret (Some d)
  | _ => raise (new TypeError (fname ++ "(): bad value for '" ++ name ++ "'"))
  end.

Definition as_opt_headers (fname name : string) (bound : list (string * pyval))
  : M (option (gmap string string)) :=
  match lookup_arg name bound with
  | Some PyNone => mret None
  | Some (PyHeaders d) => mret (Some d)
  | _ => raise (new TypeError (fname ++ "(): bad value for '" ++ name ++ "'"))
  end.

Definition as_bool (fname name : string) (bound : list (string * pyval)) : M bool :=
  match lookup_arg name bound with
  | Some (PyBool b) => mret b
  | _ => raise (new TypeError (fname ++ "(): bad value for '" ++ name ++ "'"))
  end.

(** [except Exception as e: raise GmailResourceError(msg(e))]. *)
Definition except_Exception {A} (body : M A) (msg : exn -> string) : M A :=
  try_except body
    (fun e =>
       if isinstance e Exception then raise (new GmailResourceError (msg e))
       else raise e).

(** [response.get(key, default)] on a decoded body: only a dictionary has
    the method. *)
Definition json_get (j : Json) (key : string) (default : Json) : M Json :=
  match j with
  | JObj m => mret (dict_get m key default)
  | _ => raise (new AttributeError "object has no attribute 'get'")
  end.

(** ** [BaseGmailResource] *)

Definition base_get_all (endpoint list_key : string)
           (params : option (gmap string Json))
           (headers : option (gmap string string)) : M Json :=
  except_Exception
    (response ← Client.get env base_url endpoint params headers;
     json_get response list_key (JArr []))
    (fun e => "Failed to get " ++ endpoint ++ ": " ++ str_exn e).

Definition base_get_by_id (endpoint resource_id : string)
           (params : option (gmap string Json))
           (headers : option (gmap string string)) : M Json :=
  except_Exception
    (let full_endpoint := endpoint ++ "/" ++ resource_id in
     Client.get env base_url full_endpoint params headers)
    (fun e => "Failed to get " ++ endpoint ++ "/" ++ resource_id ++ ": " ++ str_exn e).

Definition base_create (endpoint : string) (data : Json)
           (headers : option (gmap string string)) : M Json :=
  except_Exception
    (Client.post env base_url endpoint data headers)
    (fun e => "Failed to create " ++ endpoint ++ ": " ++ str_exn e).

Definition base_update (endpoint resource_id : string) (data : Json)
           (headers : option (gmap string string)) : M Json :=
  except_Exception
    (let full_endpoint := endpoint ++ "/" ++ resource_id in
     Client.put env base_url full_endpoint data headers)
    (fun e => "Failed to update " ++ endpoint ++ "/" ++ resource_id ++ ": " ++ str_exn e).

Definition base_delete (endpoint resource_id : string)
           (headers : option (gmap string string)) : M unit :=
  except_Exception
    (let full_endpoint :=
       endpoint ++ "/" ++ resource_id ++ "/" ++ Config.TRASH_SUFFIX config in
     Client.delete env base_url full_endpoint headers)
    (fun e => "Failed to delete " ++ endpoint ++ "/" ++ resource_id ++ ": " ++ str_exn e).

Definition base_undelete (endpoint resource_id : string)
           (headers : option (gmap string string)) : M unit :=
  except_Exception
    (let full_endpoint :=
       endpoint ++ "/" ++ resource_id ++ "/" ++ Config.UNTRASH_SUFFIX config in
     Client.post env base_url full_endpoint (JObj ∅) headers;;
     mret tt)
    (fun e => "Failed to undelete " ++ endpoint ++ "/" ++ resource_id ++ ": " ++ str_exn e).

(** ** The subclasses' [get_by_id]

    [GmailMessages], [GmailDrafts] and [GmailThreads] differ in the endpoint
    only. *)
Definition endpoint_of (self : ResourceClass) : string :=
  match self with
  | BaseGmailResource => ""
  | GmailMessages => Config.MESSAGES_ENDPOINT config
  | GmailDrafts => Config.DRAFTS_ENDPOINT config
  | GmailThreads => Config.THREADS_ENDPOINT config
  end.

Definition list_key_of (self : ResourceClass) : string :=
  match self with
  | BaseGmailResource => ""
  | GmailMessages => "messages"
  | GmailDrafts => "drafts"
  | GmailThreads => "threads"
  end.

Definition get_by_id (self : ResourceClass) (resource_id : string)
           (headers : option (gmap string string)) : M Json :=
  let params := <["format" := JStr (Config.FULL_FORMAT config)]> ∅ in
  base_get_by_id (endpoint_of self) resource_id (Some params) headers.

(** ** [get_all_with_details] and the subclasses' [get_all] *)

(** [f"{resource_id}"] for the value of [resource.get("id")]. *)
Definition str_json (j : Json) : string :=
  match j with
  | JNull => "None"
  | JBool true => "True"
  | JBool false => "False"
  | JNum z => str_int z
  | JStr s => s
  | JArr _ | JObj _ => repr_container env j
  end.

(** The list comprehension evaluates [resource.get("id")] for every element
    before any task runs. *)
Fixpoint detail_ids (resources : list Json) : M (list Json) :=
  match resources with
  | [] => mret []
  | resource :: rest =>
      rid ← json_get resource "id" JNull;
      rids ← detail_ids rest;
      mret (rid :: rids)
  end.

(** The tasks, each run to completion in list order; the outcome of each is
    kept, as a task keeps it, and the effects of all of them persist. *)
Fixpoint run_tasks {A} (tasks : list (M A)) : M (list (result A)) :=
  match tasks with
  | [] => mret []
  | t :: rest =>
      r ← (fun w => let '(r, w') := t w in (Ok r, w'));
      rs ← run_tasks rest;
      mret (r :: rs)
  end.

(** [asyncio.gather]: the results in the order of the tasks, or the first
    exception among them. *)
Fixpoint gather_results {A} (outcomes : list (result A)) : result (list A) :=
  match outcomes with
  | [] => Ok []
  | Raise e :: _ => Raise e
  | Ok a :: rest =>
      match gather_results rest with
      | Ok l => Ok (a :: l)
      | Raise e => Raise e
      end
  end.

Definition gather {A} (tasks : list (M A)) : M (list A) :=
  outcomes ← run_tasks tasks;
  match gather_results outcomes with
  | Ok l => mret l
  | Raise e => raise e
  end.

(** Iterating over the value found under the list key. *)
Definition iter_json (j : Json) : M (list Json) :=
  match j with
  | JArr l => mret l
  | JStr s => mret (map (fun c => JStr (String c EmptyString)) (list_ascii_of_string s))
  | JObj m => mret (map (fun kv => JStr kv.1) (map_to_list m))
  | _ => raise (new TypeError "object is not iterable")
  end.

(** [BaseGmailResource.get_all_with_details].  [self_get_all] is the bound
    method [self.get_all]; the call passes [endpoint] and [list_key]
    positionally and [params], [headers] by keyword. *)
Definition get_all_with_details
           (self_get_all : list pyval -> list (string * pyval) -> M Json)
           (endpoint list_key : string)
           (get_detail_func : string -> option (gmap string string) -> M Json)
           (params : option (gmap string Json))
           (headers : option (gmap string string)) : M Json :=
  resources ← self_get_all [PyStr endpoint; PyStr list_key]
                 [("params", of_opt_params params);
                  ("headers", of_opt_headers headers)];
  if negb (truthy_json resources) then mret (JArr [])
  else
    items ← iter_json resources;
    rids ← detail_ids items;
    results ← gather (map (fun rid => get_detail_func (str_json rid) headers) rids);
    mret (JArr results).

(** The body of [get_all] in [GmailMessages], [GmailDrafts] and
    [GmailThreads]. *)
Definition sub_get_all
           (self_get_all : list pyval -> list (string * pyval) -> M Json)
           (self : ResourceClass)
           (params : option (gmap string Json))
           (headers : option (gmap string string)) (details : bool) : M Json :=
  if details then
    get_all_with_details self_get_all (endpoint_of self) (list_key_of self)
      (get_by_id self) params headers
  else
    base_get_all (endpoint_of self) (list_key_of self) params headers.

(** The bound method [self.get_all]: the arguments are bound against the
    signature of the class of [self], then its body runs.  [depth] bounds the
    nesting of calls, as the interpreter's recursion limit does. *)
Fixpoint bound_get_all (depth : nat) (self : ResourceClass)
         (pos : list pyval) (kw : list (string * pyval)) : M Json :=
  match depth with
  | O => raise (new RecursionError "maximum recursion depth exceeded")
  | S depth' =>
      match bind_arguments "get_all" (get_all_signature self) pos kw with
      | Raise e => raise e
      | Ok bound =>
          match self with
          | BaseGmailResource =>
              endpoint ← as_str "get_all" "endpoint" bound;
              list_key ← as_str "get_all" "list_key" bound;
              params ← as_opt_params "get_all" "params" bound;
              headers ← as_opt_headers "get_all" "headers" bound;
              base_get_all endpoint list_key params headers
          | GmailMessages | GmailDrafts | GmailThreads =>
              params ← as_opt_params "get_all" "params" bound;
              headers ← as_opt_headers "get_all" "headers" bound;
              details ← as_bool "get_all" "details" bound;
              sub_get_all (bound_get_all depth' self) self params headers details
          end
      end
  end.

Definition recursion_limit : nat := 1000.

(** ** The public operations of the three handlers *)

(** [GmailMessages.get_all], [GmailDrafts.get_all], [GmailThreads.get_all]. *)
Definition get_all (self : ResourceClass)
           (params : option (gmap string Json))
           (headers : option (gmap string string)) (details : bool) : M Json :=
  sub_get_all (bound_get_all recursion_limit self) self params headers details.

(** [delete] of the three handlers. *)
Definition delete (self : ResourceClass) (resource_id : string)
           (headers : option (gmap string string)) : M unit :=
  base_delete (endpoint_of self) resource_id headers.

(** [GmailThreads.undelete]. *)
Definition threads_undelete (thread_id : string)
           (headers : option (gmap string string)) : M unit :=
  base_undelete (Config.THREADS_ENDPOINT config) thread_id headers.

(** [GmailMessages.send]: [self.create] is the inherited
    [BaseGmailResource.create]. *)
Definition messages_send (message : Json)
           (headers : option (gmap string string)) : M Json :=
  base_create (Config.SEND_ENDPOINT config) message headers.

Definition messages_update (message_id : string) (data : Json)
           (headers : option (gmap string string)) : M Json :=
  base_update (Config.MESSAGES_ENDPOINT config) message_id data headers.

Definition drafts_create (message : Json)
           (headers : option (gmap string string)) : M Json :=
  base_create (Config.DRAFTS_ENDPOINT config)
    (JObj (<["message" := message]> ∅)) headers.

Definition drafts_update (draft_id : string) (message : Json)
           (headers : option (gmap string string)) : M Json :=
  base_update (Config.DRAFTS_ENDPOINT config) draft_id
    (JObj (<["message" := message]> ∅)) headers.

End WithEnv.
End Resources.

(* ===================================================================== *)
(** * Standard library: [base64] and [binascii] *)
(* ===================================================================== *)

(** Byte strings and text are both carried by [string]: a [bytes] object is
    the string of its bytes, a [str] the string of its code points (all below
    256 in this model, and below 128 wherever a statement says ASCII). *)

Module Base64.

Local Open Scope N_scope.

Definition is_ascii (c : ascii) : bool := N_of_ascii c <? 128.

Fixpoint all_ascii (s : string) : bool :=
  match s with
  | EmptyString => true
  | String c rest => is_ascii c && all_ascii rest
  end.

(** [bytes.decode("ASCII")]. *)
Definition decode_ASCII (b : string) : result string :=
  if all_ascii b then Ok b
  else Raise (new UnicodeDecodeError "'ascii' codec can't decode byte").

(** [str.encode("ASCII")]; the failure is a [UnicodeEncodeError], a
    [ValueError] like its decoding sibling. *)
Definition encode_ASCII (s : string) : result string :=
  if all_ascii s then Ok s
  else Raise (new ValueError "'ascii' codec can't encode character").

(** [table_b2a_base64]: the character of a 6-bit value. *)
Definition b2a (n : N) : ascii :=
  if n <? 26 then ascii_of_N (n + 65)            (* A-Z *)
  else if n <? 52 then ascii_of_N (n - 26 + 97)  (* a-z *)
  else if n <? 62 then ascii_of_N (n - 52 + 48)  (* 0-9 *)
  else if n =? 62 then "+"%char
  else "/"%char.

(** [table_a2b_base64]: the 6-bit value of a character of the alphabet. *)
Definition a2b (c : ascii) : option N :=
  let n := N_of_ascii c in
  if (65 <=? n) && (n <=? 90) then Some (n - 65)
  else if (97 <=? n) && (n <=? 122) then Some (n - 97 + 26)
  else if (48 <=? n) && (n <=? 57) then Some (n - 48 + 52)
  else if n =? 43 then Some 62
  else if n =? 47 then Some 63
  else None.

(** [binascii.b2a_base64(s, newline=False)], three bytes at a time. *)
Fixpoint b64encode (s : string) : string :=
  match s with
  | EmptyString => EmptyString
  | String a EmptyString =>
      let a := N_of_ascii a in
      String (b2a (N.shiftr a 2))
        (String (b2a (N.shiftl (N.land a 3) 4)) "==")
  | String a (String b EmptyString) =>
      let a := N_of_ascii a in
      let b := N_of_ascii b in
      String (b2a (N.shiftr a 2))
        (String (b2a (N.lor (N.shiftl (N.land a 3) 4) (N.shiftr b 4)))
           (String (b2a (N.shiftl (N.land b 15) 2)) "="))
  | String a (String b (String c rest)) =>
      let a := N_of_ascii a in
      let b := N_of_ascii b in
      let c := N_of_ascii c in
      String (b2a (N.shiftr a 2))
        (String (b2a (N.lor (N.shiftl (N.land a 3) 4) (N.shiftr b 4)))
           (String (b2a (N.lor (N.shiftl (N.land b 15) 2) (N.shiftr c 6)))
              (String (b2a (N.land c 63)) (b64encode rest))))
  end.

Definition emit_byte (byte : N) (rest : result string) : result string :=
  match rest with
  | Ok s => Ok (String (ascii_of_N byte) s)
  | Raise e => Raise e
  end.

(** [binascii.a2b_base64(s, strict_mode=False)]: characters outside the
    alphabet are skipped, a complete pad sequence ends the input, and input
    that ends inside a quad is an error. *)
Fixpoint a2b_base64 (s : string) (quad_pos : N) (leftchar : N) (pads : N)
  : result string :=
  match s with
  | EmptyString =>
      if quad_pos =? 0 then Ok EmptyString
      else if quad_pos =? 1 then
        Raise (new BinasciiError
                 "Invalid base64-encoded string: number of data characters cannot be 1 more than a multiple of 4")
      else Raise (new BinasciiError "Incorrect padding")
  | String this_ch rest =>
      if Ascii.eqb this_ch "="%char then
        if (2 <=? quad_pos) && (4 <=? quad_pos + (pads + 1)) then Ok EmptyString
        else a2b_base64 rest quad_pos leftchar
               (if 2 <=? quad_pos then pads + 1 else pads)
      else
        match a2b this_ch with
        | None => a2b_base64 rest quad_pos leftchar pads
        | Some this_ch =>
            if quad_pos =? 0 then
              a2b_base64 rest 1 this_ch 0
            else if quad_pos =? 1 then
              emit_byte (N.lor (N.shiftl leftchar 2) (N.shiftr this_ch 4))
                (a2b_base64 rest 2 (N.land this_ch 15) 0)
            else if quad_pos =? 2 then
              emit_byte (N.lor (N.shiftl leftchar 4) (N.shiftr this_ch 2))
                (a2b_base64 rest 3 (N.land this_ch 3) 0)
            else
              emit_byte (N.lor (N.shiftl leftchar 6) this_ch)
                (a2b_base64 rest 0 0 0)
        end
  end.

Definition b64decode (s : string) : result string := a2b_base64 s 0 0 0.

(** [bytes.translate] with a table that maps one byte to another, and
    [str.replace] with one-character arguments. *)
Fixpoint replace_char (old new : ascii) (s : string) : string :=
  match s with
  | EmptyString => EmptyString
  | String c rest =>
      String (if Ascii.eqb c old then new else c) (replace_char old new rest)
  end.

(** [base64.urlsafe_b64encode]. *)
Definition urlsafe_b64encode (s : string) : string :=
  replace_char "/" "_" (replace_char "+" "-" (b64encode s)).

(** [base64.urlsafe_b64decode]. *)
Definition urlsafe_b64decode (s : string) : result string :=
  b64decode (replace_char "_" "/" (replace_char "-" "+" s)).

End Base64.

(* ===================================================================== *)
(** * Standard library: [email] *)
(* ===================================================================== *)

(** The objects [create_message] builds ([MIMEMultipart], [MIMEText]), the
    generator behind [as_bytes], and the feed parser behind
    [email.message_from_string], all under the default [compat32] policy.

    Scope of the model.  Header values are rendered as the library renders
    a printable ASCII value that [fits] on its line, and as it folds a
    [type; parameter] value that does not; the folding of longer free text
    and the RFC 2047 encoding of non-ASCII values are not modelled, and the
    statements below assume [plain_header] of the values they are about.  The
    parser keeps headers and payloads; defects, preamble, epilogue and the
    envelope line are not recorded, and RFC 2231 extended parameters are not
    decoded. *)

Module Email.

Definition LF : ascii := "010"%char.
Definition CR : ascii := "013"%char.
Definition DQUOTE : ascii := "034"%char.
Definition BACKSLASH : ascii := "092"%char.
Definition NL : string := String LF EmptyString.

Definition quoted (s : string) : string := String DQUOTE (s ++ String DQUOTE "").

(** ** Strings *)

(** [str.isspace] of one character. *)
Definition is_space (c : ascii) : bool :=
  let n := N_of_ascii c in
  ((9 <=? n) && (n <=? 13) || (28 <=? n) && (n <=? 32)
   || (n =? 133) || (n =? 160))%N.

Definition is_blank (c : ascii) : bool :=
  Ascii.eqb c " " || Ascii.eqb c "009".

Definition is_newline (c : ascii) : bool := Ascii.eqb c LF || Ascii.eqb c CR.

(** [str.lower] of one character. *)
Definition lower_char (c : ascii) : ascii :=
  let n := N_of_ascii c in
  if ((65 <=? n) && (n <=? 90)
      || (192 <=? n) && (n <=? 222) && negb (n =? 215))%N
  then ascii_of_N (n + 32) else c.

Fixpoint lower (s : string) : string :=
  match s with
  | EmptyString => EmptyString
  | String c rest => String (lower_char c) (lower rest)
  end.

Fixpoint lstrip_by (p : ascii -> bool) (s : string) : string :=
  match s with
  | EmptyString => EmptyString
  | String c rest => if p c then lstrip_by p rest else s
  end.

Fixpoint rstrip_by (p : ascii -> bool) (s : string) : string :=
  match s with
  | EmptyString => EmptyString
  | String c rest =>
      match rstrip_by p rest with
      | EmptyString => if p c then EmptyString else String c EmptyString
      | r => String c r
      end
  end.

(** [s.strip()]. *)
Definition strip (s : string) : string := lstrip_by is_space (rstrip_by is_space s).

(** [s.startswith(p)], with the remainder. *)
Fixpoint strip_prefix (p s : string) : option string :=
  match p, s with
  | EmptyString, _ => Some s
  | String a p', String b s' => if Ascii.eqb a b then strip_prefix p' s' else None
  | String _ _, EmptyString => None
  end.

Definition startswith (s p : string) : bool :=
  match strip_prefix p s with Some _ => true | None => false end.

(** [s.partition(c)]: the text before the first [c], and the text after it
    when there is one. *)
Fixpoint partition (c : ascii) (s : string) : string * option string :=
  match s with
  | EmptyString => (EmptyString, None)
  | String a rest =>
      if Ascii.eqb a c then (EmptyString, Some rest)
      else let '(before, after) := partition c rest in (String a before, after)
  end.

Fixpoint count_char (c : ascii) (s : string) : nat :=
  match s with
  | EmptyString => O
  | String a rest => (if Ascii.eqb a c then 1 else 0) + count_char c rest
  end.

Fixpoint concat_strings (l : list string) : string :=
  match l with
  | [] => EmptyString
  | s :: rest => s ++ concat_strings rest
  end.

(** Removing one line ending at the end of [s] ([NLCRE_eol]). *)
Fixpoint chomp (s : string) : string :=
  match s with
  | EmptyString => EmptyString
  | String c rest =>
      match rest with
      | EmptyString => if is_newline c then EmptyString else s
      | String d EmptyString =>
          if Ascii.eqb c CR && Ascii.eqb d LF then EmptyString
          else String c (chomp rest)
      | _ => String c (chomp rest)
      end
  end.

(** The lines of [s] with their endings kept; a line ends at LF, CR LF or a
    lone CR (what a [StringIO] opened with [newline=''] yields). *)
Fixpoint split_lines (s : string) : list string :=
  match s with
  | EmptyString => []
  | String c rest =>
      if Ascii.eqb c LF then String LF EmptyString :: split_lines rest
      else if Ascii.eqb c CR then
        match rest with
        | String d rest' =>
            if Ascii.eqb d LF
            then String CR (String LF EmptyString) :: split_lines rest'
            else String CR EmptyString :: split_lines rest
        | EmptyString => [String CR EmptyString]
        end
      else
        match split_lines rest with
        | [] => [String c EmptyString]
        | line :: lines => String c line :: lines
        end
  end.

(** The lines of [s] at LF only, endings dropped (the lines a regular
    expression in [MULTILINE] mode sees). *)
Fixpoint lines_LF (s : string) : list string :=
  match s with
  | EmptyString => [EmptyString]
  | String c rest =>
      if Ascii.eqb c LF then EmptyString :: lines_LF rest
      else
        match lines_LF rest with
        | [] => [String c EmptyString]
        | line :: lines => String c line :: lines
        end
  end.

(** ** Objects under construction *)

(** A non-multipart message object: its headers in order and its text
    payload. *)
Record Part : Type := {
  part_headers : list (string * string);
  part_payload : string
}.

(** A [MIMEMultipart]: the subtype given to the constructor, the headers
    set after construction, and the attached parts.  [Content-Type] and
    [MIME-Version], which the constructor sets first, are rendered from the
    subtype. *)
Record MIMEMultipart : Type := {
  subtype : string;
  extra_headers : list (string * string);
  parts : list Part
}.

Definition new_MIMEMultipart (_subtype : string) : MIMEMultipart :=
  {| subtype := _subtype; extra_headers := []; parts := [] |}.

(** [message[name] = value]. *)
Definition set_item (m : MIMEMultipart) (name value : string) : MIMEMultipart :=
  {| subtype := subtype m;
     extra_headers := (extra_headers m ++ [(name, value)])%list;
     parts := parts m |}.

(** [message.attach(part)]. *)
Definition attach (m : MIMEMultipart) (part : Part) : MIMEMultipart :=
  {| subtype := subtype m;
     extra_headers := extra_headers m;
     parts := (parts m ++ [part])%list |}.

(** UTF-8 of a string of code points below 256. *)
Fixpoint encode_utf8 (s : string) : string :=
  match s with
  | EmptyString => EmptyString
  | String c rest =>
      let n := N_of_ascii c in
      if (n <? 128)%N then String c (encode_utf8 rest)
      else String (ascii_of_N (N.lor 192 (N.shiftr n 6)))
             (String (ascii_of_N (N.lor 128 (N.land n 63))) (encode_utf8 rest))
  end.

Fixpoint take (n : nat) (s : string) : string :=
  match n, s with
  | S n', String c rest => String c (take n' rest)
  | _, _ => EmptyString
  end.

Fixpoint drop (n : nat) (s : string) : string :=
  match n, s with
  | S n', String _ rest => drop n' rest
  | _, _ => s
  end.

(** [email.base64mime.body_encode]: base64 in lines of 76 characters. *)
Fixpoint body_encode (fuel : nat) (s : string) : string :=
  match fuel, s with
  | _, EmptyString => EmptyString
  | O, _ => EmptyString
  | S fuel', _ =>
      Base64.b64encode (take 57 s) ++ NL ++ body_encode fuel' (drop 57 s)
  end.

(** [MIMEText(_text, _subtype)]: us-ascii and 7bit when the text is ASCII,
    utf-8 and base64 otherwise. *)
Definition MIMEText (_text _subtype : string) : Part :=
  if Base64.all_ascii _text then
    {| part_headers :=
         [("Content-Type", "text/" ++ _subtype ++ "; charset=" ++ quoted "us-ascii");
          ("MIME-Version", "1.0");
          ("Content-Transfer-Encoding", "7bit")];
       part_payload := _text |}
  else
    {| part_headers :=
         [("Content-Type", "text/" ++ _subtype ++ "; charset=" ++ quoted "utf-8");
          ("MIME-Version", "1.0");
          ("Content-Transfer-Encoding", "base64")];
       part_payload :=
         let b := encode_utf8 _text in body_encode (String.length b) b |}.

(** ** Generator *)

(** [Generator._write_lines]: every line ending becomes [NL]. *)
Fixpoint write_lines (s : string) : string :=
  match s with
  | EmptyString => EmptyString
  | String c rest =>
      if Ascii.eqb c CR then
        match rest with
        | String d rest' =>
            if Ascii.eqb d LF then String LF (write_lines rest')
            else String LF (write_lines rest)
        | EmptyString => NL
        end
      else String c (write_lines rest)
  end.

Definition is_printable (c : ascii) : bool :=
  let n := N_of_ascii c in ((32 <=? n) && (n <=? 126))%N.

Fixpoint all_printable (s : string) : bool :=
  match s with
  | EmptyString => true
  | String c rest => is_printable c && all_printable rest
  end.

(** The header [name: value] fits on a line of 78 characters. *)
Definition fits (name value : string) : bool :=
  (String.length name + 2 + String.length value <=? 78)%nat.

(** The values the model renders as the library does. *)
Definition plain_header (name value : string) : bool :=
  all_printable value && fits name value.

(** Breaking after the first ["; "]. *)
Fixpoint break_after_semicolon (s : string) : string :=
  match s with
  | EmptyString => EmptyString
  | String c rest =>
      match rest with
      | String d rest' =>
          if Ascii.eqb c ";" && Ascii.eqb d " "
          then String ";" (NL ++ String " " rest')
          else String c (break_after_semicolon rest)
      | EmptyString => s
      end
  end.

(** [Header.encode] of a value: as it is when it fits, broken before the
    parameter otherwise. *)
Definition Header_encode (name value : string) : string :=
  if fits name value then value else break_after_semicolon value.

Definition write_headers (headers : list (string * string)) : string :=
  concat_strings
    (map (fun h => h.1 ++ ": " ++ Header_encode h.1 h.2 ++ NL) headers).

(** A non-multipart message flattened: headers, an empty line, the body. *)
Definition flatten_part (p : Part) : string :=
  write_headers (part_headers p) ++ NL ++ write_lines (part_payload p).

(** ['%019d' % token]. *)
Definition fmt_token (token : N) : string :=
  let digits := NilZero.string_of_uint (N.to_uint token) in
  concat_strings (repeat "0" (19 - String.length digits)) ++ digits.

(** The search [^--b(--)?$] over the lines of [text]. *)
Definition boundary_occurs (b text : string) : bool :=
  existsb (fun line => String.eqb line ("--" ++ b) || String.eqb line ("--" ++ b ++ "--"))
          (lines_LF text).

Definition str_nat (n : nat) : string := NilZero.string_of_uint (Nat.to_uint n).

(** The loop of [Generator._make_boundary]: try [boundary], then
    [boundary.0], [boundary.1], ... until one does not occur in [text].
    Distinct candidates need distinct lines of [text], so [fuel] beyond the
    length of [text] is never used up. *)
Fixpoint _make_boundary_loop (fuel : nat) (boundary b : string) (counter : nat)
         (text : string) : string :=
  if boundary_occurs b text then
    match fuel with
    | O => b
    | S fuel' =>
        _make_boundary_loop fuel' boundary (boundary ++ "." ++ str_nat counter)
          (S counter) text
    end
  else b.

(** [Generator._make_boundary(text)], with [token] the value drawn by
    [random.randrange(sys.maxsize)]. *)
Definition _make_boundary (token : N) (text : string) : string :=
  let boundary := "===============" ++ fmt_token token ++ "==" in
  _make_boundary_loop (S (String.length text)) boundary boundary 0 text.

Definition boundary_of (token : N) (m : MIMEMultipart) : string :=
  _make_boundary token (join NL (map flatten_part (parts m))).

(** [message.as_bytes()] for a multipart without preamble and epilogue. *)
Definition as_bytes (token : N) (m : MIMEMultipart) : string :=
  let msgtexts := map flatten_part (parts m) in
  let boundary := boundary_of token m in
  let headers :=
    ("Content-Type", "multipart/" ++ subtype m ++ "; boundary=" ++ quoted boundary)
      :: ("MIME-Version", "1.0") :: extra_headers m in
  write_headers headers ++ NL
  ++ "--" ++ boundary ++ NL
  ++ match msgtexts with
     | [] => EmptyString
     | first :: others =>
         first ++ concat_strings
                    (map (fun body_part => NL ++ "--" ++ boundary ++ NL ++ body_part)
                         others)
     end
  ++ NL ++ "--" ++ boundary ++ "--" ++ NL.

End Email.

(** ** Feed parser *)

Module Parser.
Import Email.

(** A parsed message: its headers in order, and a text payload or a list of
    sub-messages. *)
Inductive Message : Type :=
| Leaf (headers : list (string * string)) (payload : string)
| Node (headers : list (string * string)) (payload : list Message).

Definition headers_of (m : Message) : list (string * string) :=
  match m with
  | Leaf h _ => h
  | Node h _ => h
  end.

(** [headerRE = ^(From |[\041-\071\073-\176]*:|[\t ])]. *)
Definition is_name_char (c : ascii) : bool :=
  let n := N_of_ascii c in
  ((33 <=? n) && (n <=? 57) || (59 <=? n) && (n <=? 126))%N.

Fixpoint name_then_colon (s : string) : bool :=
  match s with
  | EmptyString => false
  | String c rest =>
      if Ascii.eqb c ":" then true
      else if is_name_char c then name_then_colon rest
      else false
  end.

Definition headerRE_match (line : string) : bool :=
  startswith line "From " || name_then_colon line
  || match line with
     | String c _ => is_blank c
     | EmptyString => false
     end.

(** [NLCRE.match(line)]: the line starts with a line ending. *)
Definition NLCRE_match (line : string) : bool :=
  match line with
  | String c _ => is_newline c
  | EmptyString => false
  end.

(** [boundaryre.match(line)] for the separator [--boundary]: [Some true]
    for the closing delimiter, [Some false] for an inner one.  After the
    separator come an optional [--], blanks, and at most one line ending. *)
Definition is_line_end (s : string) : bool :=
  String.eqb s "" || String.eqb s NL || String.eqb s (String CR "")
  || String.eqb s (String CR NL).

Definition boundary_match (separator line : string) : option bool :=
  match strip_prefix separator line with
  | None => None
  | Some rest =>
      let '(is_end, rest) :=
        match strip_prefix "--" rest with
        | Some rest' => (true, rest')
        | None => (false, rest)
        end in
      if is_line_end (lstrip_by is_blank rest) then Some is_end else None
  end.

(** The predicates pushed on the end-of-input stack. *)
Inductive eof_matcher : Type :=
| AtBoundary (separator : string)
| AtBlankLine.

Definition at_eof (m : eof_matcher) (line : string) : bool :=
  match m with
  | AtBoundary separator =>
      match boundary_match separator line with Some _ => true | None => false end
  | AtBlankLine => NLCRE_match line
  end.

(** [BufferedSubFile.readline]: [None] at the end of the input or on a line
    that a predicate of the stack matches (the line stays in place). *)
Definition readline (stack : list eof_matcher) (lines : list string)
  : option (string * list string) :=
  match lines with
  | [] => None
  | line :: rest =>
      if existsb (fun m => at_eof m line) stack then None else Some (line, rest)
  end.

(** [for line in self._input: lines.append(line)]. *)
Fixpoint read_all (stack : list eof_matcher) (lines : list string)
  : list string * list string :=
  match lines with
  | [] => ([], [])
  | line :: rest =>
      if existsb (fun m => at_eof m line) stack then ([], lines)
      else let '(taken, remaining) := read_all stack rest in (line :: taken, remaining)
  end.

(** The first loop of [_parsegen]: lines are collected while they look like
    headers; an empty line that ends them is dropped, any other line stays. *)
Fixpoint take_headers (stack : list eof_matcher) (lines : list string)
  : list string * list string :=
  match lines with
  | [] => ([], [])
  | line :: rest =>
      if existsb (fun m => at_eof m line) stack then ([], lines)
      else if headerRE_match line then
        let '(hs, remaining) := take_headers stack rest in (line :: hs, remaining)
      else if NLCRE_match line then ([], rest)
      else ([], lines)
  end.

(** [compat32.header_source_parse]. *)
Definition header_source_parse (sourcelines : list string) : string * string :=
  match sourcelines with
  | [] => (EmptyString, EmptyString)
  | first :: more =>
      let '(name, value) := partition ":" first in
      let value := match value with Some v => v | None => EmptyString end in
      (name, rstrip_by is_newline (lstrip_by is_blank value ++ concat_strings more))
  end.

(** [_parse_headers].  [lastvalue] holds the lines of the header being
    collected; the result is the headers and, when the last line is an
    envelope line, that line, which goes back to the input. *)
Fixpoint _parse_headers_loop (lineno : nat) (lastvalue : list string)
         (lines : list string) : list (string * string) * option string :=
  let flush :=
    match lastvalue with
    | [] => []
    | _ => [header_source_parse lastvalue]
    end in
  match lines with
  | [] => (flush, None)
  | line :: rest =>
      match line with
      | String c _ =>
          if is_blank c then
            match lastvalue with
            | [] => _parse_headers_loop (S lineno) [] rest
            | _ => _parse_headers_loop (S lineno) (lastvalue ++ [line])%list rest
            end
          else if startswith line "From " then
            if Nat.eqb lineno 0 then
              let '(hs, u) := _parse_headers_loop (S lineno) [] rest in
              ((flush ++ hs)%list, u)
            else
              match rest with
              | [] => (flush, Some line)
              | _ =>
                  let '(hs, u) := _parse_headers_loop (S lineno) [] rest in
                  ((flush ++ hs)%list, u)
              end
          else if Ascii.eqb c ":" then
            let '(hs, u) := _parse_headers_loop (S lineno) [] rest in
            ((flush ++ hs)%list, u)
          else
            let '(hs, u) := _parse_headers_loop (S lineno) [line] rest in
            ((flush ++ hs)%list, u)
      | EmptyString =>
          let '(hs, u) := _parse_headers_loop (S lineno) [] rest in
          ((flush ++ hs)%list, u)
      end
  end.

Definition _parse_headers (lines : list string) : list (string * string) * option string :=
  _parse_headers_loop 0 [] lines.

(** [msg.get(name)]: the value of the first header of that name, names
    compared without case. *)
Fixpoint get_header (name : string) (headers : list (string * string)) : option string :=
  match headers with
  | [] => None
  | (k, v) :: rest =>
      if String.eqb (lower k) (lower name) then Some v else get_header name rest
  end.

(** [msg.get_content_type()]. *)
Definition get_content_type (default_type : string) (headers : list (string * string))
  : string :=
  match get_header "content-type" headers with
  | None => default_type
  | Some value =>
      let ctype := lower (strip (partition ";" value).1) in
      if Nat.eqb (count_char "/" ctype) 1 then ctype else "text/plain"
  end.

Definition get_content_maintype (default_type : string)
           (headers : list (string * string)) : string :=
  (partition "/" (get_content_type default_type headers)).1.

(** [_parseparam]: the value is cut at each [;] that is not inside a quoted
    string; a quote counts unless a backslash precedes it. *)
Fixpoint _parseparam (s : string) (in_quotes after_backslash : bool) : list string :=
  match s with
  | EmptyString => [EmptyString]
  | String c rest =>
      if Ascii.eqb c ";" && negb in_quotes then
        EmptyString :: _parseparam rest false false
      else
        let in_quotes' :=
          if Ascii.eqb c DQUOTE && negb after_backslash then negb in_quotes
          else in_quotes in
        match _parseparam rest in_quotes' (Ascii.eqb c BACKSLASH) with
        | [] => [String c EmptyString]
        | p :: ps => String c p :: ps
        end
  end.

(** Replacing each two-character sequence [a b] by [new], left to right. *)
Fixpoint replace_pair (a b new : ascii) (s : string) : string :=
  match s with
  | EmptyString => EmptyString
  | String c rest =>
      match rest with
      | String d rest' =>
          if Ascii.eqb c a && Ascii.eqb d b then String new (replace_pair a b new rest')
          else String c (replace_pair a b new rest)
      | EmptyString => s
      end
  end.

Fixpoint last_char (s : string) : option ascii :=
  match s with
  | EmptyString => None
  | String c EmptyString => Some c
  | String _ rest => last_char rest
  end.

Fixpoint drop_last (s : string) : string :=
  match s with
  | EmptyString => EmptyString
  | String c EmptyString => EmptyString
  | String c rest => String c (drop_last rest)
  end.

(** [email.utils.unquote]. *)
Definition unquote (s : string) : string :=
  match s with
  | String first (String _ _ as rest) =>
      if Ascii.eqb first DQUOTE && bool_decide (last_char rest = Some DQUOTE) then
        replace_pair BACKSLASH DQUOTE DQUOTE
          (replace_pair BACKSLASH BACKSLASH BACKSLASH (drop_last rest))
      else if Ascii.eqb first "<" && bool_decide (last_char rest = Some ">"%char) then
        drop_last rest
      else s
  | _ => s
  end.

(** [msg.get_param(name)] on the [Content-Type] header: the parameters
    after the first [;], each split at its first [=], the key stripped and
    compared without case, the value stripped and unquoted. *)
Fixpoint find_param (name : string) (params : list string) : option string :=
  match params with
  | [] => None
  | p :: rest =>
      let '(k, v) := partition "=" p in
      let v := match v with Some v => strip v | None => EmptyString end in
      if String.eqb (lower (strip k)) (lower name) then Some (unquote v)
      else find_param name rest
  end.

Definition get_param (name : string) (headers : list (string * string)) : option string :=
  match get_header "content-type" headers with
  | None => None
  | Some value => find_param name (_parseparam value false false)
  end.

(** [msg.get_boundary()]. *)
Definition get_boundary (headers : list (string * string)) : option string :=
  match get_param "boundary" headers with
  | None => None
  | Some b => Some (rstrip_by is_space (unquote b))
  end.

(** Lines that match the inner or the closing delimiter, skipped after a
    delimiter has been read. *)
Fixpoint skip_boundaries (stack : list eof_matcher) (separator : string)
         (lines : list string) : list string :=
  match lines with
  | [] => []
  | line :: rest =>
      if existsb (fun m => at_eof m line) stack then lines
      else match boundary_match separator line with
           | Some _ => skip_boundaries stack separator rest
           | None => lines
           end
  end.

(** The preamble: the lines before the first delimiter.  The result is the
    input from that delimiter on, or [None] when the input ends, or the
    closing delimiter comes, before any inner delimiter. *)
Fixpoint skip_preamble (stack : list eof_matcher) (separator : string)
         (lines : list string) : list string * option (list string) :=
  match lines with
  | [] => ([], None)
  | line :: rest =>
      if existsb (fun m => at_eof m line) stack then ([], None)
      else match boundary_match separator line with
           | Some true => ([], None)
           | Some false => ([], Some lines)
           | None =>
               let '(pre, found) := skip_preamble stack separator rest in
               (line :: pre, found)
           end
  end.

(** The newline before a delimiter belongs to the delimiter: it is taken
    off the text payload of the message read last ([self._last]), which for a
    part of a [message/*] type is the last message nested in it; a message
    declared multipart is left alone. *)
Fixpoint trim_last (default_type : string) (m : Message) : Message :=
  match m with
  | Leaf h payload =>
      if String.eqb (get_content_maintype default_type h) "multipart" then m
      else Leaf h (chomp payload)
  | Node h l =>
      if String.eqb (get_content_maintype default_type h) "multipart" then m
      else
        Node h ((fix trim_last_of (l : list Message) : list Message :=
                   match l with
                   | [] => []
                   | [x] => [trim_last "text/plain" x]
                   | x :: rest => x :: trim_last_of rest
                   end) l)
  end.

(** [_parsegen] and its loop over the parts of a multipart.  [fuel] bounds
    the number of nested calls; each call consumes input, so the number of
    lines bounds it too. *)
Fixpoint _parsegen (fuel : nat) (stack : list eof_matcher) (default_type : string)
         (lines : list string) {struct fuel} : Message * list string :=
  match fuel with
  | O => (Leaf [] EmptyString, lines)
  | S fuel' =>
      let '(header_lines, lines) := take_headers stack lines in
      let '(headers, unread) := _parse_headers header_lines in
      let lines := match unread with Some l => l :: lines | None => lines end in
      let ctype := get_content_type default_type headers in
      let maintype := get_content_maintype default_type headers in
      let leaf lines :=
        let '(body, rest) := read_all stack lines in
        (Leaf headers (concat_strings body), rest) in
      if String.eqb ctype "message/delivery-status" then
        let '(blocks, rest) := _status_blocks fuel' stack lines in
        (Node headers blocks, rest)
      else if String.eqb maintype "message" then
        let '(sub, rest) := _parsegen fuel' stack "text/plain" lines in
        (Node headers [sub], rest)
      else if String.eqb maintype "multipart" then
        match get_boundary headers with
        | None => leaf lines
        | Some boundary =>
            let separator := "--" ++ boundary in
            let child_default :=
              if String.eqb ctype "multipart/digest" then "message/rfc822"
              else "text/plain" in
            match skip_preamble stack separator lines with
            | (preamble, None) =>
                (Leaf headers (concat_strings preamble), (read_all stack lines).2)
            | (_, Some lines) =>
                let '(subparts, rest) :=
                  _parts fuel' stack separator child_default lines in
                (Node headers subparts, rest)
            end
        end
      else leaf lines
  end

with _parts (fuel : nat) (stack : list eof_matcher) (separator default_type : string)
            (lines : list string) {struct fuel} : list Message * list string :=
  match fuel with
  | O => ([], lines)
  | S fuel' =>
      match readline stack lines with
      | None => ([], lines)
      | Some (line, rest) =>
          match boundary_match separator line with
          | Some true => ([], (read_all stack rest).2)
          | Some false =>
              let rest := skip_boundaries stack separator rest in
              let '(part, rest) :=
                _parsegen fuel' (AtBoundary separator :: stack) default_type rest in
              let '(more, rest) := _parts fuel' stack separator default_type rest in
              (trim_last default_type part :: more, rest)
          | None => ([], lines)
          end
      end
  end

with _status_blocks (fuel : nat) (stack : list eof_matcher) (lines : list string)
                    {struct fuel} : list Message * list string :=
  match fuel with
  | O => ([], lines)
  | S fuel' =>
      let '(block, rest) := _parsegen fuel' (AtBlankLine :: stack) "text/plain" lines in
      match readline stack rest with
      | None => ([block], rest)
      | Some (_, rest) =>
          match readline stack rest with
          | None => ([block], rest)
          | Some _ =>
              let '(more, rest) := _status_blocks fuel' stack rest in
              (block :: more, rest)
          end
      end
  end.

(** [email.message_from_string(s)]. *)
Definition message_from_string (s : string) : Message :=
  let lines := split_lines s in
  (_parsegen (4 + 2 * List.length lines) [] "text/plain" lines).1.

(** [msg.get_payload()] read as text ([None] for a list payload). *)
Definition text_payload (m : Message) : option string :=
  match m with
  | Leaf _ payload => Some payload
  | Node _ _ => None
  end.

(** [msg.get_payload()] read as a list of sub-messages. *)
Definition subparts (m : Message) : list Message :=
  match m with
  | Leaf _ _ => []
  | Node _ l => l
  end.

End Parser.

(* ===================================================================== *)
(** * The message helpers of [resources/messages.py] *)
(* ===================================================================== *)

Module Messages.
Import Email.

(** The [cc] argument: a single address or a list of addresses. *)
Inductive Cc : Type :=
| CcStr (s : string)
| CcList (l : list string).

(** [if cc:]. *)
Definition truthy_cc (cc : option Cc) : bool :=
  match cc with
  | None => false
  | Some (CcStr s) => truthy_str s
  | Some (CcList l) => match l with [] => false | _ => true end
  end.

(** [if message_html:]. *)
Definition truthy_html (message_html : option string) : bool :=
  match message_html with
  | None => false
  | Some s => truthy_str s
  end.

(** Lines 155-170 of [create_message]: the MIME object that is built. *)
Definition mime_message (sender to subject message_text : string)
           (message_html : option string) (cc : option Cc) : MIMEMultipart :=
  let message := new_MIMEMultipart "alternative" in
  let message := set_item message "to" to in
  let message := set_item message "from" sender in
  let message := set_item message "subject" subject in
  let message :=
    if truthy_cc cc then
      let cc := match cc with
                | Some (CcStr s) => [s]
                | Some (CcList l) => l
                | None => []
                end in
      set_item message "Cc" (join ", " cc)
    else message in
  let part1 := MIMEText message_text "plain" in
  let message := attach message part1 in
  if truthy_html message_html then
    let part2 :=
      MIMEText (match message_html with Some h => h | None => "" end) "html" in
    attach message part2
  else message.

(** [create_message]; [token] is the number the generator draws for the
    boundary.  The encoder's output is ASCII, on which [.decode()] is the
    identity. *)
Definition create_message (token : N) (sender to subject message_text : string)
           (message_html : option string) (cc : option Cc) : gmap string string :=
  let message := mime_message sender to subject message_text message_html cc in
  <["raw" := Base64.urlsafe_b64encode (as_bytes token message)]> ∅.

(** [parse_message]. *)
Definition parse_message (raw_content : string) : result Parser.Message :=
  let raw_content :=
    Base64.replace_char "-" "+" (Base64.replace_char "_" "/" raw_content) in
  match Base64.encode_ASCII raw_content with
  | Raise e => Raise e
  | Ok encoded =>
      match Base64.urlsafe_b64decode encoded with
      | Raise e => Raise e
      | Ok decoded =>
          match Base64.decode_ASCII decoded with
          | Raise e => Raise e
          | Ok email_msg => Ok (Parser.message_from_string email_msg)
          end
      end
  end.

End Messages.

(* ===================================================================== *)
(** * Vocabulary of the statements *)
(* ===================================================================== *)

Module Spec.

(** The first two statements of [request]: the client is obtained and the
    authorization headers are fetched. *)
Definition authenticate (env : Env) : M (gmap string string) :=
  Client._get_client env false;; Auth.get_auth_headers env.

Definition supported (method : string) : bool :=
  String.eqb method "GET" || String.eqb method "POST"
  || String.eqb method "PUT" || String.eqb method "DELETE".

(** The call a supported method makes on the client. *)
Definition issued (method url : string) (request_headers : gmap string string)
           (params : option (gmap string Json)) (data : option Json) : Request :=
  {| req_method := method; req_url := url; req_headers := request_headers;
     req_params := if String.eqb method "GET" then params else None;
     req_json := if String.eqb method "POST" || String.eqb method "PUT"
                 then data else None |}.

Definition record (ev : Event) (w : World) : World :=
  {| _credentials := _credentials w; _client := _client w;
     token_file := token_file w; trace := (trace w ++ [ev])%list |}.

Definition is_2xx (status : Z) : bool := (200 <=? status) && (status <=? 299).

(** What [request] re-raises for an exception [exc] that leaves its [try]
    block: the two [except] clauses, and everything else unchanged. *)
Definition converted (exc : exn) : exn :=
  if isinstance exc HTTPStatusError then
    mk_exn GmailAPIError
      ("HTTP error for " ++ Auth.fmt_opt_str (request_url exc) ++ " - "
       ++ Client.fmt_opt_int (status_code exc) ++ " - "
       ++ Auth.fmt_opt_str (response exc))
      (status_code exc) (response exc) None
  else if isinstance exc HttpxRequestError then
    new GmailRequestError
      ("Request error for " ++ Auth.fmt_opt_str (request_url exc) ++ ": "
       ++ str_exn exc)
  else exc.

(** The events that go over the network: a token refresh, the exchange that
    ends the interactive authorization, a call on the HTTP client. *)
Definition is_network_event (ev : Event) : bool :=
  match ev with
  | OAuthRefresh _ | OAuthFlow | HttpCall _ => true
  | _ => false
  end.

Definition network_events (t : list Event) : list Event :=
  List.filter is_network_event t.

(** Computations that leave the list of network calls alone. *)
Definition no_http {A} (m : M A) : Prop :=
  forall w r w', m w = (r, w') -> http_calls (trace w') = http_calls (trace w).

(** [self] is an instance of one of the three handlers. *)
Definition is_subclass (self : Resources.ResourceClass) : Prop :=
  self <> Resources.BaseGmailResource.

(** ** Messages *)

(** The ["raw"] entry of the dictionary [create_message] returns. *)
Definition raw_of (d : gmap string string) : string := dict_get d "raw" "".




Fixpoint has_char (c : ascii) (s : string) : bool :=
  match s with
  | EmptyString => false
  | String a rest => Ascii.eqb a c || has_char c rest
  end.

(** No line of [text] begins with [prefix]. *)
Definition no_line_starts_with (prefix text : string) : bool :=
  forallb (fun line => negb (Email.startswith line prefix)) (Email.lines_LF text).

(** The [Cc] header [create_message] sets, if any. *)
Definition cc_header (cc : option Messages.Cc) : list (string * string) :=
  match cc with
  | Some (Messages.CcStr ((String _ _) as s)) => [("Cc", s)]
  | Some (Messages.CcList ((_ :: _) as l)) => [("Cc", join ", " l)]
  | _ => []
  end.

Definition all_plain_headers (headers : list (string * string)) : bool :=
  forallb (fun h => Email.plain_header h.1 h.2) headers.

(** All 256 byte values. *)
Definition all_bytes : list ascii := map ascii_of_nat (seq 0 256).

End Spec.

Export Spec.

(** ** Concrete collaborators used in the examples *)

Module Examples.

Definition fresh_credentials : Credentials :=
  {| token := Some "ya29.fresh"; refresh_token := Some "1//refresh";
     expiry := Some 5000 |}.

Definition stale_credentials : Credentials :=
  {| token := Some "ya29.stale"; refresh_token := Some "1//refresh";
     expiry := Some 900 |}.

(** A transport that answers every call with the given response. *)
Definition env_with (file_ok : bool) (answer : Request -> TransportOutcome) : Env :=
  {| TOKEN_PATH := "backend/token.json";
     CREDENTIALS_PATH := "backend/credentials.json";
     HTTP_PROXY := None;
     now := 1000;
     REFRESH_THRESHOLD := 225;
     credentials_file_exists := file_ok;
     oauth_refresh := fun _ => Ok fresh_credentials;
     oauth_flow := Ok fresh_credentials;
     token_file_write := fun c => Some (Ok c);
     aclose := fun _ => None;
     transport := fun _ r => answer r;
     repr_container := fun _ => "[...]" |}.

(** The same collaborators, with a token endpoint that rejects every
    refresh. *)
Definition refusing_refresh (env : Env) : Env :=
  {| TOKEN_PATH := TOKEN_PATH env;
     CREDENTIALS_PATH := CREDENTIALS_PATH env;
     HTTP_PROXY := HTTP_PROXY env;
     now := now env;
     REFRESH_THRESHOLD := REFRESH_THRESHOLD env;
     credentials_file_exists := credentials_file_exists env;
     oauth_refresh := fun _ => Raise (new CollaboratorError "invalid_grant");
     oauth_flow := oauth_flow env;
     token_file_write := token_file_write env;
     aclose := aclose env;
     transport := transport env;
     repr_container := repr_container env |}.

Definition respond (status : Z) (body : string) (j : option Json) (r : Request)
  : TransportOutcome :=
  Responded {| resp_url := req_url r; resp_status := status;
               resp_text := body; resp_json := j |}.

Definition empty_world : World :=
  {| _credentials := None; _client := None; token_file := None; trace := [] |}.

Definition logged_in_world : World :=
  {| _credentials := Some fresh_credentials; _client := None;
     token_file := Some (Ok fresh_credentials); trace := [] |}.

Definition stale_world : World :=
  {| _credentials := None; _client := None;
     token_file := Some (Ok stale_credentials); trace := [] |}.

End Examples.

(* ===================================================================== *)
(** * Vocabulary of the proofs *)

(** ** The base64 alphabet *)

Module Alphabet.
Import Base64.
Local Open Scope N_scope.

(** The four characters that encode the bytes [a], [b], [c] of a full
    group. *)
Definition enc1 (a : ascii) : ascii := b2a (N.shiftr (N_of_ascii a) 2).

Definition enc2 (a b : ascii) : ascii :=
  b2a (N.lor (N.shiftl (N.land (N_of_ascii a) 3) 4) (N.shiftr (N_of_ascii b) 4)).

Definition enc3 (b c : ascii) : ascii :=
  b2a (N.lor (N.shiftl (N.land (N_of_ascii b) 15) 2) (N.shiftr (N_of_ascii c) 6)).

Definition enc4 (c : ascii) : ascii := b2a (N.land (N_of_ascii c) 63).

(** The 6-bit values in the middle of a group. *)
Definition sextet2 (a b : ascii) : N :=
  N.lor (N.shiftl (N.land (N_of_ascii a) 3) 4) (N.shiftr (N_of_ascii b) 4).

Definition sextet3 (b c : ascii) : N :=
  N.lor (N.shiftl (N.land (N_of_ascii b) 15) 2) (N.shiftr (N_of_ascii c) 6).

(** [ch] is a character of the standard alphabet that decodes to [v]: it is
    ASCII and none of [=], [-] and [_]. *)
Definition decodes_to (ch : ascii) (v : N) : bool :=
  match a2b ch with
  | Some n => (n =? v) && negb (Ascii.eqb ch "=") && negb (Ascii.eqb ch "-")
              && negb (Ascii.eqb ch "_") && is_ascii ch
  | None => false
  end.

(** A decoded byte put in front of a decoded rest. *)
Definition cons_ok (a : ascii) (r : result string) : result string :=
  match r with
  | Ok s => Ok (String a s)
  | Raise e => Raise e
  end.

(** What the encoder writes: ASCII, and free of the two characters that the
    URL-safe alphabet puts in the place of [+] and [/]. *)
Definition standard_char (c : ascii) : bool :=
  negb (Ascii.eqb c "-") && negb (Ascii.eqb c "_") && is_ascii c.

Fixpoint standard (s : string) : bool :=
  match s with
  | EmptyString => true
  | String c rest => standard_char c && standard rest
  end.

(** The two substitutions of [urlsafe_b64encode] and the two of
    [parse_message], on one character. *)
Definition to_urlsafe (c : ascii) : ascii :=
  let c := if Ascii.eqb c "+" then "-"%char else c in
  if Ascii.eqb c "/" then "_"%char else c.

Definition from_urlsafe (c : ascii) : ascii :=
  let c := if Ascii.eqb c "_" then "/"%char else c in
  if Ascii.eqb c "-" then "+"%char else c.

End Alphabet.

(** ** Lines, boundaries and the message [create_message] builds *)

Module Shape.
Import Email Parser.

Fixpoint forall_chars (p : ascii -> bool) (s : string) : bool :=
  match s with
  | EmptyString => true
  | String c rest => p c && forall_chars p rest
  end.

Definition not_newline (c : ascii) : bool := negb (is_newline c).

(** A complete line: text without a line ending, then [NL]. *)
Definition is_line (l : string) : Prop :=
  exists a, l = a ++ NL /\ forall_chars not_newline a = true.

Definition is_digit (c : ascii) : bool :=
  let n := N_of_ascii c in ((48 <=? n) && (n <=? 57))%N.

(** The characters of the boundaries the generator makes. *)
Definition boundary_char (c : ascii) : bool :=
  is_digit c || Ascii.eqb c "=" || Ascii.eqb c ".".

(** What every boundary the generator makes looks like. *)
Definition boundary_shape (b : string) : Prop :=
  exists r, b = "===============" ++ r
            /\ forall_chars boundary_char r = true
            /\ (16 <= String.length r)%nat.

(** The value of the folded [Content-Type] header as the parser stores it. *)
Definition content_type_value (b : string) : string :=
  "multipart/alternative;" ++ NL ++ " boundary=" ++ quoted b.

(** [s] put in front of the first element of [l]. *)
Definition cons_first (s : string) (l : list string) : list string :=
  match l with
  | [] => [s]
  | p :: ps => (s ++ p) :: ps
  end.

(** A character that neither ends nor quotes a parameter. *)
Definition param_char (c : ascii) : bool :=
  negb (Ascii.eqb c ";") && negb (Ascii.eqb c DQUOTE) && negb (Ascii.eqb c BACKSLASH).

(** The first three header lines of a built message. *)
Definition L0 : string := "Content-Type: multipart/alternative;" ++ NL.

Definition L1 (b : string) : string := " boundary=" ++ quoted b ++ NL.

Definition L2 : string := "MIME-Version: 1.0" ++ NL.

(** The header lines of its plain-text part. *)
Definition P0 : string := "Content-Type: text/plain; charset=" ++ quoted "us-ascii" ++ NL.

Definition P1 : string := "MIME-Version: 1.0" ++ NL.

Definition P2 : string := "Content-Transfer-Encoding: 7bit" ++ NL.

(** The headers of the plain-text part, as built and as parsed. *)
Definition plain_part_headers : list (string * string) :=
  [("Content-Type", "text/plain; charset=" ++ quoted "us-ascii");
   ("MIME-Version", "1.0");
   ("Content-Transfer-Encoding", "7bit")].

(** The delimiter line that opens a part. *)
Definition delimiter (b : string) : string := ("--" ++ b) ++ NL.

(** A header line the parser takes as a header of its own. *)
Definition user_line (l : string) : Prop :=
  headerRE_match l = true /\ startswith l "From " = false.

(** The line the generator writes for a header that needs no folding. *)
Definition header_line (h : string * string) : string := h.1 ++ ": " ++ h.2 ++ NL.

(** The headers [create_message] sets from its arguments. *)
Definition user_names : list string := ["to"; "from"; "subject"; "Cc"].

Definition user_header (h : string * string) : Prop :=
  In h.1 user_names /\ plain_header h.1 h.2 = true.

(** The message object of [create_message]: its headers [E], the plain-text
    part first, the parts [ps] after it. *)
Definition built (E : list (string * string)) (text : string) (ps : list Part)
  : MIMEMultipart :=
  {| subtype := "alternative"; extra_headers := E;
     parts := MIMEText text "plain" :: ps |}.

Definition built_boundary (token : N) (E : list (string * string)) (text : string)
           (ps : list Part) : string :=
  boundary_of token (built E text ps).

End Shape.

(* ===================================================================== *)
(** * The facade ([api.py]) *)
(* ===================================================================== *)

Module Api.
Section WithEnv.
Variable env : Env.

(** [GmailAPICaller.__init__]: the configuration is [GmailConfig()], the
    client is built on its [BASE_URL], and the three handlers share the
    client and the configuration. *)
Definition config : Config.GmailConfig := Config.default.

Definition base_url : string := Config.BASE_URL config.

Definition close : M unit := Client.close env.

Definition create_message (token : N) (sender to subject message_text : string)
           (message_html : option string) (cc : option Messages.Cc)
  : gmap string string :=
  Messages.create_message token sender to subject message_text message_html cc.

Definition get_msg_from_str (raw_content : string) : result Parser.Message :=
  Messages.parse_message raw_content.

(** The listings pass [headers] and [details] by keyword; [params] keeps its
    default. *)
Definition get_drafts (headers : option (gmap string string)) (details : bool)
  : M Json :=
  Resources.get_all env config base_url Resources.GmailDrafts None headers details.

Definition get_messages (headers : option (gmap string string)) (details : bool)
  : M Json :=
  Resources.get_all env config base_url Resources.GmailMessages None headers details.

Definition get_threads (headers : option (gmap string string)) (details : bool)
  : M Json :=
  Resources.get_all env config base_url Resources.GmailThreads None headers details.

Definition get_draft (draft_id : string) (headers : option (gmap string string))
  : M Json :=
  Resources.get_by_id env config base_url Resources.GmailDrafts draft_id headers.

Definition get_message (message_id : string) (headers : option (gmap string string))
  : M Json :=
  Resources.get_by_id env config base_url Resources.GmailMessages message_id headers.

Definition get_thread (thread_id : string) (headers : option (gmap string string))
  : M Json :=
  Resources.get_by_id env config base_url Resources.GmailThreads thread_id headers.

Definition create_draft (message : Json) (headers : option (gmap string string))
  : M Json :=
  Resources.drafts_create env config base_url message headers.

Definition send_message (message : Json) (headers : option (gmap string string))
  : M Json :=
  Resources.messages_send env config base_url message headers.

Definition update_draft (draft_id : string) (message : Json)
           (headers : option (gmap string string)) : M Json :=
  Resources.drafts_update env config base_url draft_id message headers.

Definition update_message (message_id : string) (data : Json)
           (headers : option (gmap string string)) : M Json :=
  Resources.messages_update env config base_url message_id data headers.

Definition delete_draft (draft_id : string) (headers : option (gmap string string))
  : M unit :=
  Resources.delete env config base_url Resources.GmailDrafts draft_id headers.

Definition delete_message (message_id : string)
           (headers : option (gmap string string)) : M unit :=
  Resources.delete env config base_url Resources.GmailMessages message_id headers.

Definition delete_thread (thread_id : string) (headers : option (gmap string string))
  : M unit :=
  Resources.delete env config base_url Resources.GmailThreads thread_id headers.

Definition undelete_thread (thread_id : string)
           (headers : option (gmap string string)) : M unit :=
  Resources.threads_undelete env config base_url thread_id headers.

End WithEnv.
End Api.

(* ===================================================================== *)
(** * Vocabulary of the further statements *)
(* ===================================================================== *)

Module Terms.

(** The dictionary [get_auth_headers] builds from a credential. *)
Definition auth_headers_of (c : Credentials) : gmap string string :=
  <["Authorization" := "Bearer " ++ Auth.fmt_opt_str (token c)]>
    (<["Content-Type" := "application/json"]> ∅).

(** The collaborators of [env], with another fate for the token file when
    it is written. *)
Definition with_token_file_write
           (f : Credentials -> option (result Credentials)) (env : Env) : Env :=
  {| TOKEN_PATH := TOKEN_PATH env;
     CREDENTIALS_PATH := CREDENTIALS_PATH env;
     HTTP_PROXY := HTTP_PROXY env;
     now := now env;
     REFRESH_THRESHOLD := REFRESH_THRESHOLD env;
     credentials_file_exists := credentials_file_exists env;
     oauth_refresh := oauth_refresh env;
     oauth_flow := oauth_flow env;
     token_file_write := f;
     aclose := aclose env;
     transport := transport env;
     repr_container := repr_container env |}.

(** There is no usable cached credential. *)
Definition no_valid_cache (env : Env) (w : World) : Prop :=
  forall c, _credentials w = Some c -> Auth.valid env c = false.

(** The authenticator holds a valid credential and the client exists: the
    state every call after the first successful one runs in. *)
Definition ready (env : Env) (w : World) : Prop :=
  exists c cl,
    _credentials w = Some c /\ Auth.valid env c = true /\ _client w = Some cl.

(** The credential a [ready] world sends. *)
Definition credential_of (w : World) : Credentials :=
  match _credentials w with
  | Some c => c
  | None => {| token := None; refresh_token := None; expiry := None |}
  end.

(** The world after [_save_token], and after [self._credentials = c]. *)
Definition saved (env : Env) (c : Credentials) (w : World) : World :=
  snd (Auth._save_token env c w).

Definition cached (c : Credentials) (w : World) : World :=
  snd (set__credentials (Some c) w).

(** A credential just obtained is saved, then cached; a failure to obtain
    one ends the call. *)
Definition obtained (env : Env) (r : result Credentials * World)
  : result Credentials * World :=
  match r with
  | (Ok c, w) => (Ok c, cached c (saved env c w))
  | (Raise e, w) => (Raise e, w)
  end.

Definition is_OAuthFlow (ev : Event) : bool :=
  match ev with OAuthFlow => true | _ => false end.

Definition is_OAuthRefresh (ev : Event) : bool :=
  match ev with OAuthRefresh _ => true | _ => false end.

Definition is_TokenFileWrite (ev : Event) : bool :=
  match ev with TokenFileWrite _ => true | _ => false end.

Definition is_ClientCreated (ev : Event) : bool :=
  match ev with ClientCreated _ => true | _ => false end.

(** How often an event of a kind occurs in a trace. *)
Definition count (kind : Event -> bool) (t : list Event) : nat :=
  List.length (List.filter kind t).

(** A GET as [request] issues it. *)
Definition GET (url : string) (headers : gmap string string)
           (params : option (gmap string Json)) : Request :=
  {| req_method := "GET"; req_url := url; req_headers := headers;
     req_params := params; req_json := None |}.

Definition POST (url : string) (headers : gmap string string) (data : Json)
  : Request :=
  {| req_method := "POST"; req_url := url; req_headers := headers;
     req_params := None; req_json := Some data |}.

Definition PUT (url : string) (headers : gmap string string) (data : Json)
  : Request :=
  {| req_method := "PUT"; req_url := url; req_headers := headers;
     req_params := None; req_json := Some data |}.

Definition DELETE (url : string) (headers : gmap string string) : Request :=
  {| req_method := "DELETE"; req_url := url; req_headers := headers;
     req_params := None; req_json := None |}.

(** A decoded JSON object, the only kind of value with a [get] method. *)
Definition is_object (j : Json) : bool :=
  match j with JObj _ => true | _ => false end.

(** [resource.get("id")] on a listed resource. *)
Definition id_of (resource : Json) : Json :=
  match resource with
  | JObj m => dict_get m "id" JNull
  | _ => JNull
  end.



(** The first header line of the HTML part, and the headers of that part
    as built and as parsed. *)
Definition Q0 : string :=
  "Content-Type: text/html; charset=" ++ Email.quoted "us-ascii" ++ Email.NL.

Definition html_part_headers : list (string * string) :=
  [("Content-Type", "text/html; charset=" ++ Email.quoted "us-ascii");
   ("MIME-Version", "1.0");
   ("Content-Transfer-Encoding", "7bit")].






(** The closing delimiter line. *)
Definition closing (b : string) : string := ("--" ++ b) ++ "--" ++ Email.NL.


End Terms.

Export Terms.

(** ** Further concrete values used in the examples *)

Module Samples.
Import Examples.

(** A world after the first successful call. *)
Definition ready_world : World :=
  {| _credentials := Some fresh_credentials;
     _client := Some {| client_headers := auth_headers_of fresh_credentials;
                        client_proxies := None |};
     token_file := Some (Ok fresh_credentials);
     trace := [] |}.

(** A mailbox listing with two stubs. *)
Definition two_messages : Json :=
  JObj (<["messages" := JArr [JObj (<["id" := JStr "m1"]> ∅);
                              JObj (<["id" := JStr "m2"]> ∅)]]> ∅).

Definition me : string := "https://gmail.googleapis.com/gmail/v1/users/me".

End Samples.
(* ===================================================================== *)
(** * Properties *)
(* ===================================================================== *)
(** ** Authenticator *)

Module AuthFacts.
Import Examples.

Ltac unfold_M :=
  unfold mbind, M_bind, mret, M_ret, raise, try_except, emit, get_world,
    set__credentials, set__client, set_token_file in *.

Example valid_fresh : Auth.valid (env_with true (respond 200 "" None)) fresh_credentials = true.
Proof. reflexivity. Qed.

Example expired_stale : Auth.expired (env_with true (respond 200 "" None)) stale_credentials = true.
Proof. reflexivity. Qed.

(** C9.  With a valid cached credential, [get_credentials] returns it and
    leaves the world as it was: nothing is added to the trace, so the token
    file is neither tested for existence, read nor written, and its content
    is unchanged. *)
Theorem get_credentials_cached_valid :
  forall (env : Env) (w : World) (c : Credentials),
    _credentials w = Some c ->
    Auth.valid env c = true ->
    Auth.get_credentials env w = (Ok c, w) /\
    token_storage_events (trace (snd (Auth.get_credentials env w)))
      = token_storage_events (trace w) /\
    token_file (snd (Auth.get_credentials env w)) = token_file w.
Proof.
  intros env w c Hc Hv.
  assert (H : Auth.get_credentials env w = (Ok c, w)).
  { unfold Auth.get_credentials. unfold_M. rewrite Hc, Hv. reflexivity. }
  rewrite H. auto.
Qed.

Lemma get_credentials_cached_valid_witness :
  Auth.get_credentials (env_with true (respond 200 "" None)) logged_in_world
    = (Ok fresh_credentials, logged_in_world).
Proof.
  apply (get_credentials_cached_valid
           (env_with true (respond 200 "" None)) logged_in_world fresh_credentials);
    reflexivity.
Defined.

(** The three sources of a credential on the slow path. *)
Lemma _get_new_credentials_valid :
  forall (env : Env) (w w' : World) (c : Credentials),
    (forall c1, oauth_flow env = Ok c1 -> Auth.valid env c1 = true) ->
    Auth._get_new_credentials env w = (Ok c, w') ->
    Auth.valid env c = true.
Proof.
  intros env w w' c Hflow. unfold Auth._get_new_credentials. unfold_M.
  destruct (credentials_file_exists env); simpl; [|discriminate].
  destruct (oauth_flow env) as [c1|e] eqn:E.
  - intros [= <- _]. now apply Hflow.
  - destruct (isinstance e Exception); discriminate.
Qed.

Lemma refresh_valid :
  forall (env : Env) (w w' : World) (c0 c : Credentials) (h : exn -> M Credentials),
    (forall c1 c2, oauth_refresh env c1 = Ok c2 -> Auth.valid env c2 = true) ->
    (forall e w1 r w2, h e w1 = (r, w2) -> exists e', r = Raise e') ->
    try_except (Auth.refresh env c0) h w = (Ok c, w') ->
    Auth.valid env c = true.
Proof.
  intros env w w' c0 c h Href Hh. unfold Auth.refresh. unfold_M.
  destruct (oauth_refresh env c0) as [c1|e] eqn:E.
  - intros [= <- _]. eapply Href; eauto.
  - intros H. apply Hh in H. destruct H as [e' H]. discriminate.
Qed.

Lemma _save_token_ok :
  forall (env : Env) (c : Credentials) (w : World),
    exists w', Auth._save_token env c w = (Ok tt, w').
Proof.
  intros. unfold Auth._save_token. unfold_M.
  destruct (token_file_write env c); eauto.
Qed.

Lemma get_credentials_uncached_valid :
  forall (env : Env) (w w' : World) (c : Credentials),
    (forall c1 c2, oauth_refresh env c1 = Ok c2 -> Auth.valid env c2 = true) ->
    (forall c1, oauth_flow env = Ok c1 -> Auth.valid env c1 = true) ->
    Auth.get_credentials_uncached env w = (Ok c, w') ->
    Auth.valid env c = true /\ _credentials w' = Some c.
Proof.
  intros env w w' c Href Hflow.
  unfold Auth.get_credentials_uncached.
  unfold mbind at 1. unfold M_bind at 1.
  destruct (Auth.os_path_exists_TOKEN_PATH w) as [[b|e] w1] eqn:E1; [|discriminate].
  unfold mbind at 1. unfold M_bind at 1.
  assert (Hfinish : forall (m : M Credentials) w2,
            (forall c2 w3, m w2 = (Ok c2, w3) -> Auth.valid env c2 = true) ->
            (c2 ← m; set__credentials (Some c2);; mret c2) w2 = (Ok c, w') ->
            Auth.valid env c = true /\ _credentials w' = Some c).
  { intros m w2 Hm. unfold_M.
    destruct (m w2) as [[c2|e] w3] eqn:E; [|discriminate].
    intros [= <- <-]. split; [eapply Hm; eauto | reflexivity]. }
  assert (Hstep : forall (m : M Credentials) w2 c2 w3,
            (forall c3 w4, m w2 = (Ok c3, w4) -> Auth.valid env c3 = true) ->
            (c' ← m; Auth._save_token env c';; mret c') w2 = (Ok c2, w3) ->
            Auth.valid env c2 = true).
  { intros m w2 c2 w3 Hm. unfold mbind, M_bind, mret, M_ret.
    destruct (m w2) as [[c3|e] w4] eqn:E; [|discriminate].
    destruct (_save_token_ok env c3 w4) as [w5 ->].
    intros [= <- _]. eapply Hm; eauto. }
  destruct b.
  - unfold mbind at 1. unfold M_bind at 1.
    destruct (Auth.from_authorized_user_file env w1) as [[c1|e] w2] eqn:E2;
      [|discriminate].
    unfold mret at 1. unfold M_ret at 1.
    apply Hfinish. intros c2 w3.
    destruct (Auth.valid env c1) eqn:Hv.
    + unfold_M. intros [= <- _]. exact Hv.
    + apply Hstep. intros c3 w4.
      destruct (Auth.expired env c1 && Auth.truthy_opt_str (refresh_token c1)).
      * apply refresh_valid; [exact Href|].
        intros e w5 r w6. unfold_M.
        destruct (isinstance e Exception); intros [= <- _]; eauto.
      * apply _get_new_credentials_valid; exact Hflow.
  - unfold mret at 1. unfold M_ret at 1.
    apply Hfinish. intros c2 w3. apply Hstep. intros c3 w4.
    apply _get_new_credentials_valid; exact Hflow.
Qed.

(** C8.  Provided a successful refresh and a successful interactive
    authorization hand back valid credentials, every credential that
    [get_credentials] returns is valid (for the clock reading of the call),
    whichever path produced it: the cached one, the one loaded from the token
    file, a refreshed one, or a newly authorized one.  The returned
    credential is also the one cached afterwards. *)
Theorem get_credentials_returns_valid :
  forall (env : Env) (w w' : World) (c : Credentials),
    (forall c1 c2, oauth_refresh env c1 = Ok c2 -> Auth.valid env c2 = true) ->
    (forall c1, oauth_flow env = Ok c1 -> Auth.valid env c1 = true) ->
    Auth.get_credentials env w = (Ok c, w') ->
    Auth.valid env c = true /\ _credentials w' = Some c.
Proof.
  intros env w w' c Href Hflow.
  unfold Auth.get_credentials.
  unfold mbind at 1. unfold M_bind at 1. unfold get_world at 1.
  destruct (_credentials w) as [cached|] eqn:Hc.
  - destruct (Auth.valid env cached) eqn:Hv.
    + unfold_M. intros [= <- <-]. auto.
    + apply get_credentials_uncached_valid; assumption.
  - apply get_credentials_uncached_valid; assumption.
Qed.

(** The refresh path, run on concrete collaborators. *)
Lemma get_credentials_returns_valid_witness :
  Auth.valid (env_with true (respond 200 "" None)) fresh_credentials = true
  /\ _credentials
       (snd (Auth.get_credentials (env_with true (respond 200 "" None)) stale_world))
     = Some fresh_credentials.
Proof.
  apply (get_credentials_returns_valid
           (env_with true (respond 200 "" None)) stale_world
           (snd (Auth.get_credentials (env_with true (respond 200 "" None)) stale_world))
           fresh_credentials).
  - intros c1 c2 [= <-]. reflexivity.
  - intros c1 [= <-]. reflexivity.
  - reflexivity.
Defined.

(** *** The steps of [get_credentials], one equation each *)

Lemma isinstance_Exception' (e : exn) : isinstance e Exception = true.
Proof. unfold isinstance. destruct (cls e); reflexivity. Qed.

Lemma bind_eq {A B} (m : M A) (k : A -> M B) (w : World) :
  (m ≫= k) w
  = match m w with
    | (Ok a, w') => k a w'
    | (Raise e, w') => (Raise e, w')
    end.
Proof. reflexivity. Qed.

Lemma ret_eq {A} (a : A) (w : World) : (mret a : M A) w = (Ok a, w).
Proof. reflexivity. Qed.

Lemma os_path_exists_TOKEN_PATH_eq (w : World) :
  Auth.os_path_exists_TOKEN_PATH w
  = (Ok (bool_decide (is_Some (token_file w))), record TokenFileExists w).
Proof. reflexivity. Qed.

Lemma from_authorized_user_file_eq (env : Env) (w : World) :
  Auth.from_authorized_user_file env w
  = (match token_file w with
     | Some (Ok c) => Ok c
     | Some (Raise e) => Raise e
     | None => Raise (new CollaboratorError ("No such file: " ++ TOKEN_PATH env))
     end, record TokenFileRead w).
Proof.
  unfold Auth.from_authorized_user_file. unfold_M. unfold record. cbn.
  destruct (token_file w) as [[c|e]|]; reflexivity.
Qed.

Lemma refresh_eq (env : Env) (c : Credentials) (w : World) :
  Auth.refresh env c w = (oauth_refresh env c, record (OAuthRefresh c) w).
Proof.
  unfold Auth.refresh. unfold_M. unfold record. cbn.
  destruct (oauth_refresh env c); reflexivity.
Qed.

Lemma _get_new_credentials_eq (env : Env) (w : World) :
  Auth._get_new_credentials env w
  = if credentials_file_exists env then
      (match oauth_flow env with
       | Ok c => Ok c
       | Raise e =>
           Raise (new GmailCredentialsError ("OAuth flow failed: " ++ str_exn e))
       end, record OAuthFlow (record CredentialsFileExists w))
    else
      (Raise (new GmailCredentialsError
                ("Credentials file missing: " ++ CREDENTIALS_PATH env)),
       record CredentialsFileExists w).
Proof.
  unfold Auth._get_new_credentials. unfold_M. unfold record.
  destruct (credentials_file_exists env); cbn [negb]; [|reflexivity].
  destruct (oauth_flow env) as [c|e]; [reflexivity|].
  now rewrite isinstance_Exception'.
Qed.

Lemma _save_token_eq (env : Env) (c : Credentials) (w : World) :
  Auth._save_token env c w
  = (Ok tt,
     match token_file_write env c with
     | Some remains =>
         {| _credentials := _credentials w; _client := _client w;
            token_file := Some remains;
            trace := (trace w ++ [TokenFileWrite c])%list |}
     | None => record (TokenFileWrite c) w
     end).
Proof.
  unfold Auth._save_token. unfold_M. unfold record. cbn.
  destruct (token_file_write env c); reflexivity.
Qed.

(** [get_credentials] past the cache test, path by path. *)
Lemma get_credentials_uncached_eq (env : Env) (w : World) :
  Auth.get_credentials_uncached env w
  = let w1 := record TokenFileExists w in
    match token_file w with
    | None => obtained env (Auth._get_new_credentials env w1)
    | Some (Raise e) => (Raise e, record TokenFileRead w1)
    | Some (Ok c) =>
        let w2 := record TokenFileRead w1 in
        if Auth.valid env c then (Ok c, cached c w2)
        else if Auth.expired env c && Auth.truthy_opt_str (refresh_token c) then
          match oauth_refresh env c with
          | Ok c' =>
              (Ok c', cached c' (saved env c' (record (OAuthRefresh c) w2)))
          | Raise e =>
              (Raise (new GmailTokenError
                        ("Failed to refresh token: " ++ str_exn e)),
               record (OAuthRefresh c) w2)
          end
        else obtained env (Auth._get_new_credentials env w2)
    end.
Proof.
  assert (Hnew : forall w0,
             (c' ← Auth._get_new_credentials env; Auth._save_token env c';; mret c') w0
             = match Auth._get_new_credentials env w0 with
               | (Ok c, w') => (Ok c, saved env c w')
               | (Raise e, w') => (Raise e, w')
               end).
  { intros w0. unfold mbind, M_bind, mret, M_ret.
    destruct (Auth._get_new_credentials env w0) as [[c|e] w'] eqn:E; [|reflexivity].
    unfold saved. now rewrite _save_token_eq. }
  unfold Auth.get_credentials_uncached.
  rewrite bind_eq, os_path_exists_TOKEN_PATH_eq. cbv zeta.
  destruct (token_file w) as [[c|e]|] eqn:Hf.
  - rewrite bool_decide_eq_true_2 by eauto.
    rewrite !bind_eq, from_authorized_user_file_eq.
    change (token_file (record TokenFileExists w)) with (token_file w). rewrite Hf.
    rewrite ret_eq, bind_eq.
    destruct (Auth.valid env c); [reflexivity|].
    destruct (Auth.expired env c && Auth.truthy_opt_str (refresh_token c)).
    + rewrite bind_eq. unfold try_except. rewrite refresh_eq.
      destruct (oauth_refresh env c) as [c'|e].
      * rewrite bind_eq, _save_token_eq. unfold saved. rewrite _save_token_eq.
        reflexivity.
      * now rewrite isinstance_Exception'.
    + rewrite Hnew.
      destruct (Auth._get_new_credentials env _) as [[c'|e] w']; reflexivity.
  - rewrite bool_decide_eq_true_2 by eauto.
    rewrite !bind_eq, from_authorized_user_file_eq.
    change (token_file (record TokenFileExists w)) with (token_file w). rewrite Hf.
    reflexivity.
  - rewrite bool_decide_eq_false_2 by (intros [x Hx]; discriminate).
    rewrite bind_eq, ret_eq, bind_eq, Hnew.
    destruct (Auth._get_new_credentials env _) as [[c'|e] w']; reflexivity.
Qed.

Lemma get_credentials_eq (env : Env) (w : World) :
  Auth.get_credentials env w
  = match _credentials w with
    | Some c => if Auth.valid env c then (Ok c, w)
                else Auth.get_credentials_uncached env w
    | None => Auth.get_credentials_uncached env w
    end.
Proof.
  unfold Auth.get_credentials. unfold mbind, M_bind, get_world.
  destruct (_credentials w) as [c|]; [|reflexivity].
  now destruct (Auth.valid env c).
Qed.

Lemma get_credentials_no_valid_cache (env : Env) (w : World) :
  no_valid_cache env w ->
  Auth.get_credentials env w = Auth.get_credentials_uncached env w.
Proof.
  intros Hc. rewrite get_credentials_eq.
  destruct (_credentials w) as [c|] eqn:E; [|reflexivity].
  now rewrite (Hc c E).
Qed.

Lemma obtained_new_failure (env : Env) (w0 w' : World) (e : exn) :
  obtained env (Auth._get_new_credentials env w0) = (Raise e, w') ->
  cls e = GmailCredentialsError
  /\ _credentials w' = _credentials w0 /\ token_file w' = token_file w0.
Proof.
  rewrite _get_new_credentials_eq.
  destruct (credentials_file_exists env).
  - destruct (oauth_flow env) as [c|e0]; [discriminate|].
    intros [= <- <-]. auto.
  - intros [= <- <-]. auto.
Qed.

Lemma get_credentials_failure_cases :
  forall env w e w',
    Auth.get_credentials env w = (Raise e, w') ->
    ((cls e = GmailCredentialsError \/ cls e = GmailTokenError)
       /\ isinstance e GmailAuthError = true
     \/ token_file w = Some (Raise e))
    /\ _credentials w' = _credentials w
    /\ token_file w' = token_file w.
Proof.
  intros env w e w'.
  assert (H : Auth.get_credentials_uncached env w = (Raise e, w') ->
              ((cls e = GmailCredentialsError \/ cls e = GmailTokenError)
                 /\ isinstance e GmailAuthError = true
               \/ token_file w = Some (Raise e))
              /\ _credentials w' = _credentials w
              /\ token_file w' = token_file w).
  { rewrite get_credentials_uncached_eq. cbv zeta.
    destruct (token_file w) as [[c|e0]|] eqn:Hf.
    - destruct (Auth.valid env c); [discriminate|].
      destruct (Auth.expired env c && Auth.truthy_opt_str (refresh_token c)).
      + destruct (oauth_refresh env c) as [c'|e1]; [discriminate|].
        intros [= <- <-]. split; [left|]; auto.
      + intros H. apply obtained_new_failure in H as (Hcls & H1 & H2).
        split; [left; split; [auto | unfold isinstance; now rewrite Hcls]|].
        split; [exact H1 | now rewrite H2].
    - intros [= <- <-]. split; [right; reflexivity | auto].
    - intros H. apply obtained_new_failure in H as (Hcls & H1 & H2).
      split; [left; split; [auto | unfold isinstance; now rewrite Hcls]|].
      split; [exact H1 | now rewrite H2]. }
  rewrite get_credentials_eq.
  destruct (_credentials w) as [c|]; [|exact H].
  destruct (Auth.valid env c); [discriminate | exact H].
Qed.

(** A credential that is returned is the one cached from then on. *)
Lemma get_credentials_caches (env : Env) (w w' : World) (c : Credentials) :
  Auth.get_credentials env w = (Ok c, w') -> _credentials w' = Some c.
Proof.
  rewrite get_credentials_eq.
  assert (H : Auth.get_credentials_uncached env w = (Ok c, w') ->
              _credentials w' = Some c).
  { rewrite get_credentials_uncached_eq. cbv zeta.
    assert (Hnew : forall w0,
               obtained env (Auth._get_new_credentials env w0) = (Ok c, w') ->
               _credentials w' = Some c).
    { intros w0. destruct (Auth._get_new_credentials env w0) as [[c1|e] w1];
        [|discriminate].
      intros [= <- <-]. reflexivity. }
    destruct (token_file w) as [[c0|e0]|].
    - destruct (Auth.valid env c0).
      + intros [= <- <-]. reflexivity.
      + destruct (Auth.expired env c0 && Auth.truthy_opt_str (refresh_token c0)).
        * destruct (oauth_refresh env c0) as [c'|e1]; [|discriminate].
          intros [= <- <-]. reflexivity.
        * apply Hnew.
    - discriminate.
    - apply Hnew. }
  destruct (_credentials w) as [c0|] eqn:E; [|exact H].
  destruct (Auth.valid env c0); [|exact H].
  intros [= <- <-]. exact E.
Qed.

End AuthFacts.

(** ** HTTP client *)

Module ClientFacts.
Import Examples.
Import AuthFacts.

Lemma http_calls_app (t1 t2 : list Event) :
  http_calls (t1 ++ t2)%list = (http_calls t1 ++ http_calls t2)%list.
Proof. unfold http_calls. apply omap_app. Qed.

Lemma no_http_ret {A} (a : A) : no_http (mret a).
Proof. intros w r w' [= _ <-]. reflexivity. Qed.

Lemma no_http_raise {A} (e : exn) : no_http (@raise A e).
Proof. intros w r w' [= _ <-]. reflexivity. Qed.

Lemma no_http_get_world : no_http get_world.
Proof. intros w r w' [= _ <-]. reflexivity. Qed.

Lemma no_http_emit (ev : Event) :
  (forall r, ev <> HttpCall r) -> no_http (emit ev).
Proof.
  intros Hev w r w' [= _ <-]. simpl. rewrite http_calls_app.
  destruct ev; simpl; try apply app_nil_r. now destruct (Hev r0).
Qed.

Lemma no_http_set__credentials c : no_http (set__credentials c).
Proof. intros w r w' [= _ <-]. reflexivity. Qed.

Lemma no_http_set__client c : no_http (set__client c).
Proof. intros w r w' [= _ <-]. reflexivity. Qed.

Lemma no_http_set_token_file f : no_http (set_token_file f).
Proof. intros w r w' [= _ <-]. reflexivity. Qed.

Lemma no_http_bind {A B} (m : M A) (k : A -> M B) :
  no_http m -> (forall a, no_http (k a)) -> no_http (m ≫= k).
Proof.
  intros Hm Hk w r w'. unfold mbind, M_bind.
  destruct (m w) as [[a|e] w1] eqn:E.
  - intros H. apply Hk in H. rewrite H. eapply Hm; eauto.
  - intros [= _ <-]. eapply Hm; eauto.
Qed.

Lemma no_http_try_except {A} (m : M A) (h : exn -> M A) :
  no_http m -> (forall e, no_http (h e)) -> no_http (try_except m h).
Proof.
  intros Hm Hh w r w'. unfold try_except.
  destruct (m w) as [[a|e] w1] eqn:E.
  - intros [= _ <-]. eapply Hm; eauto.
  - intros H. apply Hh in H. rewrite H. eapply Hm; eauto.
Qed.

Create HintDb no_http.
#[local] Hint Resolve @no_http_ret @no_http_raise no_http_get_world
  no_http_set__credentials no_http_set__client no_http_set_token_file
  : no_http.

Ltac no_http_step :=
  match goal with
  | |- no_http (_ ≫= _) => apply no_http_bind; [|intros ?]
  | |- no_http (try_except _ _) => apply no_http_try_except; [|intros ?]
  | |- no_http (emit _) => apply no_http_emit; intros ?; discriminate
  | |- no_http (if ?b then _ else _) => destruct b
  | |- no_http (match ?x with _ => _ end) => destruct x
  | |- no_http _ => solve [auto with no_http]
  end.

Lemma no_http_get_credentials (env : Env) : no_http (Auth.get_credentials env).
Proof.
  unfold Auth.get_credentials, Auth.get_credentials_uncached,
    Auth.os_path_exists_TOKEN_PATH, Auth.from_authorized_user_file,
    Auth.refresh, Auth._get_new_credentials, Auth._save_token.
  repeat no_http_step.
Qed.

Lemma no_http_get_auth_headers (env : Env) : no_http (Auth.get_auth_headers env).
Proof.
  unfold Auth.get_auth_headers.
  apply no_http_bind; [apply no_http_get_credentials | intros; auto with no_http].
Qed.

Lemma no_http__get_client (env : Env) (proxy : bool) :
  no_http (Client._get_client env proxy).
Proof.
  unfold Client._get_client.
  apply no_http_bind; [auto with no_http|]. intros w0.
  destruct (_client w0); [auto with no_http|].
  apply no_http_bind; [apply no_http_get_auth_headers|]. intros h.
  repeat no_http_step.
Qed.

Lemma no_http_authenticate (env : Env) : no_http (authenticate env).
Proof.
  unfold authenticate.
  apply no_http_bind; [apply no_http__get_client|].
  intros _. apply no_http_get_auth_headers.
Qed.

(** *** What [request] does after the headers are in hand *)

Lemma supported_cases (method : string) :
  supported method = true ->
  method = "GET" \/ method = "POST" \/ method = "PUT" \/ method = "DELETE".
Proof.
  unfold supported. intros H.
  repeat (apply orb_prop in H; destruct H as [H|H]);
    apply String.eqb_eq in H; auto.
Qed.

Lemma request_authenticate_fails :
  forall env base_url method endpoint params data headers w e w1,
    authenticate env w = (Raise e, w1) ->
    Client.request env base_url method endpoint params data headers w
      = (Raise e, w1).
Proof.
  intros env base_url method endpoint params data headers w e w1.
  unfold authenticate, Client.request.
  unfold mbind at 1 2. unfold M_bind at 1 2.
  unfold mbind at 1. unfold M_bind at 1.
  destruct (Client._get_client env false w) as [[c|e0] w0].
  - unfold mbind at 1. unfold M_bind at 1.
    destruct (Auth.get_auth_headers env w0) as [[h|e1] w2]; [discriminate|].
    intros [= <- <-]. reflexivity.
  - intros [= <- <-]. reflexivity.
Qed.

Lemma request_supported :
  forall env base_url method endpoint params data headers w auth_headers w1,
    supported method = true ->
    authenticate env w = (Ok auth_headers, w1) ->
    let req := issued method (base_url ++ "/" ++ endpoint)
                 (Client.update_headers auth_headers headers) params data in
    Client.request env base_url method endpoint params data headers w =
    match transport env (trace w1) req with
    | Responded resp =>
        if is_2xx (resp_status resp) then
          match resp_json resp with
          | Some j => (Ok j, record (HttpCall req) w1)
          | None => (Raise (new JSONDecodeError "Expecting value"),
                     record (HttpCall req) w1)
          end
        else
          (Raise (mk_exn GmailAPIError
                    ("HTTP error for " ++ resp_url resp ++ " - "
                     ++ str_int (resp_status resp) ++ " - " ++ resp_text resp)
                    (Some (resp_status resp)) (Some (resp_text resp)) None),
           record (HttpCall req) w1)
    | TransportFailed url msg =>
        (Raise (new GmailRequestError ("Request error for " ++ url ++ ": " ++ msg)),
         record (HttpCall req) w1)
    | CallRaised e => (Raise (converted e), record (HttpCall req) w1)
    end.
Proof.
  intros env base_url method endpoint params data headers w auth_headers w1 Hs.
  unfold authenticate, Client.request.
  unfold mbind at 1 2. unfold M_bind at 1 2.
  unfold mbind at 1. unfold M_bind at 1.
  destruct (Client._get_client env false w) as [[c|e0] w0]; [|discriminate].
  unfold mbind at 1. unfold M_bind at 1.
  destruct (Auth.get_auth_headers env w0) as [[h|e1] w2]; [|discriminate].
  intros [= <- <-].
  apply supported_cases in Hs.
  destruct Hs as [-> | [-> | [-> | ->]]]; cbn [String.eqb Ascii.eqb Bool.eqb];
    cbv zeta; unfold issued; cbn [String.eqb Ascii.eqb Bool.eqb orb];
    unfold Client.send, Client.raise_for_status, Client.response_json, is_2xx;
    unfold_M; unfold record;
    (match goal with
     | |- context [transport env ?t ?r] =>
         destruct (transport env t r) as [resp|u m|e]
     end;
     [ cbn; destruct (_ && _); cbn; try destruct (resp_json resp); reflexivity
     | cbn; reflexivity
     | unfold converted; cbn -[isinstance];
       destruct (isinstance e HTTPStatusError); [reflexivity|];
       destruct (isinstance e HttpxRequestError); reflexivity ]).
Qed.

Lemma request_unsupported :
  forall env base_url method endpoint params data headers w auth_headers w1,
    supported method = false ->
    authenticate env w = (Ok auth_headers, w1) ->
    Client.request env base_url method endpoint params data headers w
      = (Raise (new ValueError ("Unsupported HTTP method: " ++ method)), w1).
Proof.
  intros env base_url method endpoint params data headers w auth_headers w1 Hs.
  unfold authenticate, Client.request.
  unfold mbind at 1 2. unfold M_bind at 1 2.
  unfold mbind at 1. unfold M_bind at 1.
  destruct (Client._get_client env false w) as [[c|e0] w0]; [|discriminate].
  unfold mbind at 1. unfold M_bind at 1.
  destruct (Auth.get_auth_headers env w0) as [[h|e1] w2]; [|discriminate].
  intros [= <- <-].
  unfold supported in Hs.
  repeat (apply orb_false_elim in Hs; destruct Hs as [Hs ?]).
  repeat match goal with H : String.eqb _ _ = false |- _ => rewrite H; clear H end.
  reflexivity.
Qed.

(** C3.  Take a call that is issued: the method is one of the four and the
    authorization headers were obtained.  If the transport answers with a
    status outside 200..299, [request] raises [GmailAPIError] whose
    [status_code] and [response] are the status and the body text of that
    very response.  If the transport fails without a response, [request]
    raises [GmailRequestError], which is not a [GmailAPIError]. *)
Theorem request_failure_taxonomy :
  forall env base_url method endpoint params data headers w auth_headers w1,
    supported method = true ->
    authenticate env w = (Ok auth_headers, w1) ->
    let req := issued method (base_url ++ "/" ++ endpoint)
                 (Client.update_headers auth_headers headers) params data in
    (forall resp,
        transport env (trace w1) req = Responded resp ->
        is_2xx (resp_status resp) = false ->
        exists e w',
          Client.request env base_url method endpoint params data headers w
            = (Raise e, w')
          /\ cls e = GmailAPIError
          /\ status_code e = Some (resp_status resp)
          /\ response e = Some (resp_text resp))
    /\
    (forall url msg,
        transport env (trace w1) req = TransportFailed url msg ->
        exists e w',
          Client.request env base_url method endpoint params data headers w
            = (Raise e, w')
          /\ cls e = GmailRequestError
          /\ isinstance e GmailAPIError = false).
Proof.
  intros env base_url method endpoint params data headers w auth_headers w1 Hs Ha req.
  pose proof (request_supported env base_url method endpoint params data headers
                w auth_headers w1 Hs Ha) as Hreq.
  cbv zeta in Hreq. fold req in Hreq.
  split.
  - intros resp Ht H2. rewrite Ht, H2 in Hreq.
    eexists _, _. split; [exact Hreq|]. auto.
  - intros url msg Ht. rewrite Ht in Hreq.
    eexists _, _. split; [exact Hreq|]. auto.
Qed.

(** A 404 answer to a GET, and a connection failure. *)
Lemma request_failure_taxonomy_witness :
  (exists e w',
      Client.request (env_with true (respond 404 "Not Found" None))
        "https://gmail.googleapis.com/gmail/v1/users/me" "GET" "messages"
        None None None logged_in_world = (Raise e, w')
      /\ cls e = GmailAPIError
      /\ status_code e = Some 404
      /\ response e = Some "Not Found")
  /\
  (exists e w',
      Client.request (env_with true (fun r => TransportFailed (req_url r) "Connection refused"))
        "https://gmail.googleapis.com/gmail/v1/users/me" "GET" "messages"
        None None None logged_in_world = (Raise e, w')
      /\ cls e = GmailRequestError
      /\ isinstance e GmailAPIError = false).
Proof.
  split.
  - pose proof (request_failure_taxonomy
                  (env_with true (respond 404 "Not Found" None))
                  "https://gmail.googleapis.com/gmail/v1/users/me" "GET" "messages"
                  None None None logged_in_world _ _ eq_refl eq_refl) as [H _].
    apply (H _ eq_refl eq_refl).
  - pose proof (request_failure_taxonomy
                  (env_with true (fun r => TransportFailed (req_url r) "Connection refused"))
                  "https://gmail.googleapis.com/gmail/v1/users/me" "GET" "messages"
                  None None None logged_in_world _ _ eq_refl eq_refl) as [_ H].
    apply (H _ _ eq_refl).
Defined.

Lemma ready_record (env : Env) (ev : Event) (w : World) :
  ready env w -> ready env (record ev w).
Proof. intros (c & cl & H1 & H2 & H3). now exists c, cl. Qed.


Lemma authenticate_ready (env : Env) (w : World) :
  ready env w ->
  authenticate env w = (Ok (auth_headers_of (credential_of w)), w).
Proof.
  intros (c & cl & H1 & H2 & H3).
  unfold authenticate, Client._get_client, Auth.get_auth_headers.
  rewrite !bind_eq. unfold get_world. rewrite H3, ret_eq, bind_eq.
  rewrite get_credentials_eq, H1, H2. unfold credential_of. rewrite H1.
  reflexivity.
Qed.

Lemma _get_client_eq (env : Env) (proxy : bool) (w : World) :
  Client._get_client env proxy w
  = match _client w with
    | Some cl => (Ok cl, w)
    | None =>
        match Auth.get_auth_headers env w with
        | (Ok h, w0) =>
            let cl :=
              {| client_headers := h;
                 client_proxies :=
                   if proxy then
                     match HTTP_PROXY env with
                     | Some proxy_url =>
                         if truthy_str proxy_url then
                           Some (<["http://" := proxy_url]>
                                   (<["https://" := proxy_url]> ∅))
                         else None
                     | None => None
                     end
                   else None |} in
            (Ok cl, {| _credentials := _credentials w0; _client := Some cl;
                       token_file := token_file w0;
                       trace := (trace w0 ++ [ClientCreated cl])%list |})
        | (Raise e, w0) => (Raise e, w0)
        end
    end.
Proof.
  unfold Client._get_client. rewrite bind_eq. unfold get_world.
  destruct (_client w) as [cl|]; [reflexivity|].
  rewrite bind_eq.
  destruct (Auth.get_auth_headers env w) as [[h|e] w0]; reflexivity.
Qed.

(** *** When the headers cannot be had *)

Lemma get_auth_headers_failure (env : Env) (w w' : World) (e : exn) :
  Auth.get_auth_headers env w = (Raise e, w') ->
  cls e = GmailCredentialsError \/ cls e = GmailTokenError
  \/ token_file w' = Some (Raise e).
Proof.
  unfold Auth.get_auth_headers. rewrite bind_eq.
  destruct (Auth.get_credentials env w) as [[c|e0] w0] eqn:E; [discriminate|].
  intros [= <- <-].
  apply get_credentials_failure_cases in E as [[[H _]|H] [_ Hf]].
  - destruct H; auto.
  - right; right. now rewrite Hf.
Qed.

Lemma authenticate_failure (env : Env) (w w' : World) (e : exn) :
  authenticate env w = (Raise e, w') ->
  cls e = GmailCredentialsError \/ cls e = GmailTokenError
  \/ token_file w' = Some (Raise e).
Proof.
  unfold authenticate. rewrite bind_eq, _get_client_eq.
  destruct (_client w) as [cl|].
  - apply get_auth_headers_failure.
  - destruct (Auth.get_auth_headers env w) as [[h0|e0] w0] eqn:E.
    + cbv beta iota zeta. apply get_auth_headers_failure.
    + intros [= <- <-]. now apply get_auth_headers_failure in E.
Qed.

(** C5 as stated does not hold.  Take a token file that holds an expired
    credential with a refresh token, and a token endpoint that rejects the
    refresh.  With the unsupported method [PATCH], [request] fails with
    [GmailTokenError], which is not a [ValueError], and it fails after a
    network call, the refresh, has been made. *)
Lemma unsupported_method_not_always_ValueError :
  ~ (forall env base_url method endpoint params data headers w,
        supported method = false ->
        exists e w',
          Client.request env base_url method endpoint params data headers w
            = (Raise e, w')
          /\ isinstance e ValueError = true
          /\ network_events (trace w') = network_events (trace w)).
Proof.
  intros H.
  destruct (H (refusing_refresh (env_with true (respond 200 "" None)))
              "https://gmail.googleapis.com/gmail/v1/users/me" "PATCH" "messages"
              None None None stale_world eq_refl) as (e & w' & Heq & Hi & Hn).
  vm_compute in Heq. injection Heq as <- <-. discriminate Hi.
Qed.

Example unsupported_method_refresh_refused :
  let run := Client.request (refusing_refresh (env_with true (respond 200 "" None)))
               "https://gmail.googleapis.com/gmail/v1/users/me" "PATCH" "messages"
               None None None stale_world in
  fst run = Raise (new GmailTokenError "Failed to refresh token: invalid_grant")
  /\ network_events (trace (snd run)) = [OAuthRefresh stale_credentials]
  /\ network_events (trace stale_world) = [].
Proof. vm_compute. auto. Qed.

Example unsupported_method_unauthenticated :
  fst (Client.request (env_with false (respond 200 "" None))
         "https://gmail.googleapis.com/gmail/v1/users/me" "PATCH" "messages"
         None None None empty_world)
  = Raise (new GmailCredentialsError
             "Credentials file missing: backend/credentials.json").
Proof. vm_compute. reflexivity. Qed.

(** C5, amended.  For a method outside GET, POST, PUT and DELETE, [request]
    makes no call on the HTTP client.  All it does is to obtain the client
    and the authorization headers, which may itself go over the network (a
    token refresh, the interactive authorization).  If that succeeds it
    raises [ValueError]; with a valid cached credential and the client in
    place, it does so with nothing having happened at all.  If it fails,
    that failure is raised instead: a [GmailCredentialsError], a
    [GmailTokenError], or the error met when loading the token file, as it
    is. *)
Theorem unsupported_method_no_request :
  forall env base_url method endpoint params data headers w,
    supported method = false ->
    http_calls (trace (snd (Client.request env base_url method endpoint
                              params data headers w)))
      = http_calls (trace w)
    /\ (forall auth_headers w1,
           authenticate env w = (Ok auth_headers, w1) ->
           Client.request env base_url method endpoint params data headers w
             = (Raise (new ValueError ("Unsupported HTTP method: " ++ method)), w1)
           /\ isinstance (new ValueError ("Unsupported HTTP method: " ++ method))
                ValueError = true)
    /\ (ready env w ->
        Client.request env base_url method endpoint params data headers w
          = (Raise (new ValueError ("Unsupported HTTP method: " ++ method)), w))
    /\ (forall e w1,
           authenticate env w = (Raise e, w1) ->
           Client.request env base_url method endpoint params data headers w
             = (Raise e, w1)
           /\ (cls e = GmailCredentialsError \/ cls e = GmailTokenError
               \/ token_file w1 = Some (Raise e))).
Proof.
  intros env base_url method endpoint params data headers w Hs.
  split; [|split; [|split]].
  - destruct (authenticate env w) as [[h|e] w1] eqn:Ha.
    + rewrite (request_unsupported _ _ _ _ _ _ _ _ _ _ Hs Ha). simpl.
      eapply no_http_authenticate; eauto.
    + rewrite (request_authenticate_fails _ _ _ _ _ _ _ _ _ _ Ha). simpl.
      eapply no_http_authenticate; eauto.
  - intros h w1 Ha. split; [|reflexivity].
    now apply request_unsupported with (auth_headers := h).
  - intros Hr.
    apply request_unsupported with (auth_headers := auth_headers_of (credential_of w));
      [exact Hs | now apply authenticate_ready].
  - intros e w1 Ha. split; [now apply request_authenticate_fails|].
    now apply authenticate_failure in Ha.
Qed.
Lemma unsupported_method_no_request_witness :
  http_calls (trace (snd (Client.request (env_with true (respond 200 "" None))
                            "https://gmail.googleapis.com/gmail/v1/users/me"
                            "PATCH" "messages" None None None logged_in_world)))
    = http_calls (trace logged_in_world).
Proof.
  apply (unsupported_method_no_request (env_with true (respond 200 "" None))
           "https://gmail.googleapis.com/gmail/v1/users/me"
           "PATCH" "messages" None None None logged_in_world eq_refl).
Defined.

End ClientFacts.

(** ** Resource handlers *)

Module ResourceFacts.
Import Examples.
Import AuthFacts.
Import ClientFacts.
Import Resources.

Lemma isinstance_Exception (e : exn) : isinstance e Exception = true.
Proof. unfold isinstance. destruct (cls e); reflexivity. Qed.

Lemma except_Exception_raise {A} (body : M A) (msg : exn -> string) w e w' :
  body w = (Raise e, w') ->
  except_Exception body msg w = (Raise (new GmailResourceError (msg e)), w').
Proof.
  intros H. unfold except_Exception, try_except. rewrite H.
  rewrite isinstance_Exception. reflexivity.
Qed.

Lemma except_Exception_ok {A} (body : M A) (msg : exn -> string) w a w' :
  body w = (Ok a, w') -> except_Exception body msg w = (Ok a, w').
Proof. intros H. unfold except_Exception, try_except. now rewrite H. Qed.

Lemma except_Exception_class {A} (body : M A) (msg : exn -> string) w e w' :
  except_Exception body msg w = (Raise e, w') -> cls e = GmailResourceError.
Proof.
  unfold except_Exception, try_except.
  destruct (body w) as [[a|e0] w0]; [discriminate|].
  rewrite isinstance_Exception. intros [= <- _]. reflexivity.
Qed.

Lemma except_Exception_world {A} (body : M A) (msg : exn -> string) w :
  snd (except_Exception body msg w) = snd (body w).
Proof.
  unfold except_Exception, try_except.
  destruct (body w) as [[a|e0] w0]; [reflexivity|].
  rewrite isinstance_Exception. reflexivity.
Qed.

(** C4.  In each of the six handler operations, whatever exception the
    client call raises (an [APIError], a [RequestError], or any other), the
    handler raises [GmailResourceError] built from the endpoint and [str(e)];
    more generally every exception that leaves a handler has class
    [GmailResourceError], which is neither [GmailAPIError] nor
    [GmailRequestError]. *)
Theorem handlers_wrap_in_ResourceError :
  forall env config base_url endpoint list_key resource_id params data headers w,
    (* the client error is re-wrapped *)
    (forall e w',
        Client.get env base_url endpoint params headers w = (Raise e, w') ->
        base_get_all env base_url endpoint list_key params headers w
        = (Raise (new GmailResourceError
                    ("Failed to get " ++ endpoint ++ ": " ++ str_exn e)), w'))
    /\ (forall e w',
           Client.get env base_url (endpoint ++ "/" ++ resource_id) params headers w
           = (Raise e, w') ->
           base_get_by_id env base_url endpoint resource_id params headers w
           = (Raise (new GmailResourceError
                       ("Failed to get " ++ endpoint ++ "/" ++ resource_id
                        ++ ": " ++ str_exn e)), w'))
    /\ (forall e w',
           Client.post env base_url endpoint data headers w = (Raise e, w') ->
           base_create env base_url endpoint data headers w
           = (Raise (new GmailResourceError
                       ("Failed to create " ++ endpoint ++ ": " ++ str_exn e)), w'))
    /\ (forall e w',
           Client.put env base_url (endpoint ++ "/" ++ resource_id) data headers w
           = (Raise e, w') ->
           base_update env base_url endpoint resource_id data headers w
           = (Raise (new GmailResourceError
                       ("Failed to update " ++ endpoint ++ "/" ++ resource_id
                        ++ ": " ++ str_exn e)), w'))
    /\ (forall e w',
           Client.delete env base_url
             (endpoint ++ "/" ++ resource_id ++ "/" ++ Config.TRASH_SUFFIX config)
             headers w = (Raise e, w') ->
           base_delete env config base_url endpoint resource_id headers w
           = (Raise (new GmailResourceError
                       ("Failed to delete " ++ endpoint ++ "/" ++ resource_id
                        ++ ": " ++ str_exn e)), w'))
    /\ (forall e w',
           Client.post env base_url
             (endpoint ++ "/" ++ resource_id ++ "/" ++ Config.UNTRASH_SUFFIX config)
             (JObj ∅) headers w = (Raise e, w') ->
           base_undelete env config base_url endpoint resource_id headers w
           = (Raise (new GmailResourceError
                       ("Failed to undelete " ++ endpoint ++ "/" ++ resource_id
                        ++ ": " ++ str_exn e)), w'))
    (* nothing but ResourceError leaves a handler *)
    /\ (forall e w',
           base_get_all env base_url endpoint list_key params headers w = (Raise e, w')
           \/ base_get_by_id env base_url endpoint resource_id params headers w = (Raise e, w')
           \/ base_create env base_url endpoint data headers w = (Raise e, w')
           \/ base_update env base_url endpoint resource_id data headers w = (Raise e, w')
           \/ base_delete env config base_url endpoint resource_id headers w = (Raise e, w')
           \/ base_undelete env config base_url endpoint resource_id headers w = (Raise e, w') ->
           cls e = GmailResourceError
           /\ isinstance e GmailAPIError = false
           /\ isinstance e GmailRequestError = false).
Proof.
  intros env config base_url endpoint list_key resource_id params data headers w.
  repeat split.
  - intros e w' H. unfold base_get_all.
    apply except_Exception_raise with (msg := fun e => _).
    unfold mbind, M_bind. now rewrite H.
  - intros e w' H. unfold base_get_by_id.
    now apply except_Exception_raise with (msg := fun e => _).
  - intros e w' H. unfold base_create.
    now apply except_Exception_raise with (msg := fun e => _).
  - intros e w' H. unfold base_update.
    now apply except_Exception_raise with (msg := fun e => _).
  - intros e w' H. unfold base_delete.
    now apply except_Exception_raise with (msg := fun e => _).
  - intros e w' H. unfold base_undelete.
    apply except_Exception_raise with (msg := fun e => _).
    unfold mbind, M_bind. now rewrite H.
  - destruct H as [H|[H|[H|[H|[H|H]]]]]; now apply except_Exception_class in H.
  - destruct H as [H|[H|[H|[H|[H|H]]]]];
      apply except_Exception_class in H; unfold isinstance; now rewrite H.
  - destruct H as [H|[H|[H|[H|[H|H]]]]];
      apply except_Exception_class in H; unfold isinstance; now rewrite H.
Qed.

(** A 404 on a listing surfaces as [GmailResourceError]. *)
Lemma handlers_wrap_in_ResourceError_witness :
  exists msg w',
    base_get_all (env_with true (respond 404 "Not Found" None))
      "https://gmail.googleapis.com/gmail/v1/users/me" "messages" "messages"
      None None logged_in_world
    = (Raise (new GmailResourceError msg), w').
Proof.
  eexists _, _.
  destruct (handlers_wrap_in_ResourceError
              (env_with true (respond 404 "Not Found" None)) Config.default
              "https://gmail.googleapis.com/gmail/v1/users/me" "messages" "messages"
              "m1" None JNull None logged_in_world) as [H _].
  apply H. vm_compute. reflexivity.
Defined.

(** C2.  For messages, drafts and threads alike: when the GET on the
    resource's endpoint succeeds with a JSON object that lacks the
    resource's list key, [get_all] (plain listing) returns the empty list,
    and so does [BaseGmailResource.get_all] for any endpoint and key. *)
Theorem get_all_missing_key_is_empty :
  forall env config base_url params headers w m w',
    (forall self,
        is_subclass self ->
        Client.get env base_url (endpoint_of config self) params headers w
          = (Ok (JObj m), w') ->
        m !! list_key_of self = None ->
        get_all env config base_url self params headers false w = (Ok (JArr []), w'))
    /\ (forall endpoint list_key,
           Client.get env base_url endpoint params headers w = (Ok (JObj m), w') ->
           m !! list_key = None ->
           base_get_all env base_url endpoint list_key params headers w
             = (Ok (JArr []), w')).
Proof.
  intros env config base_url params headers w m w'.
  assert (Hbase : forall endpoint list_key,
             Client.get env base_url endpoint params headers w = (Ok (JObj m), w') ->
             m !! list_key = None ->
             base_get_all env base_url endpoint list_key params headers w
             = (Ok (JArr []), w')).
  { intros endpoint list_key Hget Hkey. unfold base_get_all.
    apply except_Exception_ok. unfold mbind, M_bind. rewrite Hget.
    unfold json_get, dict_get. rewrite Hkey. reflexivity. }
  split; [|exact Hbase].
  intros self Hself Hget Hkey.
  unfold get_all, sub_get_all. now apply Hbase.
Qed.

(** A listing of an empty mailbox: the body is [{"resultSizeEstimate": 0}]. *)
Lemma get_all_missing_key_is_empty_witness :
  fst (get_all (env_with true
                  (respond 200 "{}" (Some (JObj (<["resultSizeEstimate" := JNum 0]> ∅)))))
         Config.default "https://gmail.googleapis.com/gmail/v1/users/me"
         GmailDrafts None None false logged_in_world)
  = Ok (JArr []).
Proof.
  destruct (get_all_missing_key_is_empty
              (env_with true
                 (respond 200 "{}" (Some (JObj (<["resultSizeEstimate" := JNum 0]> ∅)))))
              Config.default "https://gmail.googleapis.com/gmail/v1/users/me"
              None None logged_in_world (<["resultSizeEstimate" := JNum 0]> ∅)
              (snd (Client.get
                      (env_with true
                         (respond 200 "{}"
                            (Some (JObj (<["resultSizeEstimate" := JNum 0]> ∅)))))
                      "https://gmail.googleapis.com/gmail/v1/users/me"
                      "drafts" None None logged_in_world))) as [H _].
  rewrite (H GmailDrafts); [reflexivity | discriminate | vm_compute; reflexivity
                           | vm_compute; reflexivity].
Defined.

(** The call [self.get_all(endpoint, list_key, params=..., headers=...)]
    binds against the base signature and fails against the subclasses'. *)
Lemma bind_base_signature (endpoint list_key : string) (params headers : pyval) :
  bind_arguments "get_all" base_get_all_signature
    [PyStr endpoint; PyStr list_key] [("params", params); ("headers", headers)]
  = Ok [("endpoint", PyStr endpoint); ("list_key", PyStr list_key);
        ("params", params); ("headers", headers)].
Proof. reflexivity. Qed.

Lemma bind_sub_signature (endpoint list_key : string) (params headers : pyval) :
  bind_arguments "get_all" sub_get_all_signature
    [PyStr endpoint; PyStr list_key] [("params", params); ("headers", headers)]
  = Raise (new TypeError "get_all() got multiple values for argument 'params'").
Proof. reflexivity. Qed.

Lemma bound_get_all_sub_mismatch :
  forall env config base_url depth self endpoint list_key params headers,
    is_subclass self ->
    bound_get_all env config base_url (S depth) self
      [PyStr endpoint; PyStr list_key] [("params", params); ("headers", headers)]
    = raise (new TypeError "get_all() got multiple values for argument 'params'").
Proof.
  intros env config base_url depth self endpoint list_key params headers Hself.
  destruct self; [now destruct Hself | | |];
    cbn [bound_get_all get_all_signature]; rewrite bind_sub_signature; reflexivity.
Qed.

(** C6 fails on the code: with [details=True], [get_all] of each of the
    three handlers raises [TypeError] at its first step and leaves the world
    untouched, so no list request and no detail request is issued.
    [get_all_with_details] calls [self.get_all] with the arguments of
    [BaseGmailResource.get_all], but [self.get_all] is the subclass method,
    whose first two parameters are [params] and [headers]. *)
Theorem get_all_details_raises_TypeError :
  forall env config base_url self params headers w,
    is_subclass self ->
    get_all env config base_url self params headers true w
    = (Raise (new TypeError "get_all() got multiple values for argument 'params'"), w).
Proof.
  intros env config base_url self params headers w Hself.
  unfold get_all, sub_get_all, get_all_with_details.
  unfold mbind at 1. unfold M_bind at 1.
  rewrite (bound_get_all_sub_mismatch env config base_url
             (Nat.pred recursion_limit) self _ _ _ _ Hself).
  reflexivity.
Qed.

(** One stub in the mailbox, details requested. *)
Lemma get_all_details_raises_TypeError_witness :
  get_all (env_with true
             (respond 200 "" (Some (JObj (<["messages" :=
                 JArr [JObj (<["id" := JStr "m1"]> ∅)]]> ∅)))))
    Config.default "https://gmail.googleapis.com/gmail/v1/users/me"
    GmailMessages None None true logged_in_world
  = (Raise (new TypeError "get_all() got multiple values for argument 'params'"),
     logged_in_world).
Proof.
  apply (get_all_details_raises_TypeError _ _ _ GmailMessages). discriminate.
Defined.

(** After a supported [request], the trace has grown by exactly the call
    that was issued. *)
Lemma request_supported_http_calls :
  forall env base_url method endpoint params data headers w auth_headers w1,
    supported method = true ->
    authenticate env w = (Ok auth_headers, w1) ->
    http_calls (trace (snd (Client.request env base_url method endpoint
                              params data headers w)))
    = (http_calls (trace w)
       ++ [issued method (base_url ++ "/" ++ endpoint)
             (Client.update_headers auth_headers headers) params data])%list.
Proof.
  intros env base_url method endpoint params data headers w auth_headers w1 Hs Ha.
  rewrite (request_supported _ _ _ _ _ _ _ _ _ _ Hs Ha). cbv zeta.
  rewrite <- (no_http_authenticate env w _ _ Ha).
  destruct (transport env (trace w1) _) as [resp|u msg|e].
  - destruct (is_2xx (resp_status resp)); [destruct (resp_json resp)|];
      simpl; now rewrite http_calls_app.
  - simpl. now rewrite http_calls_app.
  - simpl. now rewrite http_calls_app.
Qed.

Lemma request_unauthenticated_http_calls :
  forall env base_url method endpoint params data headers w e w1,
    authenticate env w = (Raise e, w1) ->
    http_calls (trace (snd (Client.request env base_url method endpoint
                              params data headers w)))
    = http_calls (trace w).
Proof.
  intros env base_url method endpoint params data headers w e w1 Ha.
  rewrite (request_authenticate_fails _ _ _ _ _ _ _ _ _ _ Ha). simpl.
  eapply no_http_authenticate; eauto.
Qed.

Lemma bind_world {A B} (m : M A) (b : B) (w : World) :
  snd ((m;; mret b) w) = snd (m w).
Proof.
  unfold mbind, M_bind, mret, M_ret. now destruct (m w) as [[a|e] w1].
Qed.

(** C7.  With the package's configuration, for every endpoint and id:
    [delete] makes exactly one call on the transport, a DELETE to
    [<base>/<endpoint>/<id>/trash], and [undelete] exactly one, a POST to
    [<base>/<endpoint>/<id>/untrash]; when the authorization headers cannot
    be obtained neither makes any call. *)
Theorem delete_undelete_paths :
  forall env base_url endpoint resource_id headers w,
    (forall auth_headers w1,
        authenticate env w = (Ok auth_headers, w1) ->
        http_calls (trace (snd (base_delete env Config.default base_url
                                  endpoint resource_id headers w)))
        = (http_calls (trace w)
           ++ [{| req_method := "DELETE";
                  req_url := base_url ++ "/" ++ endpoint ++ "/" ++ resource_id
                             ++ "/trash";
                  req_headers := Client.update_headers auth_headers headers;
                  req_params := None; req_json := None |}])%list
        /\
        http_calls (trace (snd (base_undelete env Config.default base_url
                                  endpoint resource_id headers w)))
        = (http_calls (trace w)
           ++ [{| req_method := "POST";
                  req_url := base_url ++ "/" ++ endpoint ++ "/" ++ resource_id
                             ++ "/untrash";
                  req_headers := Client.update_headers auth_headers headers;
                  req_params := None; req_json := Some (JObj ∅) |}])%list)
    /\
    (forall e w1,
        authenticate env w = (Raise e, w1) ->
        http_calls (trace (snd (base_delete env Config.default base_url
                                  endpoint resource_id headers w)))
        = http_calls (trace w)
        /\
        http_calls (trace (snd (base_undelete env Config.default base_url
                                  endpoint resource_id headers w)))
        = http_calls (trace w)).
Proof.
  intros env base_url endpoint resource_id headers w.
  split.
  - intros auth_headers w1 Ha. split.
    + unfold base_delete. rewrite except_Exception_world.
      unfold Client.delete. rewrite bind_world.
      now rewrite (request_supported_http_calls env base_url "DELETE" _ _ _ _ _ _ _
                     eq_refl Ha).
    + unfold base_undelete. rewrite except_Exception_world.
      rewrite bind_world. unfold Client.post.
      now rewrite (request_supported_http_calls env base_url "POST" _ _ _ _ _ _ _
                     eq_refl Ha).
  - intros e w1 Ha. split.
    + unfold base_delete. rewrite except_Exception_world.
      unfold Client.delete. rewrite bind_world.
      now rewrite (request_unauthenticated_http_calls _ _ _ _ _ _ _ _ _ _ Ha).
    + unfold base_undelete. rewrite except_Exception_world.
      rewrite bind_world. unfold Client.post.
      now rewrite (request_unauthenticated_http_calls _ _ _ _ _ _ _ _ _ _ Ha).
Qed.

(** Trashing thread [t1] through [GmailThreads.delete]. *)
Lemma delete_undelete_paths_witness :
  map req_url
    (http_calls (trace (snd (delete (env_with true (respond 200 "{}" (Some (JObj ∅))))
                               Config.default
                               "https://gmail.googleapis.com/gmail/v1/users/me"
                               GmailThreads "t1" None logged_in_world))))
  = ["https://gmail.googleapis.com/gmail/v1/users/me/threads/t1/trash"].
Proof.
  unfold delete.
  destruct (delete_undelete_paths (env_with true (respond 200 "{}" (Some (JObj ∅))))
              "https://gmail.googleapis.com/gmail/v1/users/me"
              (endpoint_of Config.default GmailThreads) "t1" None logged_in_world)
    as [H _].
  destruct (H _ _ eq_refl) as [-> _]. reflexivity.
Defined.

End ResourceFacts.

(* ===================================================================== *)
(** ** Base64 *)

Module Base64Facts.
Import Base64 Alphabet.
Local Open Scope N_scope.

Lemma in_all_bytes (a : ascii) : In a all_bytes.
Proof.
  unfold all_bytes. rewrite <- (ascii_nat_embedding a).
  apply in_map, in_seq. pose proof (nat_ascii_bounded a). lia.
Qed.

Lemma for_all_bytes (P : ascii -> bool) :
  forallb P all_bytes = true -> forall a, P a = true.
Proof.
  intros H a. rewrite forallb_forall in H. apply H, in_all_bytes.
Qed.

Lemma for_all_byte_pairs (P : ascii -> ascii -> bool) :
  forallb (fun a => forallb (P a) all_bytes) all_bytes = true ->
  forall a b, P a b = true.
Proof.
  intros H a b. apply for_all_bytes with (P := P a).
  apply (for_all_bytes _ H).
Qed.

Lemma decodes_to_spec ch v :
  decodes_to ch v = true ->
  a2b ch = Some v /\ Ascii.eqb ch "=" = false /\ Ascii.eqb ch "-" = false
  /\ Ascii.eqb ch "_" = false /\ is_ascii ch = true.
Proof.
  unfold decodes_to. destruct (a2b ch) as [n|]; [|discriminate].
  rewrite !andb_true_iff, !negb_true_iff. intros [[[[H1 H2] H3] H4] H5].
  apply N.eqb_eq in H1. subst. auto.
Qed.

Lemma enc1_decodes a : decodes_to (enc1 a) (N.shiftr (N_of_ascii a) 2) = true.
Proof. revert a. apply for_all_bytes. vm_compute. reflexivity. Qed.

Lemma enc2_decodes a b : decodes_to (enc2 a b) (sextet2 a b) = true.
Proof. revert a b. apply for_all_byte_pairs. vm_compute. reflexivity. Qed.

Lemma enc3_decodes b c : decodes_to (enc3 b c) (sextet3 b c) = true.
Proof. revert b c. apply for_all_byte_pairs. vm_compute. reflexivity. Qed.

Lemma enc4_decodes c : decodes_to (enc4 c) (N.land (N_of_ascii c) 63) = true.
Proof. revert c. apply for_all_bytes. vm_compute. reflexivity. Qed.

Lemma byte1 a b :
  ascii_of_N (N.lor (N.shiftl (N.shiftr (N_of_ascii a) 2) 2)
                    (N.shiftr (sextet2 a b) 4)) = a.
Proof.
  apply Ascii.eqb_eq. revert a b.
  apply (for_all_byte_pairs (fun a b => Ascii.eqb (ascii_of_N _) a)).
  vm_compute. reflexivity.
Qed.

Lemma sextet2_low a b : N.land (sextet2 a b) 15 = N.shiftr (N_of_ascii b) 4.
Proof.
  apply N.eqb_eq. revert a b.
  apply (for_all_byte_pairs (fun a b => N.eqb (N.land (sextet2 a b) 15) _)).
  vm_compute. reflexivity.
Qed.

Lemma sextet3_high b c : N.shiftr (sextet3 b c) 2 = N.land (N_of_ascii b) 15.
Proof.
  apply N.eqb_eq. revert b c.
  apply (for_all_byte_pairs (fun b c => N.eqb (N.shiftr (sextet3 b c) 2) _)).
  vm_compute. reflexivity.
Qed.

Lemma byte2 b :
  ascii_of_N (N.lor (N.shiftl (N.shiftr (N_of_ascii b) 4) 4)
                    (N.land (N_of_ascii b) 15)) = b.
Proof.
  apply Ascii.eqb_eq. revert b.
  apply (for_all_bytes (fun b => Ascii.eqb (ascii_of_N _) b)).
  vm_compute. reflexivity.
Qed.

Lemma byte3 b c :
  ascii_of_N (N.lor (N.shiftl (N.land (sextet3 b c) 3) 6)
                    (N.land (N_of_ascii c) 63)) = c.
Proof.
  apply Ascii.eqb_eq. revert b c.
  apply (for_all_byte_pairs (fun b c => Ascii.eqb (ascii_of_N _) c)).
  vm_compute. reflexivity.
Qed.

Lemma b64encode_3 a b c rest :
  b64encode (String a (String b (String c rest)))
  = String (enc1 a) (String (enc2 a b) (String (enc3 b c)
      (String (enc4 c) (b64encode rest)))).
Proof. reflexivity. Qed.

Lemma b64encode_2 a b :
  b64encode (String a (String b ""))
  = String (enc1 a) (String (enc2 a b) (String (enc3 b "000") "=")).
Proof.
  cbn [b64encode]. unfold enc1, enc2, enc3.
  change (N.shiftr (N_of_ascii "000") 6) with 0. now rewrite N.lor_0_r.
Qed.

Lemma b64encode_1 a :
  b64encode (String a "") = String (enc1 a) (String (enc2 a "000") "==").
Proof.
  cbn [b64encode]. unfold enc1, enc2.
  change (N.shiftr (N_of_ascii "000") 4) with 0. now rewrite N.lor_0_r.
Qed.

(** The first character of a group, read at the start of a quad. *)
Lemma a2b_step0 ch v rest l p :
  decodes_to ch v = true ->
  a2b_base64 (String ch rest) 0 l p = a2b_base64 rest 1 v 0.
Proof.
  intros H. apply decodes_to_spec in H as (A & E & _).
  cbn [a2b_base64]. now rewrite E, A.
Qed.

Lemma a2b_step1 ch v rest l p :
  decodes_to ch v = true ->
  a2b_base64 (String ch rest) 1 l p
  = cons_ok (ascii_of_N (N.lor (N.shiftl l 2) (N.shiftr v 4)))
      (a2b_base64 rest 2 (N.land v 15) 0).
Proof.
  intros H. apply decodes_to_spec in H as (A & E & _).
  cbn [a2b_base64]. now rewrite E, A.
Qed.

Lemma a2b_step2 ch v rest l p :
  decodes_to ch v = true ->
  a2b_base64 (String ch rest) 2 l p
  = cons_ok (ascii_of_N (N.lor (N.shiftl l 4) (N.shiftr v 2)))
      (a2b_base64 rest 3 (N.land v 3) 0).
Proof.
  intros H. apply decodes_to_spec in H as (A & E & _).
  cbn [a2b_base64]. now rewrite E, A.
Qed.

Lemma a2b_step3 ch v rest l p :
  decodes_to ch v = true ->
  a2b_base64 (String ch rest) 3 l p
  = cons_ok (ascii_of_N (N.lor (N.shiftl l 6) v)) (a2b_base64 rest 0 0 0).
Proof.
  intros H. apply decodes_to_spec in H as (A & E & _).
  cbn [a2b_base64]. now rewrite E, A.
Qed.

(** Decoding undoes encoding. *)
Lemma a2b_base64_b64encode (s : string) (l p : N) :
  a2b_base64 (b64encode s) 0 l p = Ok s.
Proof.
  revert l p.
  assert (H : forall s, (forall l p, a2b_base64 (b64encode s) 0 l p = Ok s)
                        /\ (forall a l p, a2b_base64 (b64encode (String a s)) 0 l p
                                          = Ok (String a s))
                        /\ (forall a b l p,
                               a2b_base64 (b64encode (String a (String b s))) 0 l p
                               = Ok (String a (String b s)))).
  { clear s. intros s. induction s as [|c s (IH0 & IH1 & IH2)].
    - split; [|split]; intros.
      + reflexivity.
      + rewrite b64encode_1.
        rewrite (a2b_step0 _ _ _ _ _ (enc1_decodes a)).
        rewrite (a2b_step1 _ _ _ _ _ (enc2_decodes a "000")).
        rewrite byte1. reflexivity.
      + rewrite b64encode_2.
        rewrite (a2b_step0 _ _ _ _ _ (enc1_decodes a)).
        rewrite (a2b_step1 _ _ _ _ _ (enc2_decodes a b)).
        rewrite (a2b_step2 _ _ _ _ _ (enc3_decodes b "000")).
        rewrite byte1, sextet2_low, sextet3_high, byte2. reflexivity.
    - split; [|split]; intros.
      + apply IH1.
      + apply IH2.
      + rewrite b64encode_3.
        rewrite (a2b_step0 _ _ _ _ _ (enc1_decodes a)).
        rewrite (a2b_step1 _ _ _ _ _ (enc2_decodes a b)).
        rewrite (a2b_step2 _ _ _ _ _ (enc3_decodes b c)).
        rewrite (a2b_step3 _ _ _ _ _ (enc4_decodes c)).
        rewrite byte1, sextet2_low, sextet3_high, byte2, byte3, IH0.
        reflexivity. }
  intros l p. destruct (H s) as [H0 _]. apply H0.
Qed.

Lemma b64decode_b64encode (s : string) : b64decode (b64encode s) = Ok s.
Proof. apply a2b_base64_b64encode. Qed.

Lemma decodes_to_standard ch v : decodes_to ch v = true -> standard_char ch = true.
Proof.
  intros H. apply decodes_to_spec in H as (_ & _ & H1 & H2 & H3).
  unfold standard_char. now rewrite H1, H2, H3.
Qed.

Lemma b64encode_standard (s : string) : standard (b64encode s) = true.
Proof.
  assert (H : forall s, standard (b64encode s) = true
                        /\ (forall a, standard (b64encode (String a s)) = true)
                        /\ (forall a b, standard (b64encode (String a (String b s))) = true)).
  { clear s. intros s. induction s as [|c s (IH0 & IH1 & IH2)].
    - split; [|split]; intros.
      + reflexivity.
      + rewrite b64encode_1. cbn [standard].
        rewrite (decodes_to_standard _ _ (enc1_decodes a)).
        rewrite (decodes_to_standard _ _ (enc2_decodes a "000")). reflexivity.
      + rewrite b64encode_2. cbn [standard].
        rewrite (decodes_to_standard _ _ (enc1_decodes a)).
        rewrite (decodes_to_standard _ _ (enc2_decodes a b)).
        rewrite (decodes_to_standard _ _ (enc3_decodes b "000")). reflexivity.
    - split; [|split]; intros.
      + apply IH1.
      + apply IH2.
      + rewrite b64encode_3. cbn [standard].
        rewrite (decodes_to_standard _ _ (enc1_decodes a)).
        rewrite (decodes_to_standard _ _ (enc2_decodes a b)).
        rewrite (decodes_to_standard _ _ (enc3_decodes b c)).
        rewrite (decodes_to_standard _ _ (enc4_decodes c)). exact IH0. }
  destruct (H s) as [H0 _]. exact H0.
Qed.

Lemma standard_all_ascii (s : string) : standard s = true -> all_ascii s = true.
Proof.
  induction s as [|c s IH]; [reflexivity|]. cbn [standard all_ascii].
  unfold standard_char. rewrite !andb_true_iff. intros [[_ H] Hs]. auto.
Qed.

Lemma from_to_urlsafe (c : ascii) :
  standard_char c = true -> from_urlsafe (to_urlsafe c) = c.
Proof.
  intros H. apply Ascii.eqb_eq. revert c H.
  assert (forall c, implb (standard_char c) (Ascii.eqb (from_urlsafe (to_urlsafe c)) c) = true) as H.
  { apply for_all_bytes. vm_compute. reflexivity. }
  intros c Hc. specialize (H c). now rewrite Hc in H.
Qed.

Lemma translate_standard (c : ascii) :
  standard_char c = true ->
  (if Ascii.eqb (if Ascii.eqb c "-" then "+"%char else c) "_" then "/"%char
   else if Ascii.eqb c "-" then "+"%char else c) = c.
Proof.
  intros Hc.
  assert (forall c, implb (standard_char c)
                      (Ascii.eqb (if Ascii.eqb (if Ascii.eqb c "-" then "+"%char else c) "_"
                                  then "/"%char
                                  else if Ascii.eqb c "-" then "+"%char else c) c) = true) as H.
  { apply for_all_bytes. vm_compute. reflexivity. }
  specialize (H c). rewrite Hc in H. now apply Ascii.eqb_eq.
Qed.

Lemma replace_undoes_urlsafe (s : string) :
  standard s = true ->
  replace_char "-" "+" (replace_char "_" "/"
    (replace_char "/" "_" (replace_char "+" "-" s))) = s.
Proof.
  induction s as [|c s IH]; [reflexivity|].
  cbn [standard replace_char]. rewrite andb_true_iff. intros [Hc Hs].
  rewrite (IH Hs). f_equal. now apply (from_to_urlsafe c).
Qed.

Lemma translate_keeps_standard (s : string) :
  standard s = true ->
  replace_char "_" "/" (replace_char "-" "+" s) = s.
Proof.
  induction s as [|c s IH]; [reflexivity|].
  cbn [standard replace_char]. rewrite andb_true_iff. intros [Hc Hs].
  rewrite (IH Hs). f_equal. now apply translate_standard.
Qed.

(** [parse_message] after [urlsafe_b64encode]: the bytes come back, and
    they are parsed if they are ASCII. *)
Lemma parse_message_urlsafe_b64encode (data : string) :
  all_ascii data = true ->
  Messages.parse_message (urlsafe_b64encode data)
  = Ok (Parser.message_from_string data).
Proof.
  intros Hdata. unfold Messages.parse_message, urlsafe_b64encode.
  rewrite (replace_undoes_urlsafe _ (b64encode_standard data)).
  unfold encode_ASCII.
  rewrite (standard_all_ascii _ (b64encode_standard data)).
  unfold urlsafe_b64decode.
  rewrite (translate_keeps_standard _ (b64encode_standard data)).
  rewrite b64decode_b64encode. unfold decode_ASCII. now rewrite Hdata.
Qed.

End Base64Facts.

(* ===================================================================== *)
(** ** Strings and lines *)

Module StringFacts.
Import Email Shape.
#[local] Arguments String.append !s1 s2 : simpl nomatch.

Lemma sapp_assoc (a b c : string) : (a ++ b) ++ c = a ++ (b ++ c).
Proof. induction a as [|x a IH]; [reflexivity|]. cbn. now rewrite IH. Qed.

Lemma sapp_nil_r (a : string) : a ++ "" = a.
Proof. induction a as [|x a IH]; [reflexivity|]. cbn. now rewrite IH. Qed.

Lemma slength_app (a b : string) :
  String.length (a ++ b) = (String.length a + String.length b)%nat.
Proof. induction a as [|x a IH]; [reflexivity|]. cbn. now rewrite IH. Qed.

Lemma forall_chars_app p (a b : string) :
  forall_chars p (a ++ b) = forall_chars p a && forall_chars p b.
Proof.
  induction a as [|x a IH]; [reflexivity|]. cbn. rewrite IH. now rewrite andb_assoc.
Qed.

Lemma forall_chars_impl (p q : ascii -> bool) (s : string) :
  (forall c, p c = true -> q c = true) ->
  forall_chars p s = true -> forall_chars q s = true.
Proof.
  intros Hpq. induction s as [|c s IH]; [reflexivity|]. cbn.
  rewrite !andb_true_iff. intros [H1 H2]. auto.
Qed.

Lemma all_ascii_app (a b : string) :
  Base64.all_ascii (a ++ b) = Base64.all_ascii a && Base64.all_ascii b.
Proof.
  induction a as [|x a IH]; [reflexivity|]. cbn. rewrite IH. now rewrite andb_assoc.
Qed.

Lemma split_lines_nonempty (s : string) : s <> "" -> split_lines s <> [].
Proof.
  destruct s as [|c s]; [congruence|]. intros _. cbn [split_lines].
  destruct (Ascii.eqb c LF); [discriminate|].
  destruct (Ascii.eqb c CR).
  - destruct s as [|d s]; [discriminate|]. destruct (Ascii.eqb d LF); discriminate.
  - destruct (split_lines s); discriminate.
Qed.

(** A line without line ending inside, followed by its [NL]. *)
Lemma split_lines_line (a rest : string) :
  forall_chars not_newline a = true ->
  split_lines (a ++ NL ++ rest) = (a ++ NL) :: split_lines rest.
Proof.
  induction a as [|c a IH]; [reflexivity|].
  cbn [forall_chars]. rewrite andb_true_iff. intros [Hc Ha].
  unfold not_newline, is_newline in Hc. apply negb_true_iff, orb_false_elim in Hc.
  destruct Hc as [H1 H2].
  change (String c a ++ NL ++ rest) with (String c (a ++ NL ++ rest)).
  cbn [split_lines]. rewrite H1, H2, (IH Ha). reflexivity.
Qed.

(** Text without carriage returns, followed by [NL]. *)
Lemma split_lines_text (x rest : string) :
  has_char CR x = false ->
  split_lines (x ++ NL ++ rest) = (split_lines (x ++ NL) ++ split_lines rest)%list.
Proof.
  induction x as [|c x IH]; [reflexivity|].
  cbn [has_char]. intros H. apply orb_false_elim in H as [Hc Hx].
  change (String c x ++ NL ++ rest) with (String c (x ++ NL ++ rest)).
  change (String c x ++ NL) with (String c (x ++ NL)).
  cbn [split_lines]. rewrite Hc, (IH Hx).
  destruct (Ascii.eqb c LF); [reflexivity|].
  pose proof (split_lines_nonempty (x ++ NL)) as Hne.
  destruct (split_lines (x ++ NL)) as [|l ls].
  - exfalso. apply Hne; [|reflexivity]. destruct x; discriminate.
  - reflexivity.
Qed.

Lemma lines_LF_nonempty (x : string) : lines_LF x <> [].
Proof.
  destruct x as [|c x]; [discriminate|]. cbn [lines_LF].
  destruct (Ascii.eqb c LF); [discriminate|]. destruct (lines_LF x); discriminate.
Qed.

Lemma split_lines_lines_LF (x : string) :
  has_char CR x = false ->
  split_lines (x ++ NL) = map (fun l => l ++ NL) (lines_LF x).
Proof.
  induction x as [|c x IH]; [reflexivity|].
  cbn [has_char]. intros H. apply orb_false_elim in H as [Hc Hx].
  change (String c x ++ NL) with (String c (x ++ NL)).
  cbn [split_lines lines_LF]. rewrite Hc, (IH Hx).
  destruct (Ascii.eqb c LF); [reflexivity|].
  pose proof (lines_LF_nonempty x).
  destruct (lines_LF x) as [|l ls]; [congruence | reflexivity].
Qed.

Lemma concat_split_lines (x : string) :
  has_char CR x = false -> concat_strings (split_lines x) = x.
Proof.
  induction x as [|c x IH]; [reflexivity|].
  cbn [has_char]. intros H. apply orb_false_elim in H as [Hc Hx].
  cbn [split_lines]. rewrite Hc. specialize (IH Hx).
  destruct (Ascii.eqb c LF) eqn:E.
  - apply Ascii.eqb_eq in E. subst c. cbn. now rewrite IH.
  - destruct (split_lines x) as [|l ls]; cbn in *; now rewrite <- IH.
Qed.

Lemma chomp_NL (x : string) : has_char CR x = false -> chomp (x ++ NL) = x.
Proof.
  induction x as [|c x IH]; [reflexivity|].
  cbn [has_char]. intros H. apply orb_false_elim in H as [Hc Hx].
  specialize (IH Hx).
  destruct x as [|d x].
  - cbn. rewrite Hc. reflexivity.
  - change (String c (String d x) ++ NL) with (String c (String d (x ++ NL))).
    change (String d x ++ NL) with (String d (x ++ NL)) in IH.
    cbn [chomp] in *. destruct (x ++ NL) eqn:E.
    + destruct x; discriminate.
    + now rewrite IH.
Qed.

Lemma write_lines_no_CR (x : string) : has_char CR x = false -> write_lines x = x.
Proof.
  induction x as [|c x IH]; [reflexivity|].
  cbn [has_char]. intros H. apply orb_false_elim in H as [Hc Hx].
  cbn [write_lines]. rewrite Hc. now rewrite IH.
Qed.

Lemma rstrip_by_keep p (x t : string) (c : ascii) :
  p c = false -> forall_chars p t = true ->
  rstrip_by p (x ++ String c t) = x ++ String c "".
Proof.
  intros Hc Ht.
  assert (Htail : rstrip_by p t = "").
  { induction t as [|d t IH]; [reflexivity|]. cbn in *.
    apply andb_true_iff in Ht as [Hd Ht]. now rewrite (IH Ht), Hd. }
  induction x as [|d x IH].
  - cbn. now rewrite Htail, Hc.
  - change (String d x ++ String c t) with (String d (x ++ String c t)).
    cbn [rstrip_by]. rewrite IH. destruct x; reflexivity.
Qed.

Lemma rstrip_by_none p (s : string) :
  forall_chars (fun c => negb (p c)) s = true -> rstrip_by p s = s.
Proof.
  induction s as [|c s IH]; [reflexivity|]. cbn.
  rewrite andb_true_iff, negb_true_iff. intros [Hc Hs]. rewrite (IH Hs).
  destruct s; [now rewrite Hc | reflexivity].
Qed.

Lemma strip_prefix_app (p x : string) : strip_prefix p (p ++ x) = Some x.
Proof.
  induction p as [|c p IH]; [reflexivity|]. cbn. now rewrite Ascii.eqb_refl.
Qed.

Lemma strip_prefix_NL (p l : string) :
  has_char LF p = false ->
  strip_prefix p l = None -> strip_prefix p (l ++ NL) = None.
Proof.
  revert l. induction p as [|c p IH]; intros l Hp H; [discriminate|].
  cbn [has_char] in Hp. apply orb_false_elim in Hp as [Hc Hp].
  destruct l as [|d l].
  - cbn. now rewrite Hc.
  - cbn in *. destruct (Ascii.eqb c d); [now apply IH | reflexivity].
Qed.

End StringFacts.

(* ===================================================================== *)
(** ** Feed parser *)

Module ParserFacts.
Import Email Parser Shape StringFacts.
#[local] Arguments String.append !s1 s2 : simpl nomatch.

Lemma boundary_match_inner (sep : string) :
  boundary_match sep (sep ++ NL) = Some false.
Proof. unfold boundary_match. now rewrite strip_prefix_app. Qed.

Lemma boundary_match_close (sep : string) :
  boundary_match sep (sep ++ "--" ++ NL) = Some true.
Proof. unfold boundary_match. now rewrite strip_prefix_app. Qed.

Lemma boundary_match_none (sep line : string) :
  strip_prefix sep line = None -> boundary_match sep line = None.
Proof. unfold boundary_match. now intros ->. Qed.

Lemma at_eof_none (sep line : string) :
  strip_prefix sep line = None ->
  existsb (fun m => at_eof m line) [AtBoundary sep] = false.
Proof. intros H. cbn. now rewrite (boundary_match_none _ _ H). Qed.

(** The body of a part: every line up to the next delimiter. *)
Lemma read_all_until (sep : string) (body : list string) (d : string)
      (tail : list string) :
  Forall (fun l => strip_prefix sep l = None) body ->
  (exists e, boundary_match sep d = Some e) ->
  read_all [AtBoundary sep] (body ++ d :: tail)%list = (body, d :: tail).
Proof.
  intros Hbody [e Hd]. induction Hbody as [|l ls Hl Hls IH].
  - cbn. now rewrite Hd.
  - cbn [app read_all]. rewrite (at_eof_none _ _ Hl). now rewrite IH.
Qed.

(** The header block: header lines, then the empty line. *)
Lemma take_headers_block (stack : list eof_matcher) (hs rest : list string) :
  Forall (fun l => existsb (fun m => at_eof m l) stack = false
                   /\ headerRE_match l = true) hs ->
  existsb (fun m => at_eof m NL) stack = false ->
  take_headers stack (hs ++ NL :: rest)%list = (hs, rest).
Proof.
  intros Hhs Hnl. induction Hhs as [|l ls [H1 H2] Hls IH].
  - cbn [app take_headers]. now rewrite Hnl.
  - cbn [app take_headers]. now rewrite H1, H2, IH.
Qed.

(** Without an envelope line among them, no header line goes back to the
    input. *)
Lemma _parse_headers_loop_no_unread (lines : list string) :
  Forall (fun l => startswith l "From " = false) lines ->
  forall lineno lastvalue, (_parse_headers_loop lineno lastvalue lines).2 = None.
Proof.
  induction 1 as [|l ls Hl Hls IH]; intros lineno lastvalue; [reflexivity|].
  cbn [_parse_headers_loop]. rewrite Hl.
  destruct l as [|c l].
  - specialize (IH (S lineno) []). destruct (_parse_headers_loop _ _ ls). exact IH.
  - destruct (is_blank c).
    + destruct lastvalue; apply IH.
    + destruct (Ascii.eqb c ":").
      * specialize (IH (S lineno) []). destruct (_parse_headers_loop _ _ ls). exact IH.
      * specialize (IH (S lineno) [String c l]).
        destruct (_parse_headers_loop _ _ ls). exact IH.
Qed.

(** *** The boundary and the [Content-Type] header that carries it *)

Lemma digits_NilEmpty (d : Decimal.uint) :
  forall_chars is_digit (NilEmpty.string_of_uint d) = true.
Proof. induction d; cbn; auto. Qed.

Lemma digits_NilZero (d : Decimal.uint) :
  forall_chars is_digit (NilZero.string_of_uint d) = true.
Proof. destruct d; try reflexivity; apply (digits_NilEmpty (_ d)). Qed.

Lemma digit_boundary_char (s : string) :
  forall_chars is_digit s = true -> forall_chars boundary_char s = true.
Proof.
  apply forall_chars_impl. intros c H. unfold boundary_char. now rewrite H.
Qed.

Lemma zeros_shape (k : nat) :
  forall_chars boundary_char (concat_strings (repeat "0" k)) = true
  /\ String.length (concat_strings (repeat "0" k)) = k.
Proof. induction k as [|k [IH1 IH2]]; [auto|]. cbn. rewrite IH1, IH2. auto. Qed.

Lemma fmt_token_shape (token : N) :
  forall_chars boundary_char (fmt_token token) = true
  /\ (19 <= String.length (fmt_token token))%nat.
Proof.
  unfold fmt_token.
  destruct (zeros_shape (19 - String.length (NilZero.string_of_uint (N.to_uint token))))
    as [H1 H2].
  rewrite forall_chars_app, slength_app, H1, H2.
  rewrite (digit_boundary_char _ (digits_NilZero _)). split; [reflexivity | lia].
Qed.

Lemma _make_boundary_loop_shape (fuel : nat) (boundary b : string) (counter : nat)
      (text : string) :
  boundary_shape boundary -> boundary_shape b ->
  boundary_shape (_make_boundary_loop fuel boundary b counter text).
Proof.
  intros Hboundary. revert b counter.
  induction fuel as [|fuel IH]; intros b counter Hb; cbn [_make_boundary_loop];
    destruct (boundary_occurs b text); try exact Hb.
  apply IH. destruct Hboundary as (r & -> & Hr & Hlen).
  exists (r ++ "." ++ str_nat counter). split; [|split].
  - now rewrite sapp_assoc.
  - rewrite !forall_chars_app, Hr. cbn.
    apply digit_boundary_char, digits_NilZero.
  - rewrite slength_app. lia.
Qed.

Lemma _make_boundary_shape (token : N) (text : string) :
  boundary_shape (_make_boundary token text).
Proof.
  assert (H : boundary_shape ("===============" ++ fmt_token token ++ "==")).
  { destruct (fmt_token_shape token) as [H1 H2].
    exists (fmt_token token ++ "=="). split; [reflexivity|]. split.
    - rewrite forall_chars_app, H1. reflexivity.
    - rewrite slength_app. lia. }
  unfold _make_boundary. now apply _make_boundary_loop_shape.
Qed.

Lemma boundary_char_facts (c : ascii) :
  boundary_char c = true ->
  is_newline c = false /\ is_space c = false /\ Ascii.eqb c ";" = false
  /\ Ascii.eqb c DQUOTE = false /\ Ascii.eqb c BACKSLASH = false
  /\ Base64.is_ascii c = true /\ Ascii.eqb c LF = false.
Proof.
  intros H.
  assert (forall c, implb (boundary_char c)
                      (negb (is_newline c) && negb (is_space c)
                       && negb (Ascii.eqb c ";") && negb (Ascii.eqb c DQUOTE)
                       && negb (Ascii.eqb c BACKSLASH) && Base64.is_ascii c
                       && negb (Ascii.eqb c LF)) = true) as Hall.
  { apply Base64Facts.for_all_bytes. vm_compute. reflexivity. }
  specialize (Hall c). rewrite H in Hall. cbn in Hall.
  rewrite !andb_true_iff, !negb_true_iff in Hall. tauto.
Qed.

Lemma get_content_type_multipart (b : string) (hs : list (string * string)) :
  get_content_type "text/plain" (("Content-Type", content_type_value b) :: hs)
  = "multipart/alternative".
Proof. reflexivity. Qed.

Lemma _parseparam_nonempty (s : string) (q bs : bool) : _parseparam s q bs <> [].
Proof.
  revert q bs. induction s as [|c s IH]; intros q bs; [discriminate|].
  cbn [_parseparam]. destruct (Ascii.eqb c ";" && negb q); [discriminate|].
  specialize (IH (if Ascii.eqb c DQUOTE && negb bs then negb q else q)
                 (Ascii.eqb c BACKSLASH)).
  destruct (_parseparam s _ _); [congruence | discriminate].
Qed.

Lemma _parseparam_plain (s rest : string) (q : bool) :
  forall_chars param_char s = true ->
  _parseparam (s ++ rest) q false = cons_first s (_parseparam rest q false).
Proof.
  induction s as [|c s IH]; intros Hs.
  - cbn. pose proof (_parseparam_nonempty rest q false).
    destruct (_parseparam rest q false); [congruence | reflexivity].
  - cbn [forall_chars] in Hs. apply andb_true_iff in Hs as [Hc Hs].
    unfold param_char in Hc. rewrite !andb_true_iff, !negb_true_iff in Hc.
    destruct Hc as [[H1 H2] H3].
    change (String c s ++ rest) with (String c (s ++ rest)).
    cbn [_parseparam]. rewrite H1, H2, H3. cbn [andb]. rewrite (IH Hs).
    unfold cons_first. destruct (_parseparam rest q false); reflexivity.
Qed.

Lemma boundary_chars_param (s : string) :
  forall_chars boundary_char s = true -> forall_chars param_char s = true.
Proof.
  apply forall_chars_impl. intros c Hc.
  apply boundary_char_facts in Hc as (_ & _ & H1 & H2 & H3 & _).
  unfold param_char. now rewrite H1, H2, H3.
Qed.

Lemma last_char_snoc (x : string) (c : ascii) : last_char (x ++ String c "") = Some c.
Proof.
  induction x as [|d x IH]; [reflexivity|].
  change (String d x ++ String c "") with (String d (x ++ String c "")).
  cbn [last_char]. rewrite IH. now destruct x.
Qed.

Lemma drop_last_snoc (x : string) (c : ascii) : drop_last (x ++ String c "") = x.
Proof.
  induction x as [|d x IH]; [reflexivity|].
  change (String d x ++ String c "") with (String d (x ++ String c "")).
  cbn [drop_last]. rewrite IH. now destruct x.
Qed.

Lemma replace_pair_absent (a b new : ascii) (s : string) :
  forall_chars (fun c => negb (Ascii.eqb c a)) s = true ->
  replace_pair a b new s = s.
Proof.
  induction s as [|c s IH]; [reflexivity|]. cbn [forall_chars replace_pair].
  rewrite andb_true_iff, negb_true_iff. intros [Hc Hs].
  rewrite Hc, (IH Hs). now destruct s.
Qed.

Lemma boundary_chars_no (p : ascii -> bool) (s : string) :
  (forall c, boundary_char c = true -> p c = false) ->
  forall_chars boundary_char s = true ->
  forall_chars (fun c => negb (p c)) s = true.
Proof.
  intros Hp. apply forall_chars_impl. intros c Hc. now rewrite (Hp c Hc).
Qed.

Lemma unquote_in_quotes (c : ascii) (x : string) :
  forall_chars (fun a => negb (Ascii.eqb a BACKSLASH)) (String c x) = true ->
  unquote (String DQUOTE (String c x ++ String DQUOTE "")) = String c x.
Proof.
  intros Hx.
  assert (Hl : last_char (String c x ++ String DQUOTE "") = Some DQUOTE)
    by apply last_char_snoc.
  assert (Hd : drop_last (String c x ++ String DQUOTE "") = String c x)
    by apply drop_last_snoc.
  change (String c x ++ String DQUOTE "") with (String c (x ++ String DQUOTE "")) in *.
  unfold unquote. rewrite Hl, Hd, Ascii.eqb_refl.
  rewrite bool_decide_eq_true_2 by reflexivity. cbn [andb].
  rewrite (replace_pair_absent BACKSLASH BACKSLASH BACKSLASH) by exact Hx.
  now apply replace_pair_absent.
Qed.

Lemma unquote_quoted (b : string) :
  boundary_shape b -> unquote (quoted b) = b.
Proof.
  intros (r & -> & Hr & _). unfold quoted.
  apply (unquote_in_quotes "=" ("==============" ++ r)).
  apply (boundary_chars_no (fun c => Ascii.eqb c BACKSLASH)); [|cbn; exact Hr].
  intros c Hc. now apply boundary_char_facts in Hc.
Qed.

Lemma unquote_boundary (b : string) : boundary_shape b -> unquote b = b.
Proof. intros (r & -> & _). reflexivity. Qed.

Lemma strip_quoted (b : string) : boundary_shape b -> strip (quoted b) = quoted b.
Proof.
  intros _. unfold strip, quoted.
  change (String DQUOTE (b ++ String DQUOTE "")) with (String DQUOTE b ++ String DQUOTE "").
  rewrite (rstrip_by_keep is_space (String DQUOTE b) "" DQUOTE) by reflexivity.
  reflexivity.
Qed.

Lemma _parseparam_content_type (b : string) :
  boundary_shape b ->
  _parseparam (content_type_value b) false false
  = ["multipart/alternative"; NL ++ " boundary=" ++ quoted b].
Proof.
  intros Hb. unfold content_type_value, quoted.
  change ("multipart/alternative;" ++ NL ++ " boundary="
          ++ String DQUOTE (b ++ String DQUOTE ""))
    with ("multipart/alternative"
          ++ String ";" ((NL ++ " boundary=")
                         ++ String DQUOTE (b ++ String DQUOTE ""))).
  rewrite _parseparam_plain by reflexivity.
  cbn [_parseparam Ascii.eqb Bool.eqb andb negb].
  rewrite _parseparam_plain by reflexivity.
  cbn [_parseparam]. rewrite Ascii.eqb_refl.
  change (Ascii.eqb DQUOTE ";") with false. cbn [andb negb].
  change (Ascii.eqb DQUOTE BACKSLASH) with false.
  rewrite _parseparam_plain
    by (destruct Hb as (r & -> & Hr & _); apply boundary_chars_param; cbn; exact Hr).
  reflexivity.
Qed.

Lemma find_param_boundary (b : string) :
  boundary_shape b ->
  find_param "boundary" ["multipart/alternative"; NL ++ " boundary=" ++ quoted b]
  = Some b.
Proof.
  intros Hb.
  change (find_param "boundary"
            ["multipart/alternative"; NL ++ " boundary=" ++ quoted b])
    with (Some (unquote (strip (quoted b)))).
  now rewrite (strip_quoted b Hb), (unquote_quoted b Hb).
Qed.

Lemma get_boundary_found (b : string) (hs : list (string * string)) :
  boundary_shape b ->
  get_boundary (("Content-Type", content_type_value b) :: hs) = Some b.
Proof.
  intros Hb. unfold get_boundary, get_param.
  change (get_header "content-type" (("Content-Type", content_type_value b) :: hs))
    with (Some (content_type_value b)).
  cbv beta iota.
  rewrite (_parseparam_content_type b Hb), (find_param_boundary b Hb).
  rewrite (unquote_boundary b Hb).
  f_equal. apply rstrip_by_none.
  destruct Hb as (r & -> & Hr & _).
  apply (boundary_chars_no is_space); [|cbn; exact Hr].
  intros c Hc. now apply boundary_char_facts in Hc.
Qed.

End ParserFacts.

(* ===================================================================== *)
(** ** The parse of a flattened message *)

Module RoundTripFacts.
Import Email Parser Shape StringFacts ParserFacts.
#[local] Arguments String.append !s1 s2 : simpl nomatch.

(** Both sides are the same characters, grouped differently. *)
Ltac same_string :=
  unfold L0, L1, L2, P0, P1, P2, content_type_value, quoted, NL;
  repeat first [ rewrite sapp_assoc | rewrite sapp_nil_r
               | progress (cbn [append concat_strings]) ];
  reflexivity.

Lemma header_source_parse_top (b : string) :
  header_source_parse [L0; L1 b] = ("Content-Type", content_type_value b).
Proof.
  unfold header_source_parse.
  change (partition ":" L0) with ("Content-Type", Some (" multipart/alternative;" ++ NL)).
  cbv beta iota zeta. f_equal.
  change (lstrip_by is_blank (" multipart/alternative;" ++ NL))
    with ("multipart/alternative;" ++ NL).
  match goal with
  | |- rstrip_by _ ?t = _ =>
      replace t with (("multipart/alternative;" ++ NL ++ " boundary=" ++ String DQUOTE b)
                      ++ String DQUOTE NL) by same_string
  end.
  rewrite (rstrip_by_keep is_newline _ NL DQUOTE) by reflexivity.
  same_string.
Qed.

Lemma _parse_headers_loop_header (n : nat) (lv : list string) (c : ascii)
      (l : string) (rest : list string) :
  is_blank c = false -> startswith (String c l) "From " = false ->
  Ascii.eqb c ":" = false ->
  _parse_headers_loop n lv (String c l :: rest)
  = (let '(hs, u) := _parse_headers_loop (S n) [String c l] rest in
     ((match lv with [] => [] | _ => [header_source_parse lv] end ++ hs)%list, u)).
Proof. intros H1 H2 H3. cbn [_parse_headers_loop]. now rewrite H1, H2, H3. Qed.

Lemma _parse_headers_loop_continuation (n : nat) (lv0 : string) (lv : list string)
      (c : ascii) (l : string) (rest : list string) :
  is_blank c = true ->
  _parse_headers_loop n (lv0 :: lv) (String c l :: rest)
  = _parse_headers_loop (S n) ((lv0 :: lv) ++ [String c l])%list rest.
Proof. intros H1. cbn [_parse_headers_loop]. now rewrite H1. Qed.

Lemma _parse_headers_top (b : string) (U : list string) :
  Forall user_line U ->
  exists hs, _parse_headers (L0 :: L1 b :: L2 :: U)
             = (("Content-Type", content_type_value b) :: hs, None).
Proof.
  intros HU. unfold _parse_headers.
  assert (Hu : (_parse_headers_loop 3 [L2] U).2 = None).
  { apply _parse_headers_loop_no_unread.
    eapply Forall_impl; [exact HU|]. now intros l [_ H]. }
  change L0 with (String "C" ("ontent-Type: multipart/alternative;" ++ NL)) at 1.
  rewrite _parse_headers_loop_header by reflexivity.
  change (L1 b) with (String " " ("boundary=" ++ quoted b ++ NL)) at 1.
  rewrite _parse_headers_loop_continuation by reflexivity.
  change L2 with (String "M" ("IME-Version: 1.0" ++ NL)) at 1.
  rewrite _parse_headers_loop_header by reflexivity.
  change (String "M" ("IME-Version: 1.0" ++ NL)) with L2.
  destruct (_parse_headers_loop 3 [L2] U) as [hs u]. cbn in Hu. subst u.
  cbn [app].
  change (String "C" ("ontent-Type: multipart/alternative;" ++ NL)) with L0.
  change (String " " ("boundary=" ++ quoted b ++ NL)) with (L1 b).
  rewrite header_source_parse_top. eexists. reflexivity.
Qed.

(** One step of [_parsegen] on a multipart whose first delimiter comes
    right after the headers, and on a message of type [text/plain]. *)
Lemma _parsegen_multipart (fuel : nat) (stack : list eof_matcher) (dt : string)
      (lines hl lines1 lines2 : list string) (headers : list (string * string))
      (b : string) :
  take_headers stack lines = (hl, lines1) ->
  _parse_headers hl = (headers, None) ->
  get_content_type dt headers = "multipart/alternative" ->
  get_boundary headers = Some b ->
  skip_preamble stack ("--" ++ b) lines1 = ([], Some lines2) ->
  _parsegen (S fuel) stack dt lines
  = (let '(subparts, rest) := _parts fuel stack ("--" ++ b) "text/plain" lines2 in
     (Node headers subparts, rest)).
Proof.
  intros H1 H2 H3 H4 H5. cbn [_parsegen]. rewrite H1, H2. cbv beta iota zeta.
  unfold get_content_maintype. rewrite H3, H4, H5. reflexivity.
Qed.

Lemma _parsegen_text (fuel : nat) (stack : list eof_matcher) (dt : string)
      (lines hl lines1 body rest : list string) (headers : list (string * string)) :
  take_headers stack lines = (hl, lines1) ->
  _parse_headers hl = (headers, None) ->
  get_content_type dt headers = "text/plain" ->
  read_all stack lines1 = (body, rest) ->
  _parsegen (S fuel) stack dt lines = (Leaf headers (concat_strings body), rest).
Proof.
  intros H1 H2 H3 H4. cbn [_parsegen]. rewrite H1, H2. cbv beta iota zeta.
  unfold get_content_maintype. rewrite H3, H4. reflexivity.
Qed.

Lemma _parts_inner (fuel : nat) (sep dt line : string) (rest : list string) :
  boundary_match sep line = Some false ->
  _parts (S fuel) [] sep dt (line :: rest)
  = (let rest := skip_boundaries [] sep rest in
     let '(part, rest) := _parsegen fuel [AtBoundary sep] dt rest in
     let '(more, rest) := _parts fuel [] sep dt rest in
     (trim_last dt part :: more, rest)).
Proof. intros H. cbn [_parts readline existsb]. now rewrite H. Qed.

Lemma not_delimiter (b : string) (c : ascii) (l : string) :
  Ascii.eqb "-" c = false -> strip_prefix ("--" ++ b) (String c l) = None.
Proof.
  intros H. change ("--" ++ b) with (String "-" (String "-" b)).
  cbn [strip_prefix]. now rewrite H.
Qed.


(** *** The generator's output, line by line *)

Lemma printable_facts (c : ascii) :
  is_printable c = true -> not_newline c = true /\ Base64.is_ascii c = true.
Proof.
  intros H.
  assert (forall c, implb (is_printable c) (not_newline c && Base64.is_ascii c) = true)
    as Hall by (apply Base64Facts.for_all_bytes; vm_compute; reflexivity).
  specialize (Hall c). rewrite H in Hall. now apply andb_true_iff in Hall.
Qed.

Lemma all_printable_facts (s : string) :
  all_printable s = true ->
  forall_chars not_newline s = true /\ Base64.all_ascii s = true.
Proof.
  induction s as [|c s IH]; [auto|]. cbn. rewrite !andb_true_iff.
  intros [Hc Hs]. destruct (IH Hs) as [H1 H2].
  destruct (printable_facts c Hc) as [H3 H4]. auto.
Qed.

Lemma boundary_chars_facts (s : string) :
  forall_chars boundary_char s = true ->
  forall_chars not_newline s = true /\ Base64.all_ascii s = true
  /\ has_char LF s = false.
Proof.
  induction s as [|c s IH]; [auto|].
  cbn [forall_chars]. rewrite andb_true_iff.
  intros [Hc Hs]. destruct (IH Hs) as (H1 & H2 & H3).
  apply boundary_char_facts in Hc as (Hn & _ & _ & _ & _ & Ha & Hlf).
  split; [|split].
  - cbn [forall_chars]. unfold not_newline at 1. now rewrite Hn, H1.
  - change (Base64.all_ascii (String c s))
      with (Base64.is_ascii c && Base64.all_ascii s). now rewrite Ha, H2.
  - cbn [has_char]. now rewrite Hlf, H3.
Qed.

Lemma user_header_line (h : string * string) :
  user_header h ->
  is_line (header_line h) /\ user_line (header_line h)
  /\ Base64.all_ascii (header_line h) = true.
Proof.
  destruct h as [n v]. unfold user_header, plain_header. cbn [fst snd].
  rewrite andb_true_iff. intros [Hn [Hv _]].
  destruct (all_printable_facts v Hv) as [H1 H2].
  unfold header_line. cbn [fst snd].
  assert (Hl : forall p : string,
             forall_chars not_newline p = true ->
             is_line (p ++ v ++ NL)).
  { intros p Hp. exists (p ++ v). split; [now rewrite sapp_assoc|].
    now rewrite forall_chars_app, Hp, H1. }
  assert (Ha : forall p : string,
             Base64.all_ascii p = true -> Base64.all_ascii (p ++ v ++ NL) = true).
  { intros p Hp. now rewrite !all_ascii_app, Hp, H2. }
  unfold user_names in Hn. cbn [In] in Hn.
  destruct Hn as [<- | [<- | [<- | [<- | []]]]].
  - split; [apply (Hl "to: "); reflexivity|].
    split; [split; reflexivity | apply (Ha "to: "); reflexivity].
  - split; [apply (Hl "from: "); reflexivity|].
    split; [split; reflexivity | apply (Ha "from: "); reflexivity].
  - split; [apply (Hl "subject: "); reflexivity|].
    split; [split; reflexivity | apply (Ha "subject: "); reflexivity].
  - split; [apply (Hl "Cc: "); reflexivity|].
    split; [split; reflexivity | apply (Ha "Cc: "); reflexivity].
Qed.

Lemma write_headers_user (E : list (string * string)) :
  Forall user_header E ->
  write_headers E = concat_strings (map header_line E).
Proof.
  induction 1 as [|h E Hh HE IH]; [reflexivity|].
  unfold write_headers in *. cbn [map concat_strings]. rewrite IH. f_equal.
  destruct Hh as [_ Hh]. unfold plain_header in Hh. apply andb_true_iff in Hh as [_ Hf].
  unfold header_line, Header_encode. now rewrite Hf.
Qed.

Lemma split_lines_concat (ls : list string) (rest : string) :
  Forall is_line ls ->
  split_lines (concat_strings ls ++ rest) = (ls ++ split_lines rest)%list.
Proof.
  induction 1 as [|l ls (a & -> & Ha) Hls IH]; [reflexivity|].
  cbn [concat_strings app]. rewrite !sapp_assoc.
  rewrite (split_lines_line a _ Ha). now rewrite IH.
Qed.

Lemma has_char_app (c : ascii) (a b : string) :
  has_char c (a ++ b) = has_char c a || has_char c b.
Proof.
  induction a as [|x a IH]; [reflexivity|].
  cbn [append has_char]. now rewrite IH, orb_assoc.
Qed.

Lemma concat_strings_app (l1 l2 : list string) :
  concat_strings (l1 ++ l2)%list = concat_strings l1 ++ concat_strings l2.
Proof.
  induction l1 as [|x l1 IH]; [reflexivity|].
  cbn [app concat_strings]. now rewrite IH, sapp_assoc.
Qed.

Lemma all_ascii_concat (ls : list string) :
  Forall (fun l => Base64.all_ascii l = true) ls ->
  Base64.all_ascii (concat_strings ls) = true.
Proof.
  induction 1 as [|l ls Hl Hls IH]; [reflexivity|].
  cbn [concat_strings]. now rewrite all_ascii_app, Hl, IH.
Qed.

Lemma boundary_shape_chars (b : string) :
  boundary_shape b -> forall_chars boundary_char b = true.
Proof. intros (r & -> & Hr & _). cbn. exact Hr. Qed.

Lemma fits_content_type (b : string) :
  boundary_shape b ->
  fits "Content-Type" ("multipart/alternative; boundary=" ++ quoted b) = false.
Proof.
  intros (r & -> & _ & Hlen). unfold fits, quoted. apply Nat.leb_gt.
  rewrite slength_app. cbn [String.length]. rewrite !slength_app.
  cbn [String.length]. lia.
Qed.

Lemma write_headers_top (b : string) (E : list (string * string)) :
  boundary_shape b -> Forall user_header E ->
  write_headers
    (("Content-Type", "multipart/" ++ "alternative" ++ "; boundary=" ++ quoted b)
       :: ("MIME-Version", "1.0") :: E)
  = concat_strings (L0 :: L1 b :: L2 :: map header_line E).
Proof.
  intros Hb HE. pose proof (write_headers_user E HE) as HU.
  unfold write_headers in *. cbn [map concat_strings fst snd]. rewrite HU.
  unfold Header_encode.
  change ("multipart/" ++ "alternative" ++ "; boundary=" ++ quoted b)
    with ("multipart/alternative; boundary=" ++ quoted b).
  rewrite (fits_content_type b Hb).
  change (fits "MIME-Version" "1.0") with true. cbv iota.
  change (break_after_semicolon ("multipart/alternative; boundary=" ++ quoted b))
    with ("multipart/alternative;" ++ NL ++ " boundary=" ++ quoted b).
  same_string.
Qed.

Lemma flatten_part_plain (text : string) :
  Base64.all_ascii text = true -> has_char CR text = false ->
  flatten_part (MIMEText text "plain") = concat_strings [P0; P1; P2] ++ NL ++ text.
Proof.
  intros Ha Hc. unfold MIMEText. rewrite Ha. unfold flatten_part.
  cbn [part_headers part_payload]. rewrite (write_lines_no_CR _ Hc). reflexivity.
Qed.

Lemma all_ascii_write_lines (s : string) :
  Base64.all_ascii s = true -> Base64.all_ascii (write_lines s) = true.
Proof.
  assert (H : forall n s, (String.length s <= n)%nat ->
                          Base64.all_ascii s = true ->
                          Base64.all_ascii (write_lines s) = true).
  { clear s. intros n. induction n as [|n IH]; intros [|c s] Hn Hs;
      try reflexivity; cbn [String.length] in Hn; [lia|].
    cbn [Base64.all_ascii] in Hs. apply andb_true_iff in Hs as [Hc Hs].
    cbn [write_lines]. destruct (Ascii.eqb c CR).
    - destruct s as [|d s']; [reflexivity|].
      pose proof Hs as Hs'. cbn [Base64.all_ascii] in Hs'.
      apply andb_true_iff in Hs' as [_ Hs'].
      cbn [String.length] in Hn.
      destruct (Ascii.eqb d LF); cbn [Base64.all_ascii];
        apply andb_true_iff; (split; [reflexivity|]); apply IH;
        cbn [String.length]; (lia || assumption).
    - cbn [Base64.all_ascii]. rewrite Hc. apply IH; [lia | exact Hs]. }
  apply (H (String.length s)). lia.
Qed.

Lemma all_ascii_body_encode (fuel : nat) (s : string) :
  Base64.all_ascii (body_encode fuel s) = true.
Proof.
  revert s. induction fuel as [|fuel IH]; intros [|c s]; try reflexivity.
  cbn [body_encode]. rewrite !all_ascii_app, IH.
  now rewrite (Base64Facts.standard_all_ascii _ (Base64Facts.b64encode_standard _)).
Qed.

Lemma all_ascii_flatten_html (h : string) :
  Base64.all_ascii (flatten_part (MIMEText h "html")) = true.
Proof.
  unfold MIMEText. destruct (Base64.all_ascii h) eqn:Hh;
    unfold flatten_part; cbn [part_headers part_payload];
    rewrite !all_ascii_app; apply andb_true_iff; split; try reflexivity;
    apply andb_true_iff; split; try reflexivity; apply all_ascii_write_lines.
  - exact Hh.
  - apply all_ascii_body_encode.
Qed.

(** The lines of a flattened message: header lines, the lines of the text,
    the delimiter that follows it. *)
Lemma split_lines_built (ls : list string) (text dd tailstr : string) :
  Forall is_line ls -> has_char CR text = false ->
  forall_chars not_newline dd = true ->
  split_lines (concat_strings ls ++ text ++ NL ++ dd ++ NL ++ tailstr)
  = (ls ++ split_lines (text ++ NL)%string
        ++ (dd ++ NL)%string :: split_lines tailstr)%list.
Proof.
  intros Hls Ht Hdd.
  now rewrite (split_lines_concat _ _ Hls), (split_lines_text _ _ Ht),
    (split_lines_line _ _ Hdd).
Qed.

Lemma body_lines_no_delimiter (p text : string) :
  has_char LF p = false -> has_char CR text = false ->
  no_line_starts_with p text = true ->
  Forall (fun l => strip_prefix p l = None) (split_lines (text ++ NL)).
Proof.
  intros Hp Ht H. rewrite (split_lines_lines_LF _ Ht). apply Forall_map.
  unfold no_line_starts_with in H. rewrite forallb_forall in H.
  apply List.Forall_forall. intros l Hl. specialize (H l Hl).
  apply strip_prefix_NL; [exact Hp|].
  unfold startswith in H. now destruct (strip_prefix p l).
Qed.

(** The message object [create_message] builds. *)
Lemma mime_message_shape (sender to subject text : string)
      (html : option string) (cc : option Messages.Cc) :
  exists ps,
    Messages.mime_message sender to subject text html cc
    = built ([("to", to); ("from", sender); ("subject", subject)] ++ cc_header cc)
        text ps
    /\ (ps = [] \/ exists h, ps = [MIMEText h "html"]).
Proof.
  unfold Messages.mime_message.
  destruct html as [[|c h]|]; destruct cc as [[[|a s]|[|x l]]|];
    cbn [Messages.truthy_html Messages.truthy_cc truthy_str cc_header];
    eexists; (split; [reflexivity|]); eauto.
Qed.

Lemma user_headers_of (sender to subject : string) (cc : option Messages.Cc) :
  all_plain_headers
    ([("to", to); ("from", sender); ("subject", subject)] ++ cc_header cc)%list = true ->
  Forall user_header
    ([("to", to); ("from", sender); ("subject", subject)] ++ cc_header cc)%list.
Proof.
  unfold all_plain_headers. rewrite forallb_forall. intros H.
  apply List.Forall_forall. intros h Hh. split; [|now apply H].
  apply in_app_or in Hh as [Hh | Hh].
  - cbn [In] in Hh. unfold user_names.
    destruct Hh as [<- | [<- | [<- | []]]]; cbn; auto.
  - destruct cc as [[[|a s]|[|x l]]|]; cbn [cc_header In] in Hh;
      try contradiction; destruct Hh as [<- | []]; cbn; auto.
Qed.

Section Built.
Variables (token : N) (E : list (string * string)) (text : string) (ps : list Part).

Hypothesis HE : Forall user_header E.
Hypothesis Hascii : Base64.all_ascii text = true.
Hypothesis HCR : has_char CR text = false.
Hypothesis Hps : ps = [] \/ exists h, ps = [MIMEText h "html"].

Lemma built_boundary_shape : boundary_shape (built_boundary token E text ps).
Proof. apply _make_boundary_shape. Qed.

Lemma built_header_lines :
  let b := built_boundary token E text ps in
  Forall is_line
    ((L0 :: L1 b :: L2 :: map header_line E) ++ [NL; delimiter b; P0; P1; P2; NL])%list
  /\ Forall (fun l => Base64.all_ascii l = true)
       ((L0 :: L1 b :: L2 :: map header_line E) ++ [NL; delimiter b; P0; P1; P2; NL])%list.
Proof.
  intros b.
  pose proof (boundary_chars_facts b (boundary_shape_chars b built_boundary_shape))
    as (Hn & Ha & _).
  assert (HL1 : is_line (L1 b) /\ Base64.all_ascii (L1 b) = true).
  { split.
    - exists (" boundary=" ++ quoted b). split; [unfold L1; now rewrite !sapp_assoc|].
      unfold quoted. change (String DQUOTE (b ++ String DQUOTE ""))
        with (String DQUOTE "" ++ b ++ String DQUOTE "").
      now rewrite !forall_chars_app, Hn.
    - unfold L1, quoted. change (String DQUOTE (b ++ String DQUOTE ""))
        with (String DQUOTE "" ++ b ++ String DQUOTE "").
      now rewrite !all_ascii_app, Ha. }
  assert (Hd : is_line (delimiter b) /\ Base64.all_ascii (delimiter b) = true).
  { unfold delimiter. split.
    - exists ("--" ++ b). split; [reflexivity|]. now rewrite forall_chars_app, Hn.
    - now rewrite !all_ascii_app, Ha. }
  assert (HU : Forall (fun l => is_line l /\ Base64.all_ascii l = true)
                 (map header_line E)).
  { apply Forall_map. eapply Forall_impl; [exact HE|].
    intros h Hh. destruct (user_header_line h Hh) as (H1 & _ & H3). auto. }
  assert (Hl : forall a : string, forall_chars not_newline a = true ->
                                  Base64.all_ascii a = true ->
                                  is_line (a ++ NL) /\ Base64.all_ascii (a ++ NL) = true).
  { intros a H1 H2. split; [now exists a | now rewrite all_ascii_app, H2]. }
  assert (H : Forall (fun l => is_line l /\ Base64.all_ascii l = true)
                ((L0 :: L1 b :: L2 :: map header_line E)
                   ++ [NL; delimiter b; P0; P1; P2; NL])%list).
  { apply Forall_app. split.
    - constructor;
        [exact (Hl "Content-Type: multipart/alternative;" eq_refl eq_refl)|].
      constructor; [exact HL1|].
      constructor; [exact (Hl "MIME-Version: 1.0" eq_refl eq_refl) | exact HU].
    - constructor; [exact (Hl "" eq_refl eq_refl)|].
      constructor; [exact Hd|].
      constructor;
        [exact (Hl ("Content-Type: text/plain; charset=" ++ quoted "us-ascii")
                  eq_refl eq_refl)|].
      constructor; [exact (Hl "MIME-Version: 1.0" eq_refl eq_refl)|].
      constructor; [exact (Hl "Content-Transfer-Encoding: 7bit" eq_refl eq_refl)|].
      constructor; [exact (Hl "" eq_refl eq_refl) | constructor]. }
  split; (eapply Forall_impl; [exact H|]); tauto.
Qed.




End Built.



End RoundTripFacts.

(* ===================================================================== *)
(** ** [create_message] and [parse_message] *)

Module MessageFacts.
Import Email Parser Shape StringFacts ParserFacts RoundTripFacts.

Lemma raw_of_create_message (token : N) (sender to subject text : string)
      (html : option string) (cc : option Messages.Cc) :
  raw_of (Messages.create_message token sender to subject text html cc)
  = Base64.urlsafe_b64encode
      (as_bytes token (Messages.mime_message sender to subject text html cc)).
Proof.
  unfold raw_of, Messages.create_message, dict_get. now rewrite lookup_insert.
Qed.




(** C10.  [create_message] tests its optional arguments for truth.  An empty
    [message_html] gives the one-part message that omitting it gives, and the
    same [raw] field; an empty [cc], string or sequence, gives the message
    that omitting it gives, whose headers are [to], [from] and [subject]
    only.  A non-empty [message_html] adds a second part and a non-empty [cc]
    a [Cc] header. *)
Theorem create_message_optional_by_truthiness
        (token : N) (sender to subject message_text : string)
        (message_html : option string) (cc : option Messages.Cc) :
  let build := Messages.mime_message sender to subject message_text in
  let create := Messages.create_message token sender to subject message_text in
  (build (Some "") cc = build None cc
   /\ parts (build (Some "") cc) = [MIMEText message_text "plain"]
   /\ create (Some "") cc = create None cc)
  /\ (build message_html (Some (Messages.CcStr "")) = build message_html None
      /\ build message_html (Some (Messages.CcList [])) = build message_html None
      /\ extra_headers (build message_html (Some (Messages.CcStr "")))
         = [("to", to); ("from", sender); ("subject", subject)]
      /\ extra_headers (build message_html (Some (Messages.CcList [])))
         = [("to", to); ("from", sender); ("subject", subject)]
      /\ create message_html (Some (Messages.CcStr "")) = create message_html None
      /\ create message_html (Some (Messages.CcList [])) = create message_html None)
  /\ (forall c h,
        parts (build (Some (String c h)) cc)
        = [MIMEText message_text "plain"; MIMEText (String c h) "html"])
  /\ (forall c s,
        extra_headers (build message_html (Some (Messages.CcStr (String c s))))
        = [("to", to); ("from", sender); ("subject", subject); ("Cc", String c s)])
  /\ (forall a l,
        extra_headers (build message_html (Some (Messages.CcList (a :: l))))
        = [("to", to); ("from", sender); ("subject", subject);
           ("Cc", join ", " (a :: l))]).
Proof.
  cbv zeta. unfold Messages.create_message, Messages.mime_message.
  split; [|split; [|split; [|split]]].
  - destruct cc as [[[|a s]|[|x l]]|]; repeat split; reflexivity.
  - destruct message_html as [[|c h]|]; repeat split; reflexivity.
  - intros c h. destruct cc as [[[|a s]|[|x l]]|]; reflexivity.
  - intros c s. destruct message_html as [[|d h]|]; reflexivity.
  - intros a l. destruct message_html as [[|d h]|]; reflexivity.
Qed.

End MessageFacts.

(* ===================================================================== *)
(** * Further properties *)
(* ===================================================================== *)
(** ** Authenticator: failures, persistence, repetition *)

Module AuthMore.
Import Examples AuthFacts.

(** X1.  With no usable cached credential, no token file and no client-secrets
    file, [get_credentials] raises [GmailCredentialsError] naming the missing
    file; it has looked for the two files and done nothing else. *)
Theorem get_credentials_without_files :
  forall env w,
    no_valid_cache env w ->
    token_file w = None ->
    credentials_file_exists env = false ->
    Auth.get_credentials env w
    = (Raise (new GmailCredentialsError
                ("Credentials file missing: " ++ CREDENTIALS_PATH env)),
       record CredentialsFileExists (record TokenFileExists w)).
Proof.
  intros env w Hc Hf He.
  assert (H : Auth.get_credentials_uncached env w
              = (Raise (new GmailCredentialsError
                          ("Credentials file missing: " ++ CREDENTIALS_PATH env)),
                 record CredentialsFileExists (record TokenFileExists w))).
  { unfold Auth.get_credentials_uncached.
    unfold mbind at 1. unfold M_bind at 1.
    rewrite os_path_exists_TOKEN_PATH_eq, Hf.
    rewrite bool_decide_eq_false_2 by (intros [x Hx]; discriminate).
    unfold mbind, M_bind, mret, M_ret.
    rewrite _get_new_credentials_eq, He. reflexivity. }
  unfold Auth.get_credentials. unfold mbind, M_bind, get_world.
  destruct (_credentials w) as [c|] eqn:E; [|exact H].
  now rewrite (Hc c E).
Qed.

Lemma get_credentials_without_files_witness :
  Auth.get_credentials (env_with false (respond 200 "" None)) empty_world
  = (Raise (new GmailCredentialsError
              "Credentials file missing: backend/credentials.json"),
     record CredentialsFileExists (record TokenFileExists empty_world)).
Proof.
  apply (get_credentials_without_files (env_with false (respond 200 "" None))
           empty_world); try reflexivity.
  intros c H. discriminate H.
Defined.

(** X2.  A refresh that fails ends the call with [GmailTokenError] carrying the
    text of the failure: the interactive authorization is not tried in its
    place, nothing is written to the token file, and the cache is left
    alone. *)
Theorem get_credentials_refresh_failure :
  forall env w c0 e,
    no_valid_cache env w ->
    token_file w = Some (Ok c0) ->
    Auth.expired env c0 = true ->
    Auth.truthy_opt_str (refresh_token c0) = true ->
    oauth_refresh env c0 = Raise e ->
    Auth.get_credentials env w
    = (Raise (new GmailTokenError ("Failed to refresh token: " ++ str_exn e)),
       record (OAuthRefresh c0) (record TokenFileRead (record TokenFileExists w))).
Proof.
  intros env w c0 e Hc Hf Hexp Hrt Hre.
  rewrite (get_credentials_no_valid_cache env w Hc), get_credentials_uncached_eq.
  cbv zeta. rewrite Hf.
  assert (Hv : Auth.valid env c0 = false).
  { unfold Auth.valid. rewrite Hexp. now destruct (token c0). }
  now rewrite Hv, Hexp, Hrt, Hre.
Qed.

Lemma get_credentials_refresh_failure_witness :
  fst (Auth.get_credentials
         (refusing_refresh (env_with true (respond 200 "" None))) stale_world)
  = Raise (new GmailTokenError "Failed to refresh token: invalid_grant").
Proof.
  rewrite (get_credentials_refresh_failure _ stale_world stale_credentials
             (new CollaboratorError "invalid_grant")); try reflexivity.
  intros c H. discriminate H.
Defined.

(** *** What a failure is, and what it leaves behind *)

(** X3.  When [get_credentials] fails, the error is a [GmailCredentialsError]
    or a [GmailTokenError] (both [GmailAuthError]s), or it is the error
    met when loading the token file, passed on as it is.  The cached
    credential and the token file are as they were before the call. *)
Theorem get_credentials_failure :
  forall env w e w',
    Auth.get_credentials env w = (Raise e, w') ->
    ((cls e = GmailCredentialsError \/ cls e = GmailTokenError)
       /\ isinstance e GmailAuthError = true
     \/ token_file w = Some (Raise e))
    /\ _credentials w' = _credentials w
    /\ token_file w' = token_file w.
Proof. exact get_credentials_failure_cases. Qed.

Lemma get_credentials_failure_witness :
  let env := env_with false (respond 200 "" None) in
  let e := new GmailCredentialsError
             "Credentials file missing: backend/credentials.json" in
  ((cls e = GmailCredentialsError \/ cls e = GmailTokenError)
     /\ isinstance e GmailAuthError = true
   \/ token_file empty_world = Some (Raise e))
  /\ _credentials (snd (Auth.get_credentials env empty_world)) = None
  /\ token_file (snd (Auth.get_credentials env empty_world)) = None.
Proof.
  cbv zeta.
  apply (get_credentials_failure (env_with false (respond 200 "" None)) empty_world).
  reflexivity.
Defined.

(** *** What is persisted *)

(** X4.  Saving the token decides nothing.  Whatever the write does to the
    file (it may not open, break off, or go through), [get_credentials]
    returns or raises the same, caches the same credential and goes through
    the same steps.  And the only credential it ever hands to the write is
    the one it returns. *)
Theorem get_credentials_whatever_the_save :
  forall env f w,
    let run := Auth.get_credentials env w in
    let run' := Auth.get_credentials (with_token_file_write f env) w in
    fst run' = fst run
    /\ _credentials (snd run') = _credentials (snd run)
    /\ _client (snd run') = _client (snd run)
    /\ trace (snd run') = trace (snd run)
    /\ (forall c,
          In (TokenFileWrite c) (trace (snd run)) ->
          In (TokenFileWrite c) (trace w) \/ fst run = Ok c).
Proof.
  intros env f w run run'. subst run run'.
  rewrite !get_credentials_eq.
  change (Auth.valid (with_token_file_write f env)) with (Auth.valid env).
  assert (Hin : forall c ev (l : list Event),
             In (TokenFileWrite c) (l ++ [ev]) ->
             (forall c', ev <> TokenFileWrite c') ->
             In (TokenFileWrite c) l).
  { intros c ev l H Hev. apply in_app_iff in H as [H|[H|[]]]; [exact H|].
    now destruct (Hev c). }
  assert (Hsaved : forall c w0,
             _credentials (cached c (saved (with_token_file_write f env) c w0))
             = _credentials (cached c (saved env c w0))
             /\ _client (cached c (saved (with_token_file_write f env) c w0))
                = _client (cached c (saved env c w0))
             /\ trace (cached c (saved (with_token_file_write f env) c w0))
                = trace (cached c (saved env c w0))
             /\ trace (cached c (saved env c w0))
                = (trace w0 ++ [TokenFileWrite c])%list).
  { intros c w0. unfold cached, saved. rewrite !_save_token_eq.
    cbn [with_token_file_write token_file_write].
    destruct (f c), (token_file_write env c); cbn; auto. }
  assert (Hnew : forall w0,
             (forall c, In (TokenFileWrite c) (trace w0) ->
                        In (TokenFileWrite c) (trace w)) ->
             let run := obtained env (Auth._get_new_credentials env w0) in
             let run' := obtained (with_token_file_write f env)
                           (Auth._get_new_credentials env w0) in
             fst run' = fst run
             /\ _credentials (snd run') = _credentials (snd run)
             /\ _client (snd run') = _client (snd run)
             /\ trace (snd run') = trace (snd run)
             /\ (forall c,
                   In (TokenFileWrite c) (trace (snd run)) ->
                   In (TokenFileWrite c) (trace w) \/ fst run = Ok c)).
  { intros w0 H0. rewrite _get_new_credentials_eq.
    destruct (credentials_file_exists env).
    - destruct (oauth_flow env) as [c1|e]; cbn [obtained fst snd].
      + destruct (Hsaved c1 (record OAuthFlow (record CredentialsFileExists w0)))
          as (-> & -> & -> & Ht).
        repeat (split; [reflexivity|]).
        intros c. rewrite Ht. intros H.
        apply in_app_iff in H as [H|[[= ->]|[]]]; [left|now right].
        apply H0. cbn in H. repeat (apply Hin in H; [|discriminate]). exact H.
      + repeat (split; [reflexivity|]).
        intros c H. left. apply H0. cbn in H.
        repeat (apply Hin in H; [|discriminate]). exact H.
    - cbn [obtained fst snd]. repeat (split; [reflexivity|]).
      intros c H. left. apply H0. cbn in H.
      repeat (apply Hin in H; [|discriminate]). exact H. }
  assert (H : let run := Auth.get_credentials_uncached env w in
              let run' := Auth.get_credentials_uncached
                            (with_token_file_write f env) w in
              fst run' = fst run
              /\ _credentials (snd run') = _credentials (snd run)
              /\ _client (snd run') = _client (snd run)
              /\ trace (snd run') = trace (snd run)
              /\ (forall c,
                    In (TokenFileWrite c) (trace (snd run)) ->
                    In (TokenFileWrite c) (trace w) \/ fst run = Ok c)).
  { rewrite !get_credentials_uncached_eq. cbv zeta.
    change (Auth.valid (with_token_file_write f env)) with (Auth.valid env).
    change (Auth.expired (with_token_file_write f env)) with (Auth.expired env).
    change (oauth_refresh (with_token_file_write f env)) with (oauth_refresh env).
    change (Auth._get_new_credentials (with_token_file_write f env))
      with (Auth._get_new_credentials env).
    destruct (token_file w) as [[c0|e0]|].
    - destruct (Auth.valid env c0).
      + cbn [fst snd]. repeat (split; [reflexivity|]).
        intros c H. left. cbn in H. repeat (apply Hin in H; [|discriminate]).
        exact H.
      + destruct (Auth.expired env c0 && Auth.truthy_opt_str (refresh_token c0)).
        * destruct (oauth_refresh env c0) as [c'|e1]; cbn [fst snd].
          -- destruct (Hsaved c' (record (OAuthRefresh c0)
                                    (record TokenFileRead (record TokenFileExists w))))
               as (-> & -> & -> & Ht).
             repeat (split; [reflexivity|]).
             intros c. rewrite Ht. intros H.
             apply in_app_iff in H as [H|[[= ->]|[]]]; [left|now right].
             cbn in H. repeat (apply Hin in H; [|discriminate]). exact H.
          -- repeat (split; [reflexivity|]).
             intros c H. left. cbn in H.
             repeat (apply Hin in H; [|discriminate]). exact H.
        * apply Hnew. intros c H. cbn in H.
          repeat (apply Hin in H; [|discriminate]). exact H.
    - cbn [fst snd]. repeat (split; [reflexivity|]).
      intros c H. left. cbn in H. repeat (apply Hin in H; [|discriminate]).
      exact H.
    - apply Hnew. intros c H. cbn in H.
      repeat (apply Hin in H; [|discriminate]). exact H. }
  destruct (_credentials w) as [c0|]; [|exact H].
  destruct (Auth.valid env c0); [|exact H].
  cbn [fst snd]. repeat (split; [reflexivity|]). intros c Hc. now left.
Qed.

Lemma get_credentials_whatever_the_save_witness :
  let env := env_with true (respond 200 "" None) in
  fst (Auth.get_credentials (with_token_file_write (fun _ => None) env) stale_world)
  = Ok fresh_credentials
  /\ In (TokenFileWrite fresh_credentials)
        (trace (snd (Auth.get_credentials env stale_world))).
Proof.
  cbv zeta.
  destruct (get_credentials_whatever_the_save
              (env_with true (respond 200 "" None)) (fun _ => None) stale_world)
    as (H & _ & _ & _ & Hw).
  split; [rewrite H; reflexivity|].
  vm_compute. auto.
Defined.

(** *** Asking twice *)

(** X5.  Once [get_credentials] has returned a credential, a later call
    returns that same credential from the cache and does nothing else, not
    even adding to the trace, for as long as the credential is valid: the
    later call may come at a later time and find the collaborators changed,
    only the validity of the credential at that moment counts. *)
Theorem get_credentials_twice :
  forall env env' w c w',
    Auth.get_credentials env w = (Ok c, w') ->
    Auth.valid env' c = true ->
    Auth.get_credentials env' w' = (Ok c, w').
Proof.
  intros env env' w c w' H Hv.
  apply get_credentials_caches in H.
  now rewrite get_credentials_eq, H, Hv.
Qed.

Lemma get_credentials_twice_witness :
  let env := env_with true (respond 200 "" None) in
  let later := refusing_refresh (env_with false (respond 500 "" None)) in
  Auth.get_credentials later (snd (Auth.get_credentials env stale_world))
  = (Ok fresh_credentials, snd (Auth.get_credentials env stale_world)).
Proof.
  cbv zeta.
  apply (get_credentials_twice (env_with true (respond 200 "" None)) _ stale_world);
    reflexivity.
Defined.

(** *** The headers *)

(** X6.  Under the same proviso, the headers [get_auth_headers] returns are the
    two entries [Authorization: Bearer <token>] and
    [Content-Type: application/json], where [<token>] is the token of the
    credential now cached: the text after [Bearer] is never that of a missing
    token. *)
Theorem get_auth_headers_bearer :
  forall env w h w',
    (forall c1 c2, oauth_refresh env c1 = Ok c2 -> Auth.valid env c2 = true) ->
    (forall c1, oauth_flow env = Ok c1 -> Auth.valid env c1 = true) ->
    Auth.get_auth_headers env w = (Ok h, w') ->
    exists c t,
      _credentials w' = Some c /\ token c = Some t
      /\ h = <["Authorization" := "Bearer " ++ t]>
               (<["Content-Type" := "application/json"]> ∅).
Proof.
  intros env w h w' Href Hflow. unfold Auth.get_auth_headers.
  rewrite bind_eq.
  destruct (Auth.get_credentials env w) as [[c|e] w1] eqn:E; [|discriminate].
  intros [= <- <-].
  assert (Hv : Auth.valid env c = true /\ _credentials w1 = Some c).
  { rewrite get_credentials_eq in E.
    destruct (_credentials w) as [c0|] eqn:E0.
    - destruct (Auth.valid env c0) eqn:Hv0.
      + injection E as <- <-. auto.
      + eapply get_credentials_uncached_valid; eauto.
    - eapply get_credentials_uncached_valid; eauto. }
  destruct Hv as [Hv Hc]. unfold Auth.valid in Hv.
  destruct (token c) as [t|] eqn:Ht; [|discriminate].
  exists c, t. now rewrite Ht.
Qed.

Lemma get_auth_headers_bearer_witness :
  exists c t,
    _credentials (snd (Auth.get_auth_headers (env_with true (respond 200 "" None))
                         stale_world)) = Some c
    /\ token c = Some t
    /\ fst (Auth.get_auth_headers (env_with true (respond 200 "" None)) stale_world)
       = Ok (<["Authorization" := "Bearer " ++ t]>
               (<["Content-Type" := "application/json"]> ∅)).
Proof.
  destruct (get_auth_headers_bearer (env_with true (respond 200 "" None)) stale_world
              (<["Authorization" := "Bearer ya29.fresh"]>
                 (<["Content-Type" := "application/json"]> ∅))
              (snd (Auth.get_auth_headers (env_with true (respond 200 "" None))
                      stale_world)))
    as (c & t & H1 & H2 & H3).
  - intros c1 c2 [= <-]. reflexivity.
  - intros c1 [= <-]. reflexivity.
  - reflexivity.
  - exists c, t. split; [exact H1|]. split; [exact H2|]. now rewrite <- H3.
Defined.

(** *** What one call may cost *)

Lemma count_app (kind : Event -> bool) (t1 t2 : list Event) :
  count kind (t1 ++ t2) = (count kind t1 + count kind t2)%nat.
Proof. unfold count. now rewrite List.filter_app, length_app. Qed.

Lemma count_snoc (kind : Event -> bool) (t : list Event) (ev : Event) :
  count kind (t ++ [ev]) = (count kind t + if kind ev then 1 else 0)%nat.
Proof. rewrite count_app. unfold count at 2. cbn. now destruct (kind ev). Qed.

Lemma trace_record (ev : Event) (w : World) :
  trace (record ev w) = (trace w ++ [ev])%list.
Proof. reflexivity. Qed.

(** X7.  One call of [get_credentials] extends the trace by at most one refresh
    or one interactive authorization, never both; it writes the token file at
    most once, and only after one of the two; and it never starts the
    interactive authorization when the client-secrets file is missing. *)
Theorem get_credentials_economy :
  forall env w,
    exists added,
      trace (snd (Auth.get_credentials env w)) = (trace w ++ added)%list
      /\ (count is_OAuthRefresh added + count is_OAuthFlow added <= 1)%nat
      /\ (count is_TokenFileWrite added
          <= count is_OAuthRefresh added + count is_OAuthFlow added)%nat
      /\ (credentials_file_exists env = false -> count is_OAuthFlow added = 0%nat).
Proof.
  intros env w. rewrite get_credentials_eq.
  assert (H0 : exists added,
             trace w = (trace w ++ added)%list
             /\ (count is_OAuthRefresh added + count is_OAuthFlow added <= 1)%nat
             /\ (count is_TokenFileWrite added
                 <= count is_OAuthRefresh added + count is_OAuthFlow added)%nat
             /\ (credentials_file_exists env = false ->
                 count is_OAuthFlow added = 0%nat)).
  { exists []. rewrite app_nil_r. cbn. auto. }
  assert (H : exists added,
             trace (snd (Auth.get_credentials_uncached env w))
             = (trace w ++ added)%list
             /\ (count is_OAuthRefresh added + count is_OAuthFlow added <= 1)%nat
             /\ (count is_TokenFileWrite added
                 <= count is_OAuthRefresh added + count is_OAuthFlow added)%nat
             /\ (credentials_file_exists env = false ->
                 count is_OAuthFlow added = 0%nat)).
  { rewrite get_credentials_uncached_eq. cbv zeta.
    assert (Hnew : forall pre,
               exists added,
                 trace (snd (obtained env
                               (Auth._get_new_credentials env
                                  {| _credentials := _credentials w;
                                     _client := _client w;
                                     token_file := token_file w;
                                     trace := (trace w ++ pre)%list |})))
                 = (trace w ++ pre ++ added)%list
                 /\ (count is_OAuthRefresh added + count is_OAuthFlow added <= 1)%nat
                 /\ (count is_TokenFileWrite added
                     <= count is_OAuthRefresh added + count is_OAuthFlow added)%nat
                 /\ (credentials_file_exists env = false ->
                     count is_OAuthFlow added = 0%nat)
                 /\ count is_OAuthRefresh added = 0%nat).
    { intros pre. rewrite _get_new_credentials_eq.
      destruct (credentials_file_exists env).
      - destruct (oauth_flow env) as [c|e].
        + exists [CredentialsFileExists; OAuthFlow; TokenFileWrite c].
          split; [|cbn; repeat split; (lia || discriminate)].
          unfold obtained, cached, saved. rewrite _save_token_eq.
          destruct (token_file_write env _); cbn; now rewrite <- !app_assoc.
        + exists [CredentialsFileExists; OAuthFlow].
          split; [|cbn; repeat split; (lia || discriminate)].
          cbn. now rewrite <- !app_assoc.
      - exists [CredentialsFileExists].
        split; [|cbn; repeat split; (lia || discriminate)].
        cbn. now rewrite <- !app_assoc. }
    destruct (token_file w) as [[c|e0]|] eqn:Hf.
    - destruct (Auth.valid env c).
      + exists [TokenFileExists; TokenFileRead].
        split; [|cbn; repeat split; (lia || discriminate)].
        cbn. now rewrite <- !app_assoc.
      + destruct (Auth.expired env c && Auth.truthy_opt_str (refresh_token c)).
        * destruct (oauth_refresh env c) as [c'|e1].
          -- exists [TokenFileExists; TokenFileRead; OAuthRefresh c; TokenFileWrite c'].
             split; [|cbn; repeat split; (lia || discriminate)].
             unfold cached, saved. rewrite _save_token_eq.
             destruct (token_file_write env _); cbn; now rewrite <- !app_assoc.
          -- exists [TokenFileExists; TokenFileRead; OAuthRefresh c].
             split; [|cbn; repeat split; (lia || discriminate)].
             cbn. now rewrite <- !app_assoc.
        * destruct (Hnew [TokenFileExists; TokenFileRead])
            as (added & Ht & H1 & H2 & H3 & H4).
          exists ([TokenFileExists; TokenFileRead] ++ added)%list.
          split; [|rewrite !count_app; cbn; repeat split; try lia;
                   intros He; specialize (H3 He); lia].
          rewrite <- Ht. unfold record. cbn. rewrite <- Hf, <- !app_assoc.
          reflexivity.
    - exists [TokenFileExists; TokenFileRead].
      split; [|cbn; repeat split; (lia || discriminate)].
      cbn. now rewrite <- !app_assoc.
    - destruct (Hnew [TokenFileExists]) as (added & Ht & H1 & H2 & H3 & H4).
      exists ([TokenFileExists] ++ added)%list.
      split; [|rewrite !count_app; cbn; repeat split; try lia;
               intros He; specialize (H3 He); lia].
      rewrite <- Ht. unfold record. cbn. rewrite <- Hf. reflexivity. }
  destruct (_credentials w) as [c|]; [|exact H].
  destruct (Auth.valid env c); [exact H0 | exact H].
Qed.

Lemma get_credentials_economy_witness :
  exists added,
    trace (snd (Auth.get_credentials (env_with false (respond 200 "" None))
                  stale_world))
    = added
    /\ count is_OAuthFlow added = 0%nat.
Proof.
  destruct (get_credentials_economy (env_with false (respond 200 "" None))
              stale_world) as (added & Ht & _ & _ & H).
  exists added. split; [exact Ht | apply H; reflexivity].
Defined.

End AuthMore.

(* ===================================================================== *)
(** ** HTTP client: the successful call, headers, the client object *)

Module ClientMore.
Import Examples Samples AuthFacts ClientFacts AuthMore.

(** In a [ready] world a supported call goes straight to the transport. *)
Lemma request_ready :
  forall env base_url method endpoint params data headers w,
    ready env w ->
    supported method = true ->
    let req := issued method (base_url ++ "/" ++ endpoint)
                 (Client.update_headers (auth_headers_of (credential_of w)) headers)
                 params data in
    snd (Client.request env base_url method endpoint params data headers w)
    = record (HttpCall req) w.
Proof.
  intros env base_url method endpoint params data headers w Hr Hs req.
  rewrite (request_supported env base_url method endpoint params data headers
             w _ w Hs (authenticate_ready env w Hr)).
  cbv zeta. fold req.
  destruct (transport env (trace w) req) as [resp|u m|e]; [|reflexivity..].
  destruct (is_2xx (resp_status resp)); [|reflexivity].
  now destruct (resp_json resp).
Qed.

(** *** The call that succeeds *)

(** X8.  When the method is supported, the authorization headers were obtained
    and the transport answers with a 2xx status and a JSON body, [request]
    returns that decoded body, and the only thing it has done since the
    headers were obtained is that one call. *)
Theorem request_success :
  forall env base_url method endpoint params data headers w auth_headers w1 resp j,
    supported method = true ->
    authenticate env w = (Ok auth_headers, w1) ->
    let req := issued method (base_url ++ "/" ++ endpoint)
                 (Client.update_headers auth_headers headers) params data in
    transport env (trace w1) req = Responded resp ->
    is_2xx (resp_status resp) = true ->
    resp_json resp = Some j ->
    Client.request env base_url method endpoint params data headers w
    = (Ok j, record (HttpCall req) w1).
Proof.
  intros env base_url method endpoint params data headers w auth_headers w1 resp j
         Hs Ha req Ht H2 Hj.
  rewrite (request_supported _ _ _ _ _ _ _ _ _ _ Hs Ha). cbv zeta. fold req.
  now rewrite Ht, H2, Hj.
Qed.

Lemma request_success_witness :
  fst (Client.request
         (env_with true (respond 200 "{}" (Some (JObj (<["id" := JStr "m1"]> ∅)))))
         "https://gmail.googleapis.com/gmail/v1/users/me" "GET" "messages/m1"
         None None None logged_in_world)
  = Ok (JObj (<["id" := JStr "m1"]> ∅)).
Proof.
  erewrite (request_success
              (env_with true (respond 200 "{}" (Some (JObj (<["id" := JStr "m1"]> ∅)))))
              "https://gmail.googleapis.com/gmail/v1/users/me" "GET" "messages/m1"
              None None None logged_in_world);
    reflexivity.
Defined.

(** X9.  A 2xx answer whose body is not JSON makes [request] fail with the
    decoder's error, after the call was made; this error is a [ValueError],
    none of the package's own classes. *)
Theorem request_body_not_json :
  forall env base_url method endpoint params data headers w auth_headers w1 resp,
    supported method = true ->
    authenticate env w = (Ok auth_headers, w1) ->
    let req := issued method (base_url ++ "/" ++ endpoint)
                 (Client.update_headers auth_headers headers) params data in
    transport env (trace w1) req = Responded resp ->
    is_2xx (resp_status resp) = true ->
    resp_json resp = None ->
    exists e,
      Client.request env base_url method endpoint params data headers w
      = (Raise e, record (HttpCall req) w1)
      /\ cls e = JSONDecodeError
      /\ isinstance e ValueError = true
      /\ isinstance e GmailWrapperError = false.
Proof.
  intros env base_url method endpoint params data headers w auth_headers w1 resp
         Hs Ha req Ht H2 Hj.
  exists (new JSONDecodeError "Expecting value").
  rewrite (request_supported _ _ _ _ _ _ _ _ _ _ Hs Ha). cbv zeta. fold req.
  rewrite Ht, H2, Hj. auto.
Qed.

Lemma request_body_not_json_witness :
  exists e,
    fst (Client.request (env_with true (respond 204 "" None))
           "https://gmail.googleapis.com/gmail/v1/users/me" "DELETE"
           "messages/m1/trash" None None None logged_in_world)
    = Raise e
    /\ cls e = JSONDecodeError.
Proof.
  destruct (request_body_not_json (env_with true (respond 204 "" None))
              "https://gmail.googleapis.com/gmail/v1/users/me" "DELETE"
              "messages/m1/trash" None None None logged_in_world
              (auth_headers_of fresh_credentials)
              (snd (authenticate (env_with true (respond 204 "" None)) logged_in_world))
              {| resp_url := "https://gmail.googleapis.com/gmail/v1/users/me/messages/m1/trash";
                 resp_status := 204; resp_text := ""; resp_json := None |})
    as (e & H & Hcls & _); try reflexivity.
  exists e. now rewrite H.
Defined.

(** *** No retry *)

(** X10.  Whatever the method, the arguments and the outcome, one [request] makes
    at most one call on the transport, and none for an unsupported method. *)
Theorem request_at_most_one_call :
  forall env base_url method endpoint params data headers w,
    exists calls,
      http_calls (trace (snd (Client.request env base_url method endpoint
                                params data headers w)))
      = (http_calls (trace w) ++ calls)%list
      /\ (List.length calls <= 1)%nat
      /\ (supported method = false -> calls = []).
Proof.
  intros env base_url method endpoint params data headers w.
  destruct (authenticate env w) as [[h|e] w1] eqn:Ha.
  - destruct (supported method) eqn:Hs.
    + eexists. split; [|split; [|discriminate]].
      * apply (ResourceFacts.request_supported_http_calls _ _ _ _ _ _ _ _ _ _ Hs Ha).
      * cbn. lia.
    + exists []. rewrite (request_unsupported _ _ _ _ _ _ _ _ _ _ Hs Ha).
      rewrite app_nil_r. cbn.
      split; [apply (no_http_authenticate env w _ _ Ha) | auto].
  - exists []. rewrite app_nil_r.
    split; [apply (ResourceFacts.request_unauthenticated_http_calls _ _ _ _ _ _ _ _ _ _ Ha) | auto].
Qed.

Lemma request_at_most_one_call_witness :
  http_calls (trace (snd (Client.request
                            (env_with true (respond 200 "{}" (Some (JObj ∅))))
                            "https://gmail.googleapis.com/gmail/v1/users/me"
                            "PATCH" "messages/m1" None None None logged_in_world)))
  = [].
Proof.
  destruct (request_at_most_one_call
              (env_with true (respond 200 "{}" (Some (JObj ∅))))
              "https://gmail.googleapis.com/gmail/v1/users/me"
              "PATCH" "messages/m1" None None None logged_in_world)
    as (calls & Ht & _ & H).
  rewrite Ht, (H eq_refl). reflexivity.
Defined.

(** *** Whose header wins *)

Lemma update_headers_lookup (auth_headers : gmap string string)
      (headers : option (gmap string string)) (k : string) :
  Client.update_headers auth_headers headers !! k
  = match headers with
    | Some h => match h !! k with
                | Some v => Some v
                | None => auth_headers !! k
                end
    | None => auth_headers !! k
    end.
Proof.
  unfold Client.update_headers. destruct headers as [h|]; [|reflexivity].
  case_bool_decide as Hh.
  - subst h. now rewrite lookup_empty.
  - rewrite lookup_union. destruct (h !! k), (auth_headers !! k); reflexivity.
Qed.

(** X11.  The call that goes out carries, under each header name, the value the
    caller passed in [headers] if there is one, and the authenticator's value
    otherwise: a caller's [Authorization] replaces the bearer token, and
    headers the caller does not name are kept. *)
Theorem request_header_precedence :
  forall env base_url method endpoint params data headers w auth_headers w1,
    supported method = true ->
    authenticate env w = (Ok auth_headers, w1) ->
    exists req,
      http_calls (trace (snd (Client.request env base_url method endpoint
                                params data headers w)))
      = (http_calls (trace w) ++ [req])%list
      /\ forall k,
           req_headers req !! k
           = match headers with
             | Some h => match h !! k with
                         | Some v => Some v
                         | None => auth_headers !! k
                         end
             | None => auth_headers !! k
             end.
Proof.
  intros env base_url method endpoint params data headers w auth_headers w1 Hs Ha.
  eexists. split.
  - apply (ResourceFacts.request_supported_http_calls _ _ _ _ _ _ _ _ _ _ Hs Ha).
  - intros k. apply update_headers_lookup.
Qed.

Lemma request_header_precedence_witness :
  exists req,
    http_calls
      (trace (snd (Client.request (env_with true (respond 200 "{}" (Some (JObj ∅))))
                     "https://gmail.googleapis.com/gmail/v1/users/me" "GET"
                     "messages" None None
                     (Some (<["Authorization" := "Bearer other"]> ∅))
                     logged_in_world)))
    = [req]
    /\ req_headers req !! "Authorization" = Some "Bearer other"
    /\ req_headers req !! "Content-Type" = Some "application/json".
Proof.
  destruct (request_header_precedence
              (env_with true (respond 200 "{}" (Some (JObj ∅))))
              "https://gmail.googleapis.com/gmail/v1/users/me" "GET"
              "messages" None None
              (Some (<["Authorization" := "Bearer other"]> ∅))
              logged_in_world
              (auth_headers_of fresh_credentials)
              (snd (authenticate (env_with true (respond 200 "{}" (Some (JObj ∅))))
                      logged_in_world)) eq_refl eq_refl)
    as (req & H1 & H2).
  exists req. split; [exact H1|].
  split; rewrite H2; reflexivity.
Defined.

(** *** The client object *)

(** The authenticator never touches the client, nor records a creation. *)
Lemma get_credentials_keeps_client (env : Env) (w : World) :
  _client (snd (Auth.get_credentials env w)) = _client w
  /\ count is_ClientCreated (trace (snd (Auth.get_credentials env w)))
     = count is_ClientCreated (trace w).
Proof.
  assert (Hrec : forall ev w0, is_ClientCreated ev = false ->
             count is_ClientCreated (trace (record ev w0))
             = count is_ClientCreated (trace w0)).
  { intros ev w0 Hev. rewrite trace_record, count_snoc, Hev. lia. }
  assert (Hsave : forall c w0,
             _client (cached c (saved env c w0)) = _client w0
             /\ count is_ClientCreated (trace (cached c (saved env c w0)))
                = count is_ClientCreated (trace w0)).
  { intros c w0. unfold cached, saved. rewrite _save_token_eq.
    destruct (token_file_write env _); cbn [snd set__credentials _client trace];
      (split; [reflexivity|]); try rewrite trace_record; rewrite count_snoc;
      cbn; lia. }
  assert (Hnew : forall w0,
             _client (snd (obtained env (Auth._get_new_credentials env w0)))
             = _client w0
             /\ count is_ClientCreated
                  (trace (snd (obtained env (Auth._get_new_credentials env w0))))
                = count is_ClientCreated (trace w0)).
  { intros w0. rewrite _get_new_credentials_eq.
    destruct (credentials_file_exists env).
    - destruct (oauth_flow env) as [c|e].
      + cbn [obtained snd]. destruct (Hsave c (record OAuthFlow
                                         (record CredentialsFileExists w0))) as [-> ->].
        now rewrite !Hrec.
      + cbn [obtained snd]. now rewrite !Hrec.
    - cbn [obtained snd]. now rewrite !Hrec. }
  rewrite get_credentials_eq.
  assert (H : _client (snd (Auth.get_credentials_uncached env w)) = _client w
              /\ count is_ClientCreated
                   (trace (snd (Auth.get_credentials_uncached env w)))
                 = count is_ClientCreated (trace w)).
  { rewrite get_credentials_uncached_eq. cbv zeta.
    destruct (token_file w) as [[c|e0]|].
    - destruct (Auth.valid env c).
      + cbn [snd]. unfold cached. cbn [snd set__credentials _client trace].
        now rewrite !Hrec.
      + destruct (Auth.expired env c && Auth.truthy_opt_str (refresh_token c)).
        * destruct (oauth_refresh env c) as [c'|e1]; cbn [snd].
          -- destruct (Hsave c' (record (OAuthRefresh c)
                                   (record TokenFileRead (record TokenFileExists w))))
               as [-> ->].
             now rewrite !Hrec.
          -- now rewrite !Hrec.
        * destruct (Hnew (record TokenFileRead (record TokenFileExists w)))
            as [-> ->].
          now rewrite !Hrec.
    - cbn [snd]. now rewrite !Hrec.
    - destruct (Hnew (record TokenFileExists w)) as [-> ->]. now rewrite !Hrec. }
  destruct (_credentials w) as [c|]; [|exact H].
  destruct (Auth.valid env c); [auto | exact H].
Qed.

Lemma get_auth_headers_keeps_client (env : Env) (w : World) :
  _client (snd (Auth.get_auth_headers env w)) = _client w
  /\ count is_ClientCreated (trace (snd (Auth.get_auth_headers env w)))
     = count is_ClientCreated (trace w).
Proof.
  unfold Auth.get_auth_headers. rewrite bind_eq.
  pose proof (get_credentials_keeps_client env w) as H.
  destruct (Auth.get_credentials env w) as [[c|e] w1]; exact H.
Qed.

Lemma request_world (env : Env) (base_url method endpoint : string)
      params data headers (w : World) :
  _client (snd (Client.request env base_url method endpoint params data headers w))
  = _client (snd (authenticate env w))
  /\ count is_ClientCreated
       (trace (snd (Client.request env base_url method endpoint params data
                      headers w)))
     = count is_ClientCreated (trace (snd (authenticate env w))).
Proof.
  destruct (authenticate env w) as [[h|e] w1] eqn:Ha.
  - destruct (supported method) eqn:Hs.
    + rewrite (request_supported _ _ _ _ _ _ _ _ _ _ Hs Ha). cbv zeta.
      assert (Hrec : forall r,
                 _client (record (HttpCall r) w1) = _client w1
                 /\ count is_ClientCreated (trace (record (HttpCall r) w1))
                    = count is_ClientCreated (trace w1)).
      { intros r. split; [reflexivity|]. rewrite trace_record, count_snoc.
        cbn. lia. }
      destruct (transport env (trace w1) _) as [resp|u m|e]; [|apply Hrec..].
      destruct (is_2xx (resp_status resp)); [|apply Hrec].
      destruct (resp_json resp); apply Hrec.
    + now rewrite (request_unsupported _ _ _ _ _ _ _ _ _ _ Hs Ha).
  - now rewrite (request_authenticate_fails _ _ _ _ _ _ _ _ _ _ Ha).
Qed.

(** *** The first call *)

(** X13.  The first call on a new object, when the token file holds a valid
    credential: the file is looked for and read once, although the headers
    are computed twice; one client is created, with these headers and no
    proxy; then the call is made.  Nothing else happens, and the object is
    then [ready]. *)
Theorem first_request :
  forall env base_url method endpoint params data headers w c,
    _credentials w = None ->
    _client w = None ->
    token_file w = Some (Ok c) ->
    Auth.valid env c = true ->
    supported method = true ->
    let cl := {| client_headers := auth_headers_of c; client_proxies := None |} in
    let req := issued method (base_url ++ "/" ++ endpoint)
                 (Client.update_headers (auth_headers_of c) headers) params data in
    let w' := snd (Client.request env base_url method endpoint params data
                     headers w) in
    trace w' = (trace w ++ [TokenFileExists; TokenFileRead; ClientCreated cl;
                            HttpCall req])%list
    /\ token_file w' = token_file w
    /\ ready env w'.
Proof.
  intros env base_url method endpoint params data headers w c Hc Hcl Hf Hv Hs cl req w'.
  assert (Hcred : forall w0, _credentials w0 = None -> token_file w0 = Some (Ok c) ->
             Auth.get_auth_headers env w0
             = (Ok (auth_headers_of c),
                cached c (record TokenFileRead (record TokenFileExists w0)))).
  { intros w0 H1 H2. unfold Auth.get_auth_headers.
    rewrite bind_eq, get_credentials_eq, H1, get_credentials_uncached_eq.
    cbv zeta. now rewrite H2, Hv. }
  assert (Ha : authenticate env w
               = (Ok (auth_headers_of c),
                  {| _credentials := Some c; _client := Some cl;
                     token_file := token_file w;
                     trace := (trace w ++ [TokenFileExists; TokenFileRead;
                                           ClientCreated cl])%list |})).
  { unfold authenticate. rewrite bind_eq, _get_client_eq, Hcl, (Hcred w Hc Hf).
    cbv beta iota zeta. unfold Auth.get_auth_headers.
    rewrite bind_eq, get_credentials_eq. cbn [_credentials cached snd set__credentials].
    rewrite Hv, ret_eq. cbn. now rewrite <- !app_assoc. }
  subst w'. rewrite (request_supported _ _ _ _ _ _ _ _ _ _ Hs Ha). cbv zeta.
  fold req. cbn [trace].
  assert (H : forall r : result Json,
             let w1 := record (HttpCall req)
                         {| _credentials := Some c; _client := Some cl;
                            token_file := token_file w;
                            trace := (trace w ++ [TokenFileExists; TokenFileRead;
                                                  ClientCreated cl])%list |} in
             trace (snd (r, w1))
             = (trace w ++ [TokenFileExists; TokenFileRead; ClientCreated cl;
                            HttpCall req])%list
             /\ token_file (snd (r, w1)) = token_file w
             /\ ready env (snd (r, w1))).
  { intros r w1. subst w1. cbn. rewrite <- !app_assoc. split; [reflexivity|].
    split; [reflexivity|]. exists c, cl. auto. }
  destruct (transport env _ req) as [resp|u m|e]; [|apply H..].
  destruct (is_2xx (resp_status resp)); [|apply H].
  destruct (resp_json resp); apply H.
Qed.

Lemma first_request_witness :
  let env := env_with true (respond 200 "{}" (Some (JObj ∅))) in
  List.length
    (trace (snd (Client.request env
                   "https://gmail.googleapis.com/gmail/v1/users/me" "GET" "messages"
                   None None None
                   {| _credentials := None; _client := None;
                      token_file := Some (Ok fresh_credentials); trace := [] |})))
  = 4%nat.
Proof.
  cbv zeta.
  destruct (first_request (env_with true (respond 200 "{}" (Some (JObj ∅))))
              "https://gmail.googleapis.com/gmail/v1/users/me" "GET" "messages"
              None None None
              {| _credentials := None; _client := None;
                 token_file := Some (Ok fresh_credentials); trace := [] |}
              fresh_credentials eq_refl eq_refl eq_refl eq_refl eq_refl)
    as [H _].
  rewrite H. reflexivity.
Defined.

(** X14.  [request] creates a client only when there is none: an existing client
    is kept, whatever the outcome of the call.  The client it creates when
    the headers can be obtained is built without proxies, whatever
    [HTTP_PROXY] says, since [request] asks for the client without [proxy]. *)
Theorem request_client_lifecycle :
  forall env base_url method endpoint params data headers w,
    let w' := snd (Client.request env base_url method endpoint params data
                     headers w) in
    (forall cl,
        _client w = Some cl ->
        _client w' = Some cl
        /\ count is_ClientCreated (trace w') = count is_ClientCreated (trace w))
    /\ (forall auth_headers w1,
           _client w = None ->
           authenticate env w = (Ok auth_headers, w1) ->
           exists cl,
             _client w' = Some cl
             /\ client_proxies cl = None
             /\ count is_ClientCreated (trace w')
                = S (count is_ClientCreated (trace w))).
Proof.
  intros env base_url method endpoint params data headers w w'.
  destruct (request_world env base_url method endpoint params data headers w)
    as [Hcl Hcount].
  fold w' in Hcl, Hcount. rewrite Hcl, Hcount. clear Hcl Hcount w'.
  unfold authenticate. rewrite bind_eq, _get_client_eq.
  split.
  - intros cl Hw. rewrite Hw.
    pose proof (get_auth_headers_keeps_client env w) as [H1 H2].
    now rewrite H1, H2.
  - intros auth_headers w1 Hw. rewrite Hw.
    pose proof (get_auth_headers_keeps_client env w) as [H1 H2].
    destruct (Auth.get_auth_headers env w) as [[h0|e] w0]; [|discriminate].
    cbn [snd] in H1, H2. intros _. cbv beta iota zeta.
    match goal with
    | |- context [Auth.get_auth_headers env ?w2] =>
        pose proof (get_auth_headers_keeps_client env w2) as [H3 H4]
    end.
    eexists. rewrite H3, H4. cbn [_client trace]. split; [reflexivity|].
    split; [reflexivity|].
    rewrite count_snoc, H2. cbn. lia.
Qed.

Lemma request_client_lifecycle_witness :
  exists cl,
    _client (snd (Client.request (env_with true (respond 200 "{}" (Some (JObj ∅))))
                    "https://gmail.googleapis.com/gmail/v1/users/me" "GET"
                    "messages" None None None logged_in_world))
    = Some cl
    /\ client_proxies cl = None.
Proof.
  destruct (request_client_lifecycle
              (env_with true (respond 200 "{}" (Some (JObj ∅))))
              "https://gmail.googleapis.com/gmail/v1/users/me" "GET"
              "messages" None None None logged_in_world) as [_ H].
  destruct (H (auth_headers_of fresh_credentials)
              (snd (authenticate (env_with true (respond 200 "{}" (Some (JObj ∅))))
                      logged_in_world)) eq_refl eq_refl)
    as (cl & H1 & H2 & _).
  now exists cl.
Defined.

(** *** Closing *)



End ClientMore.

(* ===================================================================== *)
(** ** Resource handlers: bodies, listings with details *)

Module ResourceMore.
Import Examples Samples AuthFacts ClientFacts ResourceFacts AuthMore ClientMore.
Import Resources.

(** *** What [get_all] makes of the body *)

(** X16.  Once the GET has succeeded, [BaseGmailResource.get_all] returns the
    value found under the list key as it is, list or not; a body that is not
    a JSON object (a bare list, say) has no [get] and the handler reports
    [GmailResourceError]. *)
Theorem get_all_reads_list_key :
  forall env base_url endpoint list_key params headers w j w',
    Client.get env base_url endpoint params headers w = (Ok j, w') ->
    (forall m v,
        j = JObj m -> m !! list_key = Some v ->
        base_get_all env base_url endpoint list_key params headers w = (Ok v, w'))
    /\ (is_object j = false ->
        exists msg,
          base_get_all env base_url endpoint list_key params headers w
          = (Raise (new GmailResourceError
                      ("Failed to get " ++ endpoint ++ ": " ++ msg)), w')).
Proof.
  intros env base_url endpoint list_key params headers w j w' Hget. split.
  - intros m v -> Hv. unfold base_get_all. apply except_Exception_ok.
    rewrite bind_eq, Hget. unfold json_get, dict_get. now rewrite Hv.
  - intros Hj. eexists. unfold base_get_all.
    apply except_Exception_raise with (msg := fun e => _).
    rewrite bind_eq, Hget. destruct j; try discriminate Hj; reflexivity.
Qed.

Lemma get_all_reads_list_key_witness :
  let env := env_with true
               (respond 200 "" (Some (JObj (<["drafts" := JArr [JStr "d1"]]> ∅)))) in
  fst (base_get_all env "https://gmail.googleapis.com/gmail/v1/users/me"
         "drafts" "drafts" None None logged_in_world)
  = Ok (JArr [JStr "d1"]).
Proof.
  cbv zeta.
  destruct (get_all_reads_list_key
              (env_with true
                 (respond 200 "" (Some (JObj (<["drafts" := JArr [JStr "d1"]]> ∅)))))
              "https://gmail.googleapis.com/gmail/v1/users/me"
              "drafts" "drafts" None None logged_in_world
              (JObj (<["drafts" := JArr [JStr "d1"]]> ∅))
              (snd (Client.get
                      (env_with true
                         (respond 200 ""
                            (Some (JObj (<["drafts" := JArr [JStr "d1"]]> ∅)))))
                      "https://gmail.googleapis.com/gmail/v1/users/me"
                      "drafts" None None logged_in_world)) eq_refl) as [H _].
  now rewrite (H _ (JArr [JStr "d1"]) eq_refl eq_refl).
Defined.

(** *** A 2xx answer without a JSON body *)

(** X17.  [delete] and [undelete] return nothing, yet they need a JSON body: when
    the transport answers their call with a 2xx status and a body that is not
    JSON, the handler raises [GmailResourceError], with the call already
    made. *)
Theorem delete_needs_json_body :
  forall env config base_url endpoint resource_id headers w auth_headers w1,
    authenticate env w = (Ok auth_headers, w1) ->
    let hs := Client.update_headers auth_headers headers in
    let url := base_url ++ "/" ++ endpoint ++ "/" ++ resource_id ++ "/" in
    (forall resp,
        transport env (trace w1) (DELETE (url ++ Config.TRASH_SUFFIX config) hs)
        = Responded resp ->
        is_2xx (resp_status resp) = true -> resp_json resp = None ->
        exists msg,
          base_delete env config base_url endpoint resource_id headers w
          = (Raise (new GmailResourceError
                      ("Failed to delete " ++ endpoint ++ "/" ++ resource_id
                       ++ ": " ++ msg)),
             record (HttpCall (DELETE (url ++ Config.TRASH_SUFFIX config) hs)) w1))
    /\ (forall resp,
           transport env (trace w1)
             (POST (url ++ Config.UNTRASH_SUFFIX config) hs (JObj ∅))
           = Responded resp ->
           is_2xx (resp_status resp) = true -> resp_json resp = None ->
           exists msg,
             base_undelete env config base_url endpoint resource_id headers w
             = (Raise (new GmailResourceError
                         ("Failed to undelete " ++ endpoint ++ "/" ++ resource_id
                          ++ ": " ++ msg)),
                record (HttpCall (POST (url ++ Config.UNTRASH_SUFFIX config) hs
                                    (JObj ∅))) w1)).
Proof.
  intros env config base_url endpoint resource_id headers w auth_headers w1 Ha hs url.
  split; intros resp Ht H2 Hj; eexists.
  - unfold base_delete. apply except_Exception_raise with (msg := fun e => _).
    unfold Client.delete. rewrite bind_eq.
    rewrite (request_supported env base_url "DELETE" _ None None headers w _ _
               eq_refl Ha).
    cbv zeta.
    change (issued "DELETE" ?u ?h None None) with (DELETE u h).
    subst url hs. rewrite !StringFacts.sapp_assoc in Ht |- *.
    rewrite Ht, H2, Hj. reflexivity.
  - unfold base_undelete. apply except_Exception_raise with (msg := fun e => _).
    rewrite bind_eq. unfold Client.post.
    rewrite (request_supported env base_url "POST" _ None (Some (JObj ∅)) headers w _ _
               eq_refl Ha).
    cbv zeta.
    change (issued "POST" ?u ?h None (Some ?d)) with (POST u h d).
    subst url hs. rewrite !StringFacts.sapp_assoc in Ht |- *.
    rewrite Ht, H2, Hj. reflexivity.
Qed.

(** *** A listing with details, on an instance of the base class *)

(** On a [BaseGmailResource] the call [self.get_all(endpoint, list_key,
    params=..., headers=...)] reaches the method it was written for. *)
Lemma bound_get_all_base :
  forall env config base_url depth endpoint list_key params headers w,
    bound_get_all env config base_url (S depth) BaseGmailResource
      [PyStr endpoint; PyStr list_key]
      [("params", of_opt_params params); ("headers", of_opt_headers headers)] w
    = base_get_all env base_url endpoint list_key params headers w.
Proof.
  intros env config base_url depth endpoint list_key params headers w.
  cbn [bound_get_all get_all_signature]. rewrite bind_base_signature.
  destruct params, headers; reflexivity.
Qed.

Lemma get_ready :
  forall env base_url endpoint params headers w,
    ready env w ->
    let req := GET (base_url ++ "/" ++ endpoint)
                 (Client.update_headers (auth_headers_of (credential_of w)) headers)
                 params in
    Client.get env base_url endpoint params headers w
    = match transport env (trace w) req with
      | Responded resp =>
          if is_2xx (resp_status resp) then
            match resp_json resp with
            | Some j => (Ok j, record (HttpCall req) w)
            | None => (Raise (new JSONDecodeError "Expecting value"),
                       record (HttpCall req) w)
            end
          else
            (Raise (mk_exn GmailAPIError
                      ("HTTP error for " ++ resp_url resp ++ " - "
                       ++ str_int (resp_status resp) ++ " - " ++ resp_text resp)
                      (Some (resp_status resp)) (Some (resp_text resp)) None),
             record (HttpCall req) w)
      | TransportFailed url msg =>
          (Raise (new GmailRequestError ("Request error for " ++ url ++ ": " ++ msg)),
           record (HttpCall req) w)
      | CallRaised e => (Raise (converted e), record (HttpCall req) w)
      end.
Proof.
  intros env base_url endpoint params headers w Hr req. unfold Client.get.
  now rewrite (request_supported env base_url "GET" endpoint params None headers
                 w _ w eq_refl (authenticate_ready env w Hr)).
Qed.

Lemma base_get_by_id_ready :
  forall env base_url endpoint resource_id params headers w,
    ready env w ->
    snd (base_get_by_id env base_url endpoint resource_id params headers w)
    = record (HttpCall
                (GET (base_url ++ "/" ++ endpoint ++ "/" ++ resource_id)
                   (Client.update_headers (auth_headers_of (credential_of w)) headers)
                   params)) w.
Proof.
  intros env base_url endpoint resource_id params headers w Hr.
  unfold base_get_by_id. rewrite except_Exception_world. unfold Client.get.
  now rewrite (request_ready env base_url "GET" _ params None headers w Hr eq_refl).
Qed.

Lemma detail_ids_objects (items : list Json) (w : World) :
  forallb is_object items = true ->
  detail_ids items w = (Ok (map id_of items), w).
Proof.
  induction items as [|item items IH]; intros H; [reflexivity|].
  cbn [forallb] in H. apply andb_true_iff in H as [Hi Hs].
  cbn [detail_ids map]. rewrite !bind_eq.
  destruct item; try discriminate Hi. cbn [json_get id_of].
  rewrite ret_eq, bind_eq, (IH Hs). reflexivity.
Qed.

Lemma gather_results_length {A} (outcomes : list (result A)) (l : list A) :
  gather_results outcomes = Ok l -> List.length l = List.length outcomes.
Proof.
  revert l. induction outcomes as [|[a|e] outcomes IH]; intros l; cbn.
  - now intros [= <-].
  - destruct (gather_results outcomes) as [l0|e]; [|discriminate].
    intros [= <-]. cbn. now rewrite (IH l0).
  - discriminate.
Qed.

Section Details.
Variables (env : Env) (base_url : string).
Variables (detail_endpoint : string) (detail_params : option (gmap string Json)).
Variable headers : option (gmap string string).

(** The detail tasks: every one of them makes its call, in the order of the
    list, whatever the others come back with. *)
Lemma run_tasks_details (rids : list Json) :
  forall w,
    ready env w ->
    let hs := Client.update_headers (auth_headers_of (credential_of w)) headers in
    let tasks :=
      map (fun rid =>
             base_get_by_id env base_url detail_endpoint (str_json env rid)
               detail_params headers) rids in
    exists outcomes w',
      run_tasks tasks w = (Ok outcomes, w')
      /\ List.length outcomes = List.length rids
      /\ http_calls (trace w')
         = (http_calls (trace w)
            ++ map (fun rid =>
                      GET (base_url ++ "/" ++ detail_endpoint ++ "/"
                           ++ str_json env rid) hs detail_params) rids)%list.
Proof.
  induction rids as [|rid rids IH]; intros w Hr hs tasks.
  - exists [], w. cbn. now rewrite app_nil_r.
  - subst tasks. cbn [map run_tasks]. rewrite bind_eq.
    pose proof (base_get_by_id_ready env base_url detail_endpoint
                  (str_json env rid) detail_params headers w Hr) as Hw.
    destruct (base_get_by_id env base_url detail_endpoint (str_json env rid)
                detail_params headers w) as [r w1].
    cbn [snd] in Hw. subst w1.
    match goal with
    | |- context [record (HttpCall ?r0) w] => set (req := r0)
    end.
    destruct (IH (record (HttpCall req) w) (ready_record env _ w Hr))
      as (outcomes & w' & Hrun & Hlen & Hcalls).
    exists (r :: outcomes), w'. rewrite bind_eq, Hrun, ret_eq.
    split; [reflexivity|]. split; [cbn; now rewrite Hlen|].
    rewrite Hcalls, trace_record, http_calls_app, <- app_assoc. reflexivity.
Qed.

End Details.

(** X18.  On an instance of [BaseGmailResource], in a world where the credential
    is valid and the client exists, [get_all_with_details] does what its name
    says.  Given a successful listing whose list key holds the objects
    [items], it makes one detail call per item after the listing call, in the
    order of the list and for the id of each item, and every one of these
    calls is made whatever the others come back with; a result, when there is
    one, has one entry per item. *)
Theorem get_all_with_details_on_base :
  forall env config base_url depth endpoint list_key detail_endpoint detail_params
         params headers w resp m items,
    ready env w ->
    let hs := Client.update_headers (auth_headers_of (credential_of w)) headers in
    let list_call := GET (base_url ++ "/" ++ endpoint) hs params in
    let run :=
      get_all_with_details env
        (bound_get_all env config base_url (S depth) BaseGmailResource)
        endpoint list_key
        (fun rid h => base_get_by_id env base_url detail_endpoint rid detail_params h)
        params headers w in
    transport env (trace w) list_call = Responded resp ->
    is_2xx (resp_status resp) = true ->
    resp_json resp = Some (JObj m) ->
    m !! list_key = Some (JArr items) ->
    forallb is_object items = true ->
    http_calls (trace (snd run))
    = (http_calls (trace w)
       ++ list_call
       :: map (fun item =>
                 GET (base_url ++ "/" ++ detail_endpoint ++ "/"
                      ++ str_json env (id_of item)) hs detail_params) items)%list
    /\ (forall results,
           fst run = Ok (JArr results) ->
           List.length results = List.length items).
Proof.
  intros env config base_url depth endpoint list_key detail_endpoint detail_params
         params headers w resp m items Hr hs list_call run Ht H2 Hj Hm Hitems.
  assert (Hlist : base_get_all env base_url endpoint list_key params headers w
                  = (Ok (JArr items), record (HttpCall list_call) w)).
  { unfold base_get_all. apply except_Exception_ok.
    rewrite bind_eq, (get_ready env base_url endpoint params headers w Hr).
    cbv zeta. fold hs. fold list_call. rewrite Ht, H2, Hj.
    unfold json_get, dict_get. now rewrite Hm. }
  subst run. unfold get_all_with_details.
  rewrite bind_eq, bound_get_all_base, Hlist.
  destruct items as [|item items'] eqn:Hi.
  - cbn. rewrite http_calls_app. split; [reflexivity|].
    now intros results [= <-].
  - rewrite <- Hi in *. replace (truthy_json (JArr items)) with true by now subst.
    cbn [negb iter_json]. rewrite bind_eq, ret_eq, bind_eq.
    rewrite (detail_ids_objects items _ Hitems), bind_eq.
    unfold gather. rewrite bind_eq.
    destruct (run_tasks_details env base_url detail_endpoint detail_params headers
                (map id_of items) (record (HttpCall list_call) w)
                (ready_record env _ w Hr))
      as (outcomes & w' & Hrun & Hlen & Hcalls).
    rewrite Hrun. rewrite length_map in Hlen. rewrite map_map in Hcalls.
    destruct (gather_results outcomes) as [l|e] eqn:Hg.
    + cbn. split.
      * rewrite Hcalls, trace_record, http_calls_app, <- app_assoc. reflexivity.
      * intros results [= <-]. rewrite <- Hlen. now apply gather_results_length.
    + cbn. split.
      * rewrite Hcalls, trace_record, http_calls_app, <- app_assoc. reflexivity.
      * discriminate.
Qed.

Lemma ready_ready_world (answer : Request -> TransportOutcome) :
  ready (env_with true answer) ready_world.
Proof. exists fresh_credentials. eexists. repeat split; reflexivity. Qed.

Lemma get_all_with_details_on_base_witness :
  let env := env_with true (respond 200 "" (Some two_messages)) in
  map req_url
    (http_calls
       (trace (snd (get_all_with_details env
                      (bound_get_all env Config.default me 1 BaseGmailResource)
                      "messages" "messages"
                      (fun rid h => base_get_by_id env me "messages" rid None h)
                      None None ready_world))))
  = [me ++ "/messages"; me ++ "/messages/m1"; me ++ "/messages/m2"].
Proof.
  cbv zeta.
  destruct (get_all_with_details_on_base
              (env_with true (respond 200 "" (Some two_messages))) Config.default me
              0 "messages" "messages" "messages" None None None ready_world
              {| resp_url := me ++ "/messages"; resp_status := 200; resp_text := "";
                 resp_json := Some two_messages |}
              (<["messages" := JArr [JObj (<["id" := JStr "m1"]> ∅);
                                     JObj (<["id" := JStr "m2"]> ∅)]]> ∅)
              [JObj (<["id" := JStr "m1"]> ∅); JObj (<["id" := JStr "m2"]> ∅)]
              (ready_ready_world _)) as [H _]; [reflexivity..|].
  rewrite H. reflexivity.
Defined.

Lemma delete_needs_json_body_witness :
  exists msg,
    fst (base_delete (env_with true (respond 204 "" None)) Config.default me
           "messages" "m1" None ready_world)
    = Raise (new GmailResourceError ("Failed to delete messages/m1: " ++ msg)).
Proof.
  destruct (delete_needs_json_body (env_with true (respond 204 "" None))
              Config.default me "messages" "m1" None ready_world
              (auth_headers_of fresh_credentials) ready_world eq_refl) as [H _].
  destruct (H {| resp_url := me ++ "/messages/m1/trash"; resp_status := 204;
                 resp_text := ""; resp_json := None |}) as [msg Hmsg];
    try reflexivity.
  exists msg. now rewrite Hmsg.
Defined.

End ResourceMore.

(* ===================================================================== *)
(** ** The facade: what each operation puts on the wire *)

Module ApiMore.
Import Examples Samples AuthFacts ClientFacts ResourceFacts AuthMore ClientMore
  ResourceMore.
Import Resources.

Lemma bind_json_get_world (m : M Json) (key : string) (default : Json) (w : World) :
  snd ((response ← m; json_get response key default) w) = snd (m w).
Proof.
  rewrite bind_eq. destruct (m w) as [[j|e] w1]; [|reflexivity].
  now destruct j.
Qed.

Section Ready.
Variables (env : Env) (w : World).
Hypothesis Hready : ready env w.

Lemma sent_request (method endpoint : string) params data headers :
  supported method = true ->
  http_calls (trace (snd (Client.request env Api.base_url method endpoint params
                            data headers w)))
  = (http_calls (trace w)
     ++ [issued method (Api.base_url ++ "/" ++ endpoint)
           (Client.update_headers (auth_headers_of (credential_of w)) headers)
           params data])%list.
Proof.
  intros Hs.
  rewrite (request_ready env Api.base_url method endpoint params data headers w
             Hready Hs).
  now rewrite trace_record, http_calls_app.
Qed.

End Ready.

Ltac facade :=
  unfold Api.get_messages, Api.get_drafts, Api.get_threads,
    Api.get_message, Api.get_draft, Api.get_thread,
    Api.send_message, Api.create_draft, Api.update_draft, Api.update_message,
    Api.delete_message, Api.delete_draft, Api.delete_thread, Api.undelete_thread,
    get_all, sub_get_all, get_by_id, delete, threads_undelete, messages_send,
    messages_update, drafts_create, drafts_update,
    base_get_all, base_get_by_id, base_create, base_update, base_delete,
    base_undelete;
  rewrite except_Exception_world;
  try rewrite bind_json_get_world;
  try rewrite bind_world;
  unfold Client.get, Client.post, Client.put, Client.delete;
  try rewrite bind_world;
  rewrite sent_request by (assumption || reflexivity);
  reflexivity.

(** X19.  With the credential valid and the client in place, the reading
    operations of [GmailAPICaller] each make exactly one call: a listing is a
    GET on [<BASE_URL>/messages], [/drafts] or [/threads] without query
    parameters, and a lookup is a GET on [<BASE_URL>/<endpoint>/<id>] with the
    one parameter [format=full].  The headers are the authorization headers
    updated with the caller's. *)
Theorem facade_reads :
  forall env w headers id,
    ready env w ->
    let hs := Client.update_headers (auth_headers_of (credential_of w)) headers in
    let sent (m : M Json) := http_calls (trace (snd (m w))) in
    let before := http_calls (trace w) in
    let full := Some (<["format" := JStr "full"]> (∅ : gmap string Json)) in
    sent (Api.get_messages env headers false)
    = (before ++ [GET (me ++ "/messages") hs None])%list
    /\ sent (Api.get_drafts env headers false)
       = (before ++ [GET (me ++ "/drafts") hs None])%list
    /\ sent (Api.get_threads env headers false)
       = (before ++ [GET (me ++ "/threads") hs None])%list
    /\ sent (Api.get_message env id headers)
       = (before ++ [GET (me ++ "/messages/" ++ id) hs full])%list
    /\ sent (Api.get_draft env id headers)
       = (before ++ [GET (me ++ "/drafts/" ++ id) hs full])%list
    /\ sent (Api.get_thread env id headers)
       = (before ++ [GET (me ++ "/threads/" ++ id) hs full])%list.
Proof.
  intros env w headers id Hr hs sent before full. subst hs sent before full.
  repeat split; facade.
Qed.

Lemma facade_reads_witness :
  map req_url
    (http_calls (trace (snd (Api.get_thread
                               (env_with true (respond 200 "{}" (Some (JObj ∅))))
                               "t1" None ready_world))))
  = [me ++ "/threads/t1"].
Proof.
  destruct (facade_reads (env_with true (respond 200 "{}" (Some (JObj ∅))))
              ready_world None "t1" (ready_ready_world _))
    as (_ & _ & _ & _ & _ & H).
  rewrite H. reflexivity.
Defined.

(** X20.  The writing operations likewise make exactly one call each.
    [send_message] POSTs the message itself to [<BASE_URL>/messages/send];
    [create_draft] and [update_draft] wrap it as [{"message": message}] and
    POST it to [/drafts], PUT it to [/drafts/<id>]; [update_message] PUTs the
    data to [/messages/<id>].  The three [delete_*] operations send DELETE to
    [/<endpoint>/<id>/trash], that is, they move to the trash, and
    [undelete_thread] POSTs an empty object to [/threads/<id>/untrash]. *)
Theorem facade_writes :
  forall env w headers id message,
    ready env w ->
    let hs := Client.update_headers (auth_headers_of (credential_of w)) headers in
    let sent {A} (m : M A) := http_calls (trace (snd (m w))) in
    let before := http_calls (trace w) in
    let wrapped := JObj (<["message" := message]> ∅) in
    sent (Api.send_message env message headers)
    = (before ++ [POST (me ++ "/messages/send") hs message])%list
    /\ sent (Api.create_draft env message headers)
       = (before ++ [POST (me ++ "/drafts") hs wrapped])%list
    /\ sent (Api.update_draft env id message headers)
       = (before ++ [PUT (me ++ "/drafts/" ++ id) hs wrapped])%list
    /\ sent (Api.update_message env id message headers)
       = (before ++ [PUT (me ++ "/messages/" ++ id) hs message])%list
    /\ sent (Api.delete_message env id headers)
       = (before ++ [DELETE (me ++ "/messages/" ++ id ++ "/trash") hs])%list
    /\ sent (Api.delete_draft env id headers)
       = (before ++ [DELETE (me ++ "/drafts/" ++ id ++ "/trash") hs])%list
    /\ sent (Api.delete_thread env id headers)
       = (before ++ [DELETE (me ++ "/threads/" ++ id ++ "/trash") hs])%list
    /\ sent (Api.undelete_thread env id headers)
       = (before ++ [POST (me ++ "/threads/" ++ id ++ "/untrash") hs (JObj ∅)])%list.
Proof.
  intros env w headers id message Hr hs sent before wrapped.
  subst hs sent before wrapped.
  repeat split; facade.
Qed.

Lemma facade_writes_witness :
  http_calls (trace (snd (Api.create_draft
                            (env_with true (respond 200 "{}" (Some (JObj ∅))))
                            (JObj (<["raw" := JStr "QQ=="]> ∅)) None ready_world)))
  = [POST (me ++ "/drafts") (auth_headers_of fresh_credentials)
       (JObj (<["message" := JObj (<["raw" := JStr "QQ=="]> ∅)]> ∅))].
Proof.
  destruct (facade_writes (env_with true (respond 200 "{}" (Some (JObj ∅))))
              ready_world None "d1" (JObj (<["raw" := JStr "QQ=="]> ∅))
              (ready_ready_world _))
    as (_ & H & _).
  rewrite H. reflexivity.
Defined.

End ApiMore.

(* ===================================================================== *)
(** ** Messages: the [raw] field, failures of [parse_message], headers *)

Module MessageMore.
Import Base64 Alphabet Email Parser Shape.
Import Base64Facts StringFacts ParserFacts RoundTripFacts.
#[local] Arguments String.append !s1 s2 : simpl nomatch.

(** *** The [raw] field *)









(** *** How [parse_message] fails *)




(** *** Either alphabet *)





(** *** Headers there and back *)







Lemma all_ascii_flatten_plain (t : string) :
  Base64.all_ascii (flatten_part (MIMEText t "plain")) = true.
Proof.
  unfold MIMEText. destruct (Base64.all_ascii t) eqn:Ht;
    unfold flatten_part; cbn [part_headers part_payload];
    rewrite !all_ascii_app; apply andb_true_iff; split; try reflexivity;
    apply andb_true_iff; split; try reflexivity; apply all_ascii_write_lines.
  - exact Ht.
  - apply all_ascii_body_encode.
Qed.

(** The document begins with the header block and an empty line, and it is
    ASCII whatever the texts are. *)
Lemma as_bytes_header_block (token : N) (E : list (string * string)) (text : string)
      (ps : list Part) :
  Forall user_header E ->
  (ps = [] \/ exists h, ps = [MIMEText h "html"]) ->
  let b := built_boundary token E text ps in
  exists R,
    as_bytes token (built E text ps)
    = concat_strings (L0 :: L1 b :: L2 :: map header_line E) ++ NL ++ R
    /\ Base64.all_ascii (as_bytes token (built E text ps)) = true.
Proof.
  intros HE Hps b.
  pose proof (built_boundary_shape token E text ps) as Hb. fold b in Hb.
  pose proof (boundary_chars_facts b (boundary_shape_chars b Hb)) as (_ & Ha & _).
  assert (Hform : exists R,
             as_bytes token (built E text ps)
             = concat_strings (L0 :: L1 b :: L2 :: map header_line E) ++ NL ++ R
             /\ Base64.all_ascii R = true).
  { unfold as_bytes. change (boundary_of token (built E text ps)) with b.
    change (subtype (built E text ps)) with "alternative".
    change (extra_headers (built E text ps)) with E.
    change (parts (built E text ps)) with (MIMEText text "plain" :: ps).
    rewrite (write_headers_top b E Hb HE). eexists. split; [reflexivity|].
    destruct Hps as [-> | [h ->]]; cbn [map concat_strings];
      rewrite !all_ascii_app, ?all_ascii_flatten_plain, ?all_ascii_flatten_html, Ha;
      reflexivity. }
  destruct Hform as (R & HR & HaR). exists R. split; [exact HR|].
  rewrite HR, !all_ascii_app, HaR.
  rewrite all_ascii_concat; [reflexivity|].
  assert (HL1 : Base64.all_ascii (L1 b) = true).
  { unfold L1, quoted. change (String DQUOTE (b ++ String DQUOTE ""))
      with (String DQUOTE "" ++ b ++ String DQUOTE "").
    now rewrite !all_ascii_app, Ha. }
  constructor; [reflexivity|]. constructor; [exact HL1|].
  constructor; [reflexivity|].
  apply Forall_map. eapply Forall_impl; [exact HE|].
  intros h Hh. now destruct (user_header_line h Hh) as (_ & _ & H3).
Qed.



(** *** Both bodies there and back *)

Lemma _parsegen_html (fuel : nat) (stack : list eof_matcher) (dt : string)
      (lines hl lines1 body rest : list string) (headers : list (string * string)) :
  take_headers stack lines = (hl, lines1) ->
  _parse_headers hl = (headers, None) ->
  get_content_type dt headers = "text/html" ->
  read_all stack lines1 = (body, rest) ->
  _parsegen (S fuel) stack dt lines = (Leaf headers (concat_strings body), rest).
Proof.
  intros H1 H2 H3 H4. cbn [_parsegen]. rewrite H1, H2. cbv beta iota zeta.
  unfold get_content_maintype. rewrite H3, H4. reflexivity.
Qed.

Lemma _parts_close (fuel : nat) (dt : string) (b : string) :
  _parts (S fuel) [] ("--" ++ b) dt [closing b] = ([], []).
Proof.
  cbn [_parts readline existsb]. unfold closing.
  now rewrite boundary_match_close.
Qed.

(** The parse of the lines of a message with two parts. *)
Lemma _parsegen_built_two (fuel : nat) (b : string) (U body1 body2 : list string) :
  boundary_shape b ->
  Forall user_line U ->
  Forall (fun l => strip_prefix ("--" ++ b) l = None) body1 ->
  Forall (fun l => strip_prefix ("--" ++ b) l = None) body2 ->
  exists hs,
    _parsegen (S (S (S (S fuel)))) [] "text/plain"
      (L0 :: L1 b :: L2 :: U ++ NL :: delimiter b
          :: P0 :: P1 :: P2 :: NL :: body1 ++ delimiter b
          :: Q0 :: P1 :: P2 :: NL :: body2 ++ [closing b])%list
    = (Node hs [Leaf plain_part_headers (chomp (concat_strings body1));
                Leaf html_part_headers (chomp (concat_strings body2))], []).
Proof.
  intros Hb HU Hbody1 Hbody2.
  destruct (_parse_headers_top b U HU) as [hs Hhs].
  set (second := (Q0 :: P1 :: P2 :: NL :: body2 ++ [closing b])%list).
  set (first := (P0 :: P1 :: P2 :: NL :: body1 ++ delimiter b :: second)%list).
  assert (Hhtml : _parsegen (S fuel) [AtBoundary ("--" ++ b)] "text/plain" second
                  = (Leaf html_part_headers (concat_strings body2), [closing b])).
  { apply _parsegen_html with (hl := [Q0; P1; P2]) (lines1 := (body2 ++ [closing b])%list).
    - apply (take_headers_block _ [Q0; P1; P2]).
      + repeat constructor;
          try (apply at_eof_none, not_delimiter; reflexivity); reflexivity.
      + apply at_eof_none, not_delimiter. reflexivity.
    - vm_compute. reflexivity.
    - reflexivity.
    - apply read_all_until; [exact Hbody2|].
      exists true. unfold closing. apply boundary_match_close. }
  assert (Hplain : _parsegen (S (S fuel)) [AtBoundary ("--" ++ b)] "text/plain" first
                   = (Leaf plain_part_headers (concat_strings body1),
                      delimiter b :: second)).
  { apply _parsegen_text with (hl := [P0; P1; P2])
                              (lines1 := (body1 ++ delimiter b :: second)%list).
    - apply (take_headers_block _ [P0; P1; P2]).
      + repeat constructor;
          try (apply at_eof_none, not_delimiter; reflexivity); reflexivity.
      + apply at_eof_none, not_delimiter. reflexivity.
    - vm_compute. reflexivity.
    - reflexivity.
    - apply read_all_until; [exact Hbody1|].
      exists false. unfold delimiter. apply boundary_match_inner. }
  assert (Hparts2 : _parts (S (S fuel)) [] ("--" ++ b) "text/plain"
                      (delimiter b :: second)
                    = ([Leaf html_part_headers (chomp (concat_strings body2))], [])).
  { unfold delimiter.
    rewrite (_parts_inner _ _ _ _ _ (boundary_match_inner _)). cbv zeta.
    assert (Hskip : skip_boundaries [] ("--" ++ b) second = second).
    { unfold second. cbn [skip_boundaries existsb].
      rewrite (boundary_match_none _ Q0) by (apply not_delimiter; reflexivity).
      reflexivity. }
    rewrite Hskip, Hhtml, _parts_close. reflexivity. }
  assert (Hparts1 : _parts (S (S (S fuel))) [] ("--" ++ b) "text/plain"
                      (delimiter b :: first)
                    = ([Leaf plain_part_headers (chomp (concat_strings body1));
                        Leaf html_part_headers (chomp (concat_strings body2))], [])).
  { unfold delimiter at 1.
    rewrite (_parts_inner _ _ _ _ _ (boundary_match_inner _)). cbv zeta.
    assert (Hskip : skip_boundaries [] ("--" ++ b) first = first).
    { unfold first. cbn [skip_boundaries existsb].
      rewrite (boundary_match_none _ P0) by (apply not_delimiter; reflexivity).
      reflexivity. }
    rewrite Hskip, Hplain, Hparts2. reflexivity. }
  exists (("Content-Type", content_type_value b) :: hs).
  rewrite (_parsegen_multipart _ _ _ _ (L0 :: L1 b :: L2 :: U)
             (delimiter b :: first) (delimiter b :: first)
             (("Content-Type", content_type_value b) :: hs) b).
  - now rewrite Hparts1.
  - apply (take_headers_block [] (L0 :: L1 b :: L2 :: U)); [|reflexivity].
    repeat constructor; try reflexivity.
    eapply Forall_impl; [exact HU|]. intros l [H _]. split; [reflexivity | exact H].
  - exact Hhs.
  - apply get_content_type_multipart.
  - now apply get_boundary_found.
  - unfold delimiter. cbn [skip_preamble existsb]. now rewrite boundary_match_inner.
Qed.

Lemma flatten_part_html (h : string) :
  Base64.all_ascii h = true -> has_char CR h = false ->
  flatten_part (MIMEText h "html") = concat_strings [Q0; P1; P2] ++ NL ++ h.
Proof.
  intros Ha Hc. unfold MIMEText. rewrite Ha. unfold flatten_part.
  cbn [part_headers part_payload]. rewrite (write_lines_no_CR _ Hc). reflexivity.
Qed.

(** The lines of a document with two parts. *)
Lemma as_bytes_lines_two (token : N) (E : list (string * string)) (text h : string) :
  Forall user_header E ->
  Base64.all_ascii text = true -> has_char CR text = false ->
  Base64.all_ascii h = true -> has_char CR h = false ->
  let b := built_boundary token E text [MIMEText h "html"] in
  split_lines (as_bytes token (built E text [MIMEText h "html"]))
  = (L0 :: L1 b :: L2 :: map header_line E ++ NL :: delimiter b
        :: P0 :: P1 :: P2 :: NL :: split_lines (text ++ NL)%string ++ delimiter b
        :: Q0 :: P1 :: P2 :: NL :: split_lines (h ++ NL)%string ++ [closing b])%list.
Proof.
  intros HE Ha HCR Hah HCRh b.
  pose proof (built_boundary_shape token E text [MIMEText h "html"]) as Hb.
  fold b in Hb.
  pose proof (boundary_chars_facts b (boundary_shape_chars b Hb)) as (Hn & _ & _).
  pose proof (built_header_lines token E text [MIMEText h "html"] HE
                (or_intror (ex_intro _ h eq_refl))) as Hl.
  cbv zeta in Hl. fold b in Hl. destruct Hl as [Hl _].
  assert (Hform : as_bytes token (built E text [MIMEText h "html"])
                  = concat_strings
                      ((L0 :: L1 b :: L2 :: map header_line E)
                         ++ [NL; delimiter b; P0; P1; P2; NL])%list
                    ++ text ++ NL ++ ("--" ++ b) ++ NL
                    ++ (concat_strings [Q0; P1; P2; NL]
                        ++ h ++ NL ++ (("--" ++ b) ++ "--") ++ NL ++ "")).
  { unfold as_bytes. change (boundary_of token (built E text [MIMEText h "html"])) with b.
    change (subtype (built E text [MIMEText h "html"])) with "alternative".
    change (extra_headers (built E text [MIMEText h "html"])) with E.
    change (parts (built E text [MIMEText h "html"]))
      with [MIMEText text "plain"; MIMEText h "html"].
    cbn [map].
    rewrite (write_headers_top b E Hb HE), (flatten_part_plain text Ha HCR),
      (flatten_part_html h Hah HCRh).
    rewrite concat_strings_app.
    generalize (concat_strings (map header_line E)). intros X.
    unfold delimiter. unfold Q0.
    cbn [concat_strings]. same_string. }
  rewrite Hform.
  rewrite (split_lines_built _ text ("--" ++ b) _ Hl HCR)
    by now rewrite forall_chars_app, Hn.
  rewrite (split_lines_built [Q0; P1; P2; NL] h (("--" ++ b) ++ "--") "").
  - rewrite <- !app_assoc. cbn [app split_lines]. unfold closing, delimiter.
    now rewrite (sapp_assoc ("--" ++ b) "--" NL).
  - assert (Hc : forall a : string, forall_chars not_newline a = true ->
                                    is_line (a ++ NL)) by (intros a Hac; now exists a).
    constructor;
      [exact (Hc ("Content-Type: text/html; charset=" ++ quoted "us-ascii") eq_refl)|].
    constructor; [exact (Hc "MIME-Version: 1.0" eq_refl)|].
    constructor; [exact (Hc "Content-Transfer-Encoding: 7bit" eq_refl)|].
    constructor; [exact (Hc "" eq_refl) | constructor].
  - exact HCRh.
  - now rewrite !forall_chars_app, Hn.
Qed.

(** X25.  With an HTML body as well: when both bodies are ASCII without carriage
    return, no line of either begins with the delimiter of the document, and
    the header values are printable ASCII that fit on their line, the parsed
    message has exactly two parts, in the order they were attached: a
    [text/plain] part whose payload is [message_text] and a [text/html] part
    whose payload is [message_html]. *)
Theorem create_message_both_bodies_round_trip :
  forall token sender to subject message_text html cc,
    html <> "" ->
    Base64.all_ascii message_text = true -> has_char CR message_text = false ->
    Base64.all_ascii html = true -> has_char CR html = false ->
    all_plain_headers
      ([("to", to); ("from", sender); ("subject", subject)] ++ cc_header cc)%list
    = true ->
    let sep := "--" ++ boundary_of token
                         (Messages.mime_message sender to subject message_text
                            (Some html) cc) in
    no_line_starts_with sep message_text = true ->
    no_line_starts_with sep html = true ->
    exists m p1 p2,
      Messages.parse_message
        (raw_of (Messages.create_message token sender to subject message_text
                   (Some html) cc)) = Ok m
      /\ subparts m = [p1; p2]
      /\ get_content_type "text/plain" (headers_of p1) = "text/plain"
      /\ text_payload p1 = Some message_text
      /\ get_content_type "text/plain" (headers_of p2) = "text/html"
      /\ text_payload p2 = Some html.
Proof.
  intros token sender to subject text html cc Hne Ha HCR Hah HCRh Hplain sep Hno Hnoh.
  rewrite MessageFacts.raw_of_create_message.
  destruct (mime_message_shape sender to subject text (Some html) cc)
    as (ps & Hm & Hps).
  assert (Hps' : ps = [MIMEText html "html"]).
  { assert (Hparts : parts (Messages.mime_message sender to subject text (Some html) cc)
                     = [MIMEText text "plain"; MIMEText html "html"]).
    { unfold Messages.mime_message. destruct html as [|c h]; [congruence|].
      cbn [Messages.truthy_html truthy_str].
      destruct (Messages.truthy_cc cc); reflexivity. }
    rewrite Hm in Hparts. now injection Hparts. }
  subst ps. subst sep. rewrite Hm in *.
  set (E := ([("to", to); ("from", sender); ("subject", subject)] ++ cc_header cc)%list)
    in *.
  pose proof (user_headers_of sender to subject cc Hplain) as HE. fold E in HE.
  change (boundary_of token (built E text [MIMEText html "html"]))
    with (built_boundary token E text [MIMEText html "html"]) in Hno, Hnoh.
  set (b := built_boundary token E text [MIMEText html "html"]) in *.
  pose proof (built_boundary_shape token E text [MIMEText html "html"]) as Hb.
  fold b in Hb.
  pose proof (boundary_chars_facts b (boundary_shape_chars b Hb)) as (_ & _ & Hlf).
  destruct (as_bytes_header_block token E text [MIMEText html "html"] HE Hps)
    as (_ & _ & Hascii).
  pose proof (as_bytes_lines_two token E text html HE Ha HCR Hah HCRh) as Hlines.
  cbv zeta in Hlines. fold b in Hlines.
  rewrite (parse_message_urlsafe_b64encode _ Hascii).
  unfold message_from_string. cbv zeta. rewrite Hlines.
  match goal with
  | |- context [_parsegen (4 + 2 * ?n)%nat] =>
      change (4 + 2 * n)%nat with (S (S (S (S (2 * n)%nat))));
      destruct (_parsegen_built_two (2 * n) b (map header_line E)
                  (split_lines (text ++ NL)) (split_lines (html ++ NL)) Hb)
        as (hs & ->)
  end.
  - apply Forall_map. eapply Forall_impl; [exact HE|].
    intros h Hh. now destruct (user_header_line h Hh) as (_ & H2 & _).
  - apply body_lines_no_delimiter; [exact Hlf | exact HCR | exact Hno].
  - apply body_lines_no_delimiter; [exact Hlf | exact HCRh | exact Hnoh].
  - eexists _, _, _. split; [reflexivity|]. cbn [fst subparts].
    split; [reflexivity|]. split; [reflexivity|].
    split; [|split; [reflexivity|]]; cbn [text_payload]; f_equal.
    + rewrite concat_split_lines; [now rewrite (chomp_NL _ HCR)|].
      now rewrite has_char_app, HCR.
    + rewrite concat_split_lines; [now rewrite (chomp_NL _ HCRh)|].
      now rewrite has_char_app, HCRh.
Qed.

Lemma create_message_both_bodies_round_trip_witness :
  exists m p1 p2,
    Messages.parse_message
      (raw_of (Messages.create_message 12345 "me@example.com" "you@example.com"
                 "hello" ("Dear you," ++ NL ++ "--" ++ NL ++ "me")
                 (Some ("<p>Dear you</p>" ++ NL ++ "<p>me</p>")) None)) = Ok m
    /\ subparts m = [p1; p2]
    /\ text_payload p1 = Some ("Dear you," ++ NL ++ "--" ++ NL ++ "me")
    /\ text_payload p2 = Some ("<p>Dear you</p>" ++ NL ++ "<p>me</p>").
Proof.
  destruct (create_message_both_bodies_round_trip 12345 "me@example.com"
              "you@example.com" "hello" ("Dear you," ++ NL ++ "--" ++ NL ++ "me")
              ("<p>Dear you</p>" ++ NL ++ "<p>me</p>") None)
    as (m & p1 & p2 & H & Hs & _ & H1 & _ & H2);
    [discriminate | vm_compute; reflexivity ..|].
  exists m, p1, p2. auto.
Defined.

(** *** A body that is not ASCII *)











End MessageMore.
